(** * Living Heirloom: the orchestration core, embedded in Rocq

    A shallow embedding of the parts of the Living Heirloom web application
    that its specification speaks about, and of the code around them:

    - [src/lib/ai/webllm-manager.ts]  (class [WebLLMManager]),
    - [src/lib/ai/prompts.ts]         ([QUESTION_TEMPLATES], [EMOTIONAL_RESPONSES]),
    - [src/hooks/useVoice.ts]         ([cloneVoice], [generateSpeech]),
    - [src/lib/voice/elevenlabs-client.ts] (class [ElevenLabsClient]),
    - [src/lib/db/database.ts]        (class [LivingHeirloomDB]),
    - [src/lib/crypto/encryption.ts]  (class [CapsuleEncryption]),
    - [src/lib/sanitization.ts], [src/lib/schemas.ts], [src/lib/config.ts],
    - [src/lib/validation.ts]         ([ValidationRules], [Validators]),
    - [src/hooks/useAI.ts]            ([analyzeEmotion]),
    - [src/lib/voice/voice-manager.ts] ([validateModel], [cleanupModels]),
    - [src/lib/error-recovery.ts]     ([shouldAttemptRecovery]).

    JavaScript strings are sequences of UTF-16 code units, so a string is a
    [list Z] here; what the browser provides (Web Crypto, [btoa]/[atob],
    [JSON], the inference engine, the network) is a parameter or an explicit
    outcome of the function that awaits it. *)

From Stdlib Require Import ZArith QArith Qround String Ascii List Bool Lia.
From stdpp Require Import base option list gmap strings.
Import ListNotations.

(** ** JavaScript strings *)

Abbreviation jsstring := (list Z).

Module JS.

(** A string literal of the source, as code units (the literals used below
    are all ASCII). *)
Definition lit (s : string) : jsstring :=
  map (fun a : ascii => Z.of_N (N_of_ascii a)) (list_ascii_of_string s).

(** Truthiness of a string: the empty string is falsy. *)
Definition truthy (s : jsstring) : bool :=
  match s with [] => false | _ :: _ => true end.

Definition eqb (s t : jsstring) : bool := bool_decide (s = t).

(** ECMAScript [LineTerminator]: LF, CR, LS, PS. *)
Definition isLineTerminator (c : Z) : bool :=
  ((c =? 10) || (c =? 13) || (c =? 8232) || (c =? 8233))%Z.

(** ECMAScript [WhiteSpace] and [LineTerminator]: what [trim] strips and
    what the pattern [\s] matches. *)
Definition isWhiteSpace (c : Z) : bool :=
  ((c =? 9) || (c =? 10) || (c =? 11) || (c =? 12) || (c =? 13) || (c =? 32)
   || (c =? 160) || (c =? 5760) || ((8192 <=? c) && (c <=? 8202))
   || (c =? 8232) || (c =? 8233) || (c =? 8239) || (c =? 8287)
   || (c =? 12288) || (c =? 65279))%Z.

Fixpoint trimStart (s : jsstring) : jsstring :=
  match s with
  | c :: t => if isWhiteSpace c then trimStart t else s
  | [] => []
  end.

Definition trimEnd (s : jsstring) : jsstring := rev (trimStart (rev s)).

Definition trim (s : jsstring) : jsstring := trimEnd (trimStart s).

Fixpoint startsWith (s p : jsstring) {struct p} : bool :=
  match p, s with
  | [], _ => true
  | _ :: _, [] => false
  | a :: p', b :: s' => (a =? b)%Z && startsWith s' p'
  end.

Definition endsWith (s p : jsstring) : bool := startsWith (rev s) (rev p).

(** [s.includes(p)]: [p] occurs in [s] as a contiguous run. *)
Fixpoint includes (s p : jsstring) : bool :=
  startsWith s p || match s with [] => false | _ :: t => includes t p end.

(** [s.substring(0, n)] for a non-negative [n]. *)
Definition substring0 (n : nat) (s : jsstring) : jsstring := take n s.

(** [s.split(' ').length]: one more than the number of spaces. *)
Definition splitSpaceLength (s : jsstring) : nat :=
  S (length (filter (fun c => c = 32%Z) s)).

End JS.

Arguments JS.lit : simpl never.

(** The [?] that questions are expected to end with. *)
Definition QUESTION_MARK : Z := 63.

(** ** Emotion labels ([webllm-manager.ts], [validateEmotion] and
       [analyzeEmotionFallback]) *)

Definition validEmotions : list jsstring :=
  map JS.lit
    ["joyful"; "nostalgic"; "melancholic"; "hopeful"; "grateful";
     "reflective"; "loving"; "peaceful"; "excited"; "contemplative";
     "vulnerable"; "proud"; "wistful"; "serene"; "passionate"]%string.

Definition reflective : jsstring := JS.lit "reflective".

(** [validEmotions.includes(emotion) ? emotion : 'reflective'] *)
Definition validateEmotion (emotion : jsstring) : jsstring :=
  if bool_decide (emotion ∈ validEmotions) then emotion else reflective.

(** The keyword table of [analyzeEmotionFallback], in the order
    [Object.entries] walks it. *)
Definition emotionKeywords : list (jsstring * list jsstring) :=
  [ (JS.lit "joyful",
      map JS.lit ["happy"; "joy"; "excited"; "wonderful"; "amazing"; "love"]%string);
    (JS.lit "nostalgic",
      map JS.lit ["remember"; "used to"; "back then"; "childhood"; "past"]%string);
    (JS.lit "grateful",
      map JS.lit ["thankful"; "blessed"; "appreciate"; "grateful"; "lucky"]%string);
    (JS.lit "melancholic",
      map JS.lit ["sad"; "miss"; "lost"; "gone"; "difficult"; "hard"]%string);
    (JS.lit "hopeful",
      map JS.lit ["hope"; "future"; "dream"; "wish"; "believe"; "will"]%string) ].

(** The [for ... of] loop over a keyword table: the first emotion one of
    whose keywords occurs in the text, else ['reflective']. *)
Fixpoint firstKeywordMatch (table : list (jsstring * list jsstring))
    (lowerText : jsstring) : jsstring :=
  match table with
  | [] => reflective
  | (emotion, keywords) :: rest =>
      if existsb (fun keyword => JS.includes lowerText keyword) keywords
      then emotion
      else firstKeywordMatch rest lowerText
  end.

(** ** The model lifecycle manager ([webllm-manager.ts], class [WebLLMManager])

    The manager is an object mutated by asynchronous code on one event loop.
    Its fields, the promises it hands out and everything it broadcasts are
    kept in one explicit state; what the event loop delivers (a call of
    [initialize()] or [unload()], a progress report of the runtime, the load
    settling, the timer firing, the warm-up settling, [engine.unload()]
    settling) is an [Event], run in order. *)

Module Manager.

Inductive Stage := downloading | loading | ready | error.

#[global] Instance Stage_eq_dec : EqDecision Stage.
Proof. solve_decision. Defined.

Record AILoadingProgress := {
  progress : Q;
  text : jsstring;
  stage : Stage
}.

(** The promise returned by one [doInitialize()] call. [Racing]: awaiting
    [Promise.race([initPromise, timeoutPromise])]; [WarmingUp]: the load won,
    the warm-up completion is awaited; then settled. A rejection carries the
    thrown value: [Some m] for an [Error] with message [m]. *)
Inductive OpStatus :=
| Racing
| WarmingUp
| Fulfilled
| Rejected (reason : option jsstring).

Record Operation := {
  status : OpStatus;
  loadRunning : bool   (* [CreateMLCEngine] has not settled yet *)
}.

Record State := {
  engine : option nat;            (* [this.engine]: null or a handle *)
  isInitialized : bool;           (* [this.isInitialized] *)
  initPromise : option nat;       (* [this.initPromise]: null or a promise *)
  progressCallbacks : list nat;   (* [this.progressCallbacks], by subscriber *)
  operations : list Operation;    (* every promise [doInitialize] returned *)
  delivered : list (nat * AILoadingProgress); (* callback invocations, oldest first *)
  dispatched : list AILoadingProgress;        (* 'ai-progress' window events *)
  unloading : nat   (* [unload()] calls suspended at [await this.engine.unload()] *)
}.

(** [new WebLLMManager()] *)
Definition fresh : State := {|
  engine := None; isInitialized := false; initPromise := None;
  progressCallbacks := []; operations := []; delivered := []; dispatched := [];
  unloading := 0
|}.

Definition Qltb (x y : Q) : bool := negb (Qle_bool y x).

(** The [catch] block of [doInitialize]: the text of the error
    notification. *)
Definition errorText (reason : option jsstring) : jsstring :=
  match reason with
  | Some message =>
      if JS.includes message (JS.lit "timeout") then JS.lit "AI initialization timed out"
      else if JS.includes message (JS.lit "network") then JS.lit "Network error loading AI"
      else if JS.includes message (JS.lit "memory") then JS.lit "Insufficient memory for AI"
      else JS.lit "AI unavailable"
  | None => JS.lit "AI unavailable"
  end.

(** The progress object the [initProgressCallback] builds from a report. *)
Definition progressReport (report_progress : Q) : AILoadingProgress :=
  let stage := if Qltb report_progress (8 # 10) then downloading else loading in
  let progressText :=
    if Qltb report_progress (2 # 10) then JS.lit "Downloading AI model files..."
    else if Qltb report_progress (5 # 10) then JS.lit "Processing model components..."
    else if Qltb report_progress (8 # 10) then JS.lit "Preparing model for use..."
    else JS.lit "Finalizing AI initialization..." in
  {| progress := report_progress; text := progressText; stage := stage |}.

Definition initializingEvent : AILoadingProgress :=
  {| progress := 0; text := JS.lit "Initializing AI..."; stage := downloading |}.

Definition readyEvent : AILoadingProgress :=
  {| progress := 1; text := JS.lit "AI ready for conversations!"; stage := ready |}.

Definition errorEvent (reason : option jsstring) : AILoadingProgress :=
  {| progress := 0; text := errorText reason; stage := error |}.

(** [onProgress(callback)] *)
Definition onProgress (callback : nat) (s : State) : State :=
  {| engine := engine s; isInitialized := isInitialized s;
     initPromise := initPromise s;
     progressCallbacks := progressCallbacks s ++ [callback];
     operations := operations s; delivered := delivered s;
     dispatched := dispatched s; unloading := unloading s |}.

(** The unsubscribe closure [onProgress] returns. *)
Definition unsubscribe (callback : nat) (s : State) : State :=
  {| engine := engine s; isInitialized := isInitialized s;
     initPromise := initPromise s;
     progressCallbacks := filter (fun cb => cb <> callback) (progressCallbacks s);
     operations := operations s; delivered := delivered s;
     dispatched := dispatched s; unloading := unloading s |}.

(** [notifyProgress(progress)] *)
Definition notifyProgress (p : AILoadingProgress) (s : State) : State :=
  {| engine := engine s; isInitialized := isInitialized s;
     initPromise := initPromise s;
     progressCallbacks := progressCallbacks s;
     operations := operations s;
     delivered := delivered s ++ map (fun cb => (cb, p)) (progressCallbacks s);
     dispatched := dispatched s ++ [p]; unloading := unloading s |}.

(** The [initProgressCallback] handed to [CreateMLCEngine]. *)
Definition initProgressCallback (report_progress : Q) (s : State) : State :=
  notifyProgress (progressReport report_progress) s.

Definition setOperation (i : nat) (o : Operation) (s : State) : State :=
  {| engine := engine s; isInitialized := isInitialized s;
     initPromise := initPromise s;
     progressCallbacks := progressCallbacks s;
     operations := <[i := o]> (operations s);
     delivered := delivered s; dispatched := dispatched s;
     unloading := unloading s |}.

(** The synchronous head of [doInitialize()]: the first notification, the
    timer and the load are started, and the function suspends at the race.
    The promise it returns is the next entry of [operations]. *)
Definition doInitialize (s : State) : nat * State :=
  let s1 := notifyProgress initializingEvent s in
  (length (operations s1),
   {| engine := engine s1; isInitialized := isInitialized s1;
      initPromise := initPromise s1;
      progressCallbacks := progressCallbacks s1;
      operations := operations s1 ++ [ {| status := Racing; loadRunning := true |} ];
      delivered := delivered s1; dispatched := dispatched s1;
      unloading := unloading s1 |}).

(** What a caller of [initialize()] holds: a promise already resolved, or
    one that settles as operation [p] does. *)
Inductive Awaited := Immediate | Follows (p : nat).

(** [initialize()] *)
Definition initialize (s : State) : Awaited * State :=
  if isInitialized s then (Immediate, s)
  else match initPromise s with
       | Some p => (Follows p, s)
       | None =>
           let '(p, s1) := doInitialize s in
           (Follows p,
            {| engine := engine s1; isInitialized := isInitialized s1;
               initPromise := Some p;
               progressCallbacks := progressCallbacks s1;
               operations := operations s1;
               delivered := delivered s1; dispatched := dispatched s1;
               unloading := unloading s1 |})
       end.

(** The race lost: the [catch] block notifies and rethrows. *)
Definition raceRejected (p : nat) (o : Operation) (reason : option jsstring)
    (s : State) : State :=
  let s1 := notifyProgress (errorEvent reason) s in
  setOperation p {| status := Rejected reason; loadRunning := loadRunning o |} s1.

(** The race won by the load: the engine is kept, readiness is announced
    and the warm-up completion is awaited. *)
Definition raceResolved (p : nat) (handle : nat) (s : State) : State :=
  let s1 := notifyProgress readyEvent
              {| engine := Some handle; isInitialized := true;
                 initPromise := initPromise s;
                 progressCallbacks := progressCallbacks s;
                 operations := operations s;
                 delivered := delivered s; dispatched := dispatched s;
                 unloading := unloading s |} in
  setOperation p {| status := WarmingUp; loadRunning := false |} s1.

Definition timeoutMessage : jsstring := JS.lit "AI initialization timed out".

Inductive Event :=
| CallInitialize
| Subscribe (callback : nat)
| Unsubscribe (callback : nat)
| Report (p : nat) (report_progress : Q)       (* the runtime reports progress *)
| LoadResolved (p : nat) (handle : nat)        (* [CreateMLCEngine] resolves *)
| LoadRejected (p : nat) (reason : option jsstring)
| TimeoutFired (p : nat)                       (* the 120000 ms timer fires *)
| WarmupSettled (p : nat)                      (* the warm-up resolves or rejects *)
| CallUnload
| UnloadSettled (resolved : bool).             (* [engine.unload()] resolves or rejects *)

(** [unload()] up to its [await]: the test of [this.engine] and, with an
    engine, the call of [this.engine.unload()], whose settling the function
    then awaits. Without an engine nothing happens. *)
Definition unload (s : State) : State :=
  match engine s with
  | Some _ =>
      {| engine := engine s; isInitialized := isInitialized s;
         initPromise := initPromise s;
         progressCallbacks := progressCallbacks s;
         operations := operations s;
         delivered := delivered s; dispatched := dispatched s;
         unloading := S (unloading s) |}
  | None => s
  end.

(** [unload()] from its [await] on, for one suspended call: when
    [engine.unload()] has resolved the three fields are reset, whatever they
    hold by then; when it has rejected, [unload()] rejects and resets
    nothing. With no call suspended there is nothing to resume. *)
Definition unloadSettled (resolved : bool) (s : State) : State :=
  match unloading s with
  | O => s
  | S suspended =>
      if resolved
      then {| engine := None; isInitialized := false; initPromise := None;
              progressCallbacks := progressCallbacks s;
              operations := operations s;
              delivered := delivered s; dispatched := dispatched s;
              unloading := suspended |}
      else {| engine := engine s; isInitialized := isInitialized s;
              initPromise := initPromise s;
              progressCallbacks := progressCallbacks s;
              operations := operations s;
              delivered := delivered s; dispatched := dispatched s;
              unloading := suspended |}
  end.

Definition step (s : State) (e : Event) : State :=
  match e with
  | CallInitialize => snd (initialize s)
  | Subscribe cb => onProgress cb s
  | Unsubscribe cb => unsubscribe cb s
  | Report p q =>
      match operations s !! p with
      | Some o => if loadRunning o then initProgressCallback q s else s
      | None => s
      end
  | LoadResolved p handle =>
      match operations s !! p with
      | Some {| status := Racing; loadRunning := true |} => raceResolved p handle s
      | Some {| status := st; loadRunning := true |} =>
          setOperation p {| status := st; loadRunning := false |} s
      | _ => s
      end
  | LoadRejected p reason =>
      match operations s !! p with
      | Some {| status := Racing; loadRunning := true |} =>
          raceRejected p {| status := Racing; loadRunning := false |} reason s
      | Some {| status := st; loadRunning := true |} =>
          setOperation p {| status := st; loadRunning := false |} s
      | _ => s
      end
  | TimeoutFired p =>
      match operations s !! p with
      | Some o =>
          match status o with
          | Racing => raceRejected p o (Some timeoutMessage) s
          | _ => s
          end
      | None => s
      end
  | WarmupSettled p =>
      match operations s !! p with
      | Some {| status := WarmingUp; loadRunning := r |} =>
          setOperation p {| status := Fulfilled; loadRunning := r |} s
      | _ => s
      end
  | CallUnload => unload s
  | UnloadSettled resolved => unloadSettled resolved s
  end.

Definition run (s : State) (es : list Event) : State := fold_left step es s.

(** [isReady()] *)
Definition isReady (s : State) : bool :=
  isInitialized s && bool_decide (engine s <> None).

(** The number of loads ever started: one per [doInitialize] call. *)
Definition loadsStarted (s : State) : nat := length (operations s).

Definition countStage (st : Stage) (l : list AILoadingProgress) : nat :=
  length (filter (fun p => stage p = st) l).

End Manager.

(** ** The generation service ([webllm-manager.ts]; the tables of [prompts.ts]) *)

(** The body of a [try] block: a value, or a thrown [Error] and its message. *)
Inductive Try (A : Type) :=
| Ok (a : A)
| Throw (message : jsstring).
Arguments Ok {A} a.
Arguments Throw {A} message.

(** What the awaited inference runtime does for one request: [initialize()]
    rejects, [this.engine] is null, [chat.completions.create] rejects, or it
    resolves and [response.choices[0]?.message?.content] is a string or
    undefined. *)
Inductive EngineOutcome :=
| InitializeRejected (reason : jsstring)
| EngineNull
| CreateRejected (reason : jsstring)
| Answered (content : option jsstring).

Definition QUESTION_TEMPLATES_OPENING : list jsstring := map JS.lit [
  "What's a moment from your life that still makes you smile when you think about it?";
  "If you could sit down with someone you love and share one story, what would it be?";
  "What's something about yourself that you hope people will always remember?"
]%string.

Definition QUESTION_TEMPLATES_MEMORIES : list jsstring := map JS.lit [
  "Tell me about a time when you felt most proud of yourself.";
  "What's a small, everyday moment that meant more to you than it might have seemed?";
  "Who has had the biggest impact on your life, and what did they teach you?";
  "What's a tradition or ritual that's been important to your family?"
]%string.

Definition QUESTION_TEMPLATES_WISDOM : list jsstring := map JS.lit [
  "What's one piece of advice you wish someone had given you when you were younger?";
  "What have you learned about love that you'd want to pass on?";
  "What mistake taught you the most valuable lesson?";
  "What do you know now that you wish you could tell your younger self?"
]%string.

Definition QUESTION_TEMPLATES_FEELINGS : list jsstring := map JS.lit [
  "How do you want to be remembered by the people you love most?";
  "What do you hope people will say about the kind of person you were?";
  "What's something you've always wanted to tell someone but never found the right moment?";
  "What does it mean to you to live a meaningful life?"
]%string.

Definition QUESTION_TEMPLATES_FUTURE : list jsstring := map JS.lit [
  "What dreams do you have for the people you love?";
  "What kind of world do you hope future generations will create?";
  "What values do you most want to pass down?";
  "What would you want someone to know if they were facing a difficult time?"
]%string.

(** [QUESTION_TEMPLATES], keyed by property name. *)
Definition QUESTION_TEMPLATES : list (jsstring * list jsstring) := [
  (JS.lit "OPENING", QUESTION_TEMPLATES_OPENING);
  (JS.lit "MEMORIES", QUESTION_TEMPLATES_MEMORIES);
  (JS.lit "WISDOM", QUESTION_TEMPLATES_WISDOM);
  (JS.lit "FEELINGS", QUESTION_TEMPLATES_FEELINGS);
  (JS.lit "FUTURE", QUESTION_TEMPLATES_FUTURE)
].

(** [EMOTIONAL_RESPONSES[state].followUp], keyed by property name. *)
Definition EMOTIONAL_RESPONSES_followUp : list (jsstring * jsstring) := [
  (JS.lit "joyful",
   JS.lit "What other moments have filled you with this same kind of joy?");
  (JS.lit "nostalgic",
   JS.lit "What made this memory so special that it stayed with you all this time?");
  (JS.lit "melancholic",
   JS.lit "Sometimes our most meaningful memories carry both joy and sadness. What would you want someone to understand about this?");
  (JS.lit "grateful",
   JS.lit "How has this gratitude shaped the way you see the world?");
  (JS.lit "vulnerable",
   JS.lit "What would you want someone to know if they were going through something similar?");
  (JS.lit "hopeful",
   JS.lit "What keeps this hope alive in your heart?")
].

(** Property lookup [table[key]] in an object literal: the first (only)
    entry of that name, or undefined. *)
Fixpoint property {A : Type} (table : list (jsstring * A)) (key : jsstring)
    : option A :=
  match table with
  | [] => None
  | (k, v) :: rest => if JS.eqb k key then Some v else property rest key
  end.

Record AIResponse := {
  content : option jsstring;   (* a string, or undefined *)
  confidence : Q;
  emotionalTone : jsstring;
  suggestions : option (list jsstring)
}.

Record CapsuleContent := {
  cc_content : jsstring;
  cc_title : jsstring;
  cc_emotionalTone : jsstring;
  cc_wordCount : nat
}.

(** [generateFollowUpSuggestions] *)
Definition generateFollowUpSuggestions (emotionalState : jsstring) : list jsstring :=
  match property EMOTIONAL_RESPONSES_followUp emotionalState with
  | Some followUp => if JS.truthy followUp then [followUp] else []
  | None => []
  end.

Definition isQuote (c : Z) : bool := ((c =? 34) || (c =? 39))%Z.

(** [s.replace(/^["']|["']$/g, '')]: a quote in first position is removed,
    and so is one in last position of what follows it. *)
Definition stripQuotes (s : jsstring) : jsstring :=
  let s1 := match s with
            | c :: t => if isQuote c then t else s
            | [] => []
            end in
  match rev s1 with
  | c :: t => if isQuote c then rev t else s1
  | [] => s1
  end.

(** The pattern [/(?:Title|TITLE):\s*(.+?)(?:\n|$)/i] of
    [parseGeneratedContent], as the backtracking matcher runs it. *)

(** [title:] without regard to case, at the head of [s]; what follows it. *)
Definition matchTitleWord (s : jsstring) : option jsstring :=
  match s with
  | t :: i :: t' :: l :: e :: colon :: rest =>
      if (((t =? 84) || (t =? 116)) && ((i =? 73) || (i =? 105))
          && ((t' =? 84) || (t' =? 116)) && ((l =? 76) || (l =? 108))
          && ((e =? 69) || (e =? 101)) && (colon =? 58))%Z
      then Some rest else None
  | _ => None
  end.

(** [(.+?)(?:\n|$)] once the group holds a character: the shortest run of
    further characters, none a line terminator, that a newline or the end of
    the input follows. The result is that run and what follows the match. *)
Fixpoint lazyToLineEnd (s : jsstring) : option (jsstring * jsstring) :=
  match s with
  | [] => Some ([], [])
  | c :: t =>
      if (c =? 10)%Z then Some ([], t)
      else if JS.isLineTerminator c then None
      else match lazyToLineEnd t with
           | Some (g, after) => Some (c :: g, after)
           | None => None
           end
  end.

(** [(.+?)(?:\n|$)] *)
Definition matchGroup (s : jsstring) : option (jsstring * jsstring) :=
  match s with
  | [] => None
  | c :: t =>
      if JS.isLineTerminator c then None
      else match lazyToLineEnd t with
           | Some (g, after) => Some (c :: g, after)
           | None => None
           end
  end.

(** [\s*(.+?)(?:\n|$)]: the greedy star takes a white-space character first
    and gives it back when the rest of the pattern fails. *)
Fixpoint matchAfterColon (s : jsstring) : option (jsstring * jsstring) :=
  match s with
  | c :: t =>
      if JS.isWhiteSpace c
      then match matchAfterColon t with
           | Some r => Some r
           | None => matchGroup s
           end
      else matchGroup s
  | [] => matchGroup []
  end.

(** The whole pattern at the head of [s]. *)
Definition matchTitleHere (s : jsstring) : option (jsstring * jsstring) :=
  match matchTitleWord s with
  | Some rest => matchAfterColon rest
  | None => None
  end.

(** The leftmost match in [s]: what precedes it, the group, what follows. *)
Fixpoint matchTitle (s : jsstring) : option (jsstring * jsstring * jsstring) :=
  match matchTitleHere s with
  | Some (g, after) => Some ([], g, after)
  | None =>
      match s with
      | [] => None
      | c :: t =>
          match matchTitle t with
          | Some (before, g, after) => Some (c :: before, g, after)
          | None => None
          end
      end
  end.

(** [parseGeneratedContent]: the pair [(content, title)]. *)
Definition parseGeneratedContent (fullResponse : jsstring) : jsstring * jsstring :=
  match matchTitle fullResponse with
  | Some (before, g, after) => (JS.trim (before ++ after), JS.trim g)
  | None => (JS.trim fullResponse, JS.lit "A Message from the Heart")
  end.

Definition defaultLetter : jsstring := JS.lit
"Dear Future Reader,

I wanted to create this living heirloom to share something meaningful with you. Though I may not have had the chance to share all my thoughts in detail, please know that you are deeply loved and cherished.

The memories we create, the love we share, and the wisdom we pass down are the true treasures of life. May this message serve as a reminder of the connection we share across time.

With all my love and hope for your future,
[Your Name]".

Definition letterOpening : jsstring := JS.lit
"My Dear One,

I wanted to share some thoughts with you that I hope will stay with you always.

".

Definition letterClosing : jsstring := JS.lit
"These words come from my heart, carrying with them all the love and hope I have for you. May they serve as a reminder of the precious connection we share across time and generations.

With endless love,
[Your Name]".

Definition twoNewlines : jsstring := [10; 10]%Z.

(** [targetWords] of [generateTimeCapsuleContent] *)
Definition targetWords (length : jsstring) : Z :=
  let targetWords := 300%Z in
  let targetWords := if JS.eqb length (JS.lit "short") then 150%Z else targetWords in
  if JS.eqb length (JS.lit "long") then 500%Z else targetWords.

(** The title [getFallbackContent] picks for a tone. *)
Definition fallbackTitle (tone : jsstring) : jsstring :=
  if JS.eqb tone (JS.lit "wise") || JS.eqb tone (JS.lit "thoughtful")
  then JS.lit "Wisdom for Tomorrow"
  else if JS.eqb tone (JS.lit "poetic") || JS.eqb tone (JS.lit "inspiring")
  then JS.lit "A Legacy of Love"
  else if JS.eqb tone (JS.lit "conversational")
  then JS.lit "Thoughts to Share"
  else JS.lit "A Message from the Heart".

Section GenerationService.

(** Unicode case mapping ([String.prototype.toLowerCase], [toUpperCase]) is
    the platform's. No character maps to a lower-case ASCII letter under
    [toUpperCase], so [QUESTION_TEMPLATES[category.toUpperCase()]] never
    reaches a property inherited from [Object.prototype]. *)
Variable toLowerCase : jsstring -> jsstring.
Variable toUpperCase : jsstring -> jsstring.

(** [analyzeEmotionFallback] *)
Definition analyzeEmotionFallback (text : jsstring) : jsstring :=
  firstKeywordMatch emotionKeywords (toLowerCase text).

(** [analyzeEmotionalState] *)
Definition analyzeEmotionalState (outcome : EngineOutcome) (text : jsstring)
    : jsstring :=
  match outcome with
  | Answered content =>
      let emotion :=
        match content with
        | Some c =>
            let e := toLowerCase (JS.trim c) in
            if JS.truthy e then e else reflective
        | None => reflective
        end in
      validateEmotion emotion
  | _ => analyzeEmotionFallback text
  end.

(** [getFallbackQuestion]; [random] is the value of [Math.random()]. *)
Definition getFallbackQuestion (random : Q) (category : jsstring)
    : option jsstring :=
  let templates :=
    match property QUESTION_TEMPLATES (toUpperCase category) with
    | Some templates => templates
    | None => QUESTION_TEMPLATES_OPENING
    end in
  templates !! Z.to_nat (Qfloor (random * inject_Z (Z.of_nat (length templates)))).

(** The [try] block of [generateInterviewQuestion]. *)
Definition generateInterviewQuestion_try (outcome : EngineOutcome)
    (emotionalState questionCategory : jsstring) : Try AIResponse :=
  match outcome with
  | InitializeRejected reason => Throw reason
  | EngineNull => Throw (JS.lit "AI not initialized")
  | _ =>
    if negb (JS.truthy emotionalState) || negb (JS.truthy questionCategory)
    then Throw (JS.lit "Missing required parameters for question generation")
    else
      match outcome with
      | Answered (Some rawContent) =>
          if negb (JS.truthy rawContent)
             || (length (JS.trim rawContent) =? 0)%nat
          then Throw (JS.lit "AI returned empty response")
          else
            let content := JS.trim (stripQuotes rawContent) in
            let content :=
              if JS.endsWith content [QUESTION_MARK] then content
              else content ++ [QUESTION_MARK] in
            if (length content <? 10)%nat
            then Throw (JS.lit "Generated question is too short")
            else
              let content :=
                if (300 <? length content)%nat
                then JS.substring0 297 content ++ JS.lit "..."
                else content in
              Ok {| content := Some content;
                    confidence := 8 # 10;
                    emotionalTone := emotionalState;
                    suggestions := Some (generateFollowUpSuggestions emotionalState) |}
      | Answered None => Throw (JS.lit "AI returned empty response")
      | CreateRejected reason => Throw reason
      | _ => Throw (JS.lit "AI not initialized")
      end
  end.

(** [generateInterviewQuestion] *)
Definition generateInterviewQuestion (outcome : EngineOutcome) (random : Q)
    (emotionalState questionCategory : jsstring) : AIResponse :=
  match generateInterviewQuestion_try outcome emotionalState questionCategory with
  | Ok r => r
  | Throw _ =>
      {| content := getFallbackQuestion random questionCategory;
         confidence := 3 # 10;
         emotionalTone := emotionalState;
         suggestions := None |}
  end.

(** The sentence [getFallbackContent] writes for one answered question. *)
Definition fallbackSentence (question answer : jsstring) : jsstring :=
  let q := toLowerCase question in
  if JS.includes q (JS.lit "moment") || JS.includes q (JS.lit "memory")
  then JS.lit "When I think about precious moments, " ++ JS.trim answer ++ twoNewlines
  else if JS.includes q (JS.lit "wisdom") || JS.includes q (JS.lit "advice")
  then JS.lit "Something I've learned that I want to share with you: "
       ++ JS.trim answer ++ twoNewlines
  else if JS.includes q (JS.lit "remember") || JS.includes q (JS.lit "legacy")
  then JS.lit "I hope you'll remember this about me: " ++ JS.trim answer ++ twoNewlines
  else if JS.includes q (JS.lit "future") || JS.includes q (JS.lit "hope")
  then JS.lit "For your future, I hope: " ++ JS.trim answer ++ twoNewlines
  else JS.trim answer ++ twoNewlines.

(** The [forEach] of [getFallbackContent] over [Object.entries(responses)]. *)
Fixpoint fallbackBody (responseEntries : list (jsstring * jsstring))
    (content : jsstring) : jsstring :=
  match responseEntries with
  | [] => content
  | (question, answer) :: rest =>
      if JS.truthy answer && JS.truthy (JS.trim answer)
      then fallbackBody rest (content ++ fallbackSentence question answer)
      else fallbackBody rest content
  end.

(** [getFallbackContent]; [responses] is [Object.entries(responses)]. *)
Definition getFallbackContent (responses : list (jsstring * jsstring))
    (tone : jsstring) : CapsuleContent :=
  match responses with
  | [] =>
      {| cc_content := defaultLetter;
         cc_title := JS.lit "A Message of Love";
         cc_emotionalTone := tone;
         cc_wordCount := JS.splitSpaceLength defaultLetter |}
  | _ :: _ =>
      let content := fallbackBody responses letterOpening ++ letterClosing in
      {| cc_content := content;
         cc_title := fallbackTitle tone;
         cc_emotionalTone := tone;
         cc_wordCount := JS.splitSpaceLength content |}
  end.

(** [Object.entries(responses).filter(...).map(...).join('\n\n')] *)
Fixpoint joinResponses (items : list jsstring) : jsstring :=
  match items with
  | [] => []
  | [x] => x
  | x :: rest => x ++ twoNewlines ++ joinResponses rest
  end.

Definition responseText (responses : list (jsstring * jsstring)) : jsstring :=
  joinResponses
    (map (fun '(q, a) => JS.lit "Q: " ++ q ++ [10%Z] ++ JS.lit "A: " ++ a)
       (List.filter
          (fun '(q, a) =>
             JS.truthy q && JS.truthy a && (0 <? length (JS.trim a))%nat)
          responses)).

(** The [try] block of [generateTimeCapsuleContent]. *)
Definition generateTimeCapsuleContent_try (outcome : EngineOutcome)
    (responses : list (jsstring * jsstring)) (tone : jsstring)
    : Try CapsuleContent :=
  match outcome with
  | InitializeRejected reason => Throw reason
  | EngineNull => Throw (JS.lit "AI not initialized")
  | _ =>
    if (length responses =? 0)%nat
    then Throw (JS.lit "No interview responses provided")
    else if negb (JS.truthy (JS.trim (responseText responses)))
    then Throw (JS.lit "No valid interview responses found")
    else
      match outcome with
      | Answered (Some fullResponse) =>
          if negb (JS.truthy fullResponse)
             || (length (JS.trim fullResponse) =? 0)%nat
          then Throw (JS.lit "AI returned empty content")
          else
            let '(content, title) := parseGeneratedContent fullResponse in
            if negb (JS.truthy content) || (length (JS.trim content) <? 50)%nat
            then Throw (JS.lit "Generated content is too short")
            else Ok {| cc_content := content;
                       cc_title := title;
                       cc_emotionalTone := tone;
                       cc_wordCount := JS.splitSpaceLength content |}
      | Answered None => Throw (JS.lit "AI returned empty content")
      | CreateRejected reason => Throw reason
      | _ => Throw (JS.lit "AI not initialized")
      end
  end.

(** [generateTimeCapsuleContent]: what the returned promise settles with. No
    path of the function rejects it. *)
Definition generateTimeCapsuleContent (outcome : EngineOutcome)
    (responses : list (jsstring * jsstring)) (tone : jsstring)
    : Try CapsuleContent :=
  match generateTimeCapsuleContent_try outcome responses tone with
  | Ok r => Ok r
  | Throw _ => Ok (getFallbackContent responses tone)
  end.

End GenerationService.

(** ** Numbers as text *)

(** The decimal digits of a non-negative integer, most significant first;
    [fuel] bounds the number of digits. *)
Fixpoint decimalDigits (fuel : nat) (n : Z) (acc : jsstring) : jsstring :=
  match fuel with
  | O => acc
  | S fuel' =>
      let acc' := (48 + n mod 10)%Z :: acc in
      if (n <? 10)%Z then acc' else decimalDigits fuel' (n / 10)%Z acc'
  end.

(** [String(n)] for an integer [n] (a template literal's [${n}]). An integer
    has no more decimal digits than binary ones. *)
Definition numberToString (n : Z) : jsstring :=
  let digits m := decimalDigits (S (Z.to_nat (Z.log2 m))) m [] in
  if (n <? 0)%Z then 45%Z :: digits (- n)%Z else digits n.

(** ** Sanitization and schemas ([sanitization.ts], [schemas.ts]) *)

Definition isAlphaNumeric (c : Z) : bool :=
  (((48 <=? c) && (c <=? 57)) || ((65 <=? c) && (c <=? 90))
   || ((97 <=? c) && (c <=? 122)))%Z.

(** The pattern [\w]. *)
Definition isWordChar (c : Z) : bool := isAlphaNumeric c || (c =? 95)%Z.

(** [s.replace(/\s+/g, ' ')]: every run of white space becomes one space. *)
Fixpoint collapseWhiteSpace (s : jsstring) : jsstring :=
  match s with
  | [] => []
  | c :: t =>
      if JS.isWhiteSpace c
      then match t with
           | d :: _ => if JS.isWhiteSpace d then collapseWhiteSpace t
                       else 32%Z :: collapseWhiteSpace t
           | [] => [32%Z]
           end
      else c :: collapseWhiteSpace t
  end.

(** [sanitizeName] *)
Definition sanitizeName (input : jsstring) : jsstring :=
  if negb (JS.truthy input) then []
  else
    JS.substring0 100
      (collapseWhiteSpace
         (List.filter
            (fun c => isWordChar c || JS.isWhiteSpace c
                      || (c =? 39)%Z || (c =? 45)%Z)
            (JS.trim input))).

Inductive Quality := high | medium | low.

Record Blob := { size : Z }.

(** [interface VoiceModel] of [database.ts]. *)
Record VoiceModel := {
  id : option nat;
  modelId : jsstring;
  name : jsstring;
  samples : list jsstring;
  sampleBlobs : option (list Blob);
  createdAt : Z;
  isActive : bool;
  isElevenLabsModel : bool;
  quality : Quality
}.

(** [BlobSchema]: between 1 byte and 50 MB. *)
Definition BlobSchema (b : Blob) : bool :=
  ((0 <? size b) && (size b <? 50 * 1024 * 1024))%Z.

(** [VoiceModelSchema.safeParse(data).success] *)
Definition validateVoiceModel (m : VoiceModel) : bool :=
  (1 <=? length (modelId m))%nat
  && (2 <=? length (name m))%nat && (length (name m) <=? 50)%nat
  && forallb (fun c => isAlphaNumeric c || JS.isWhiteSpace c
                       || (c =? 39)%Z || (c =? 45)%Z) (name m)
  && (1 <=? length (samples m))%nat
  && match sampleBlobs m with
     | Some blobs => forallb BlobSchema blobs && (3 <=? length blobs)%nat
     | None => true
     end.

(** [sanitizeVoiceModel] followed by [Object.assign(obj, sanitized)]. *)
Definition sanitizeVoiceModel (m : VoiceModel) : VoiceModel :=
  {| id := id m;
     modelId := sanitizeName (modelId m);
     name := sanitizeName (name m);
     samples := samples m; sampleBlobs := sampleBlobs m;
     createdAt := createdAt m; isActive := isActive m;
     isElevenLabsModel := isElevenLabsModel m; quality := quality m |}.

(** ** The voice-model table ([db.voiceModels] of [LivingHeirloomDB]) *)

Module VoiceTable.

(** The rows in primary-key order, and the next auto-incremented key. *)
Record t := {
  rows : list VoiceModel;
  nextId : nat
}.

Definition empty : t := {| rows := []; nextId := 1 |}.

(** The ['creating'] hook of [voiceModels]: the object as it is stored, or
    the error the hook throws. *)
Definition creatingHook (obj : VoiceModel) : Try VoiceModel :=
  let obj := sanitizeVoiceModel obj in
  if validateVoiceModel obj then Ok obj
  else Throw (JS.lit "Invalid voice model data").

(** [db.voiceModels.add(obj)]; [accepts] tells whether the browser's storage
    takes the write (it may refuse, for instance over quota). *)
Definition add (accepts : bool) (obj : VoiceModel) (tbl : t) : Try nat * t :=
  match creatingHook obj with
  | Throw m => (Throw m, tbl)
  | Ok stored =>
      if accepts
      then (Ok (nextId tbl),
            {| rows := rows tbl ++ [
                 {| id := Some (nextId tbl);
                    modelId := modelId stored; name := name stored;
                    samples := samples stored; sampleBlobs := sampleBlobs stored;
                    createdAt := createdAt stored; isActive := isActive stored;
                    isElevenLabsModel := isElevenLabsModel stored;
                    quality := quality stored |} ];
               nextId := S (nextId tbl) |})
      else (Throw (JS.lit "QuotaExceededError"), tbl)
  end.

(** [db.voiceModels.where('modelId').equals(key).first()] *)
Definition firstByModelId (key : jsstring) (tbl : t) : option VoiceModel :=
  List.find (fun m => JS.eqb (modelId m) key) (rows tbl).

End VoiceTable.

(** ** The remote service ([elevenlabs-client.ts], class [ElevenLabsClient]) *)

Module ElevenLabs.

Definition baseUrl : jsstring := JS.lit "https://api.elevenlabs.io/v1".

(** What [fetch] and reading the body do for the clone request. *)
Inductive CloneFetch :=
| CloneRejected (reason : jsstring)     (* [fetch] or [response.json()] rejects *)
| CloneResponse (ok : bool) (statusText : jsstring) (voice_id : option jsstring).

(** What [fetch] and [response.arrayBuffer()] do for the synthesis request. *)
Inductive SpeechFetch :=
| SpeechRejected (reason : jsstring)
| SpeechResponse (ok : bool) (statusText : jsstring) (body : list Z).

(** [cloneVoice(name, audioFiles)]: the result, and the URLs requested. *)
Definition cloneVoice (apiKey : jsstring) (net : CloneFetch)
    : Try (option jsstring) * list jsstring :=
  if negb (JS.truthy apiKey)
  then (Throw (JS.lit "ElevenLabs API key not configured"), [])
  else
    let requests := [baseUrl ++ JS.lit "/voices/add"] in
    match net with
    | CloneRejected reason => (Throw reason, requests)
    | CloneResponse ok statusText voice_id =>
        if negb ok
        then (Throw (JS.lit "Voice cloning failed: " ++ statusText), requests)
        else (Ok voice_id, requests)
    end.

(** [generateSpeech(text, voiceId)]: the result, and the URLs requested. *)
Definition generateSpeech (apiKey : jsstring) (net : SpeechFetch)
    (voiceId : jsstring) : Try (list Z) * list jsstring :=
  if negb (JS.truthy apiKey)
  then (Throw (JS.lit "ElevenLabs API key not configured"), [])
  else
    let requests := [baseUrl ++ JS.lit "/text-to-speech/" ++ voiceId] in
    match net with
    | SpeechRejected reason => (Throw reason, requests)
    | SpeechResponse ok statusText body =>
        if negb ok
        then (Throw (JS.lit "Speech generation failed: " ++ statusText), requests)
        else (Ok body, requests)
    end.

End ElevenLabs.

(** ** Voice cloning and synthesis ([useVoice.ts]) *)

(** [config.voice] of [config.ts]. *)
Record VoiceConfig := {
  maxFileSize : Z;
  requiredSamples : nat
}.

Definition defaultVoiceConfig : VoiceConfig :=
  {| maxFileSize := 10 * 1024 * 1024; requiredSamples := 3 |}.

(** What the environment contributes to one [cloneVoice] or [generateSpeech]
    call. *)
Record VoiceEnv := {
  voiceConfig : VoiceConfig;
  apiKey : jsstring;                    (* the client's API key *)
  cloneFetch : ElevenLabs.CloneFetch;
  speechFetch : ElevenLabs.SpeechFetch;
  now : Z;                              (* [Date.now()] *)
  randomSuffix : jsstring;              (* [Math.random().toString(36).substr(2, 9)] *)
  storageAccepts : bool                 (* the browser's storage takes a write *)
}.

(** The sample-quality loop of [cloneVoice]: the first violation, from
    sample [i] on. *)
Fixpoint validateSamples (cfg : VoiceConfig) (i : nat) (samples : list Blob)
    : Try unit :=
  match samples with
  | [] => Ok tt
  | s :: rest =>
      let nth := numberToString (Z.of_nat i + 1) in
      if (size s =? 0)%Z
      then Throw (JS.lit "Voice sample " ++ nth ++ JS.lit " is empty or corrupted")
      else if (size s <? 1000)%Z
      then Throw (JS.lit "Voice sample " ++ nth
                  ++ JS.lit " is too short for quality cloning")
      else if (maxFileSize cfg <? size s)%Z
      then Throw (JS.lit "Voice sample " ++ nth ++ JS.lit " is too large (max "
                  ++ numberToString ((2 * maxFileSize cfg + 1048576) / 2097152)
                  ++ JS.lit "MB)")
      else validateSamples cfg (S i) rest
  end.

(** [`sample_${index}.wav`] for each sample. *)
Definition sampleFileNames (samples : list Blob) : list jsstring :=
  imap (fun index _ =>
          JS.lit "sample_" ++ numberToString (Z.of_nat index) ++ JS.lit ".wav")
    samples.

(** [`local_${Date.now()}_${Math.random().toString(36).substr(2, 9)}`] *)
Definition localModelId (env : VoiceEnv) : jsstring :=
  JS.lit "local_" ++ numberToString (now env) ++ JS.lit "_" ++ randomSuffix env.

Record CloneResult := {
  returned : Try jsstring;          (* the promise: a model id, or a rejection *)
  table : VoiceTable.t;             (* the table afterwards *)
  requested : list jsstring         (* the URLs requested *)
}.

Definition cloningError (message : jsstring) : jsstring :=
  JS.lit "Voice Cloning Error: " ++ message.

(** [cloneVoice(name, samples)] of [useVoice]. *)
Definition cloneVoice (env : VoiceEnv) (tbl : VoiceTable.t)
    (name : jsstring) (samples : list Blob) : CloneResult :=
  let failed message requests :=
    {| returned := Throw message; table := tbl; requested := requests |} in
  if negb (JS.truthy name) || (length (JS.trim name) =? 0)%nat
  then failed (JS.lit "Voice name is required for cloning") []
  else if (length samples =? 0)%nat
  then failed (JS.lit "Voice samples are required for cloning") []
  else if (length samples <? requiredSamples (voiceConfig env))%nat
  then failed (JS.lit "At least "
               ++ numberToString (Z.of_nat (requiredSamples (voiceConfig env)))
               ++ JS.lit " voice samples are required for quality cloning") []
  else
    match validateSamples (voiceConfig env) 0 samples with
    | Throw message => failed (cloningError message) []
    | Ok _ =>
        let audioFiles := sampleFileNames samples in
        let '(remote, requests) := ElevenLabs.cloneVoice (apiKey env) (cloneFetch env) in
        let '(modelId, isElevenLabsModel) :=
          match remote with
          | Ok voice_id => (voice_id, true)
          | Throw _ => (Some (localModelId env), false)
          end in
        match modelId with
        | None =>
            (* an undefined [voice_id] fails [validateVoiceModel] in the hook *)
            failed (cloningError (JS.lit "Failed to save voice model. Please try again."))
              requests
        | Some modelId =>
            let record :=
              {| id := None; modelId := modelId; name := JS.trim name;
                 samples := audioFiles; sampleBlobs := Some samples;
                 createdAt := now env; isActive := true;
                 isElevenLabsModel := isElevenLabsModel;
                 quality := if isElevenLabsModel then high else medium |} in
            match VoiceTable.add (storageAccepts env) record tbl with
            | (Ok _, tbl') =>
                {| returned := Ok modelId; table := tbl'; requested := requests |}
            | (Throw _, _) =>
                failed (cloningError (JS.lit "Failed to save voice model. Please try again."))
                  requests
            end
        end
    end.

Record SpeechResult := {
  audio : Try (list Z);              (* the promise: the audio bytes, or a rejection *)
  speechRequested : list jsstring    (* the URLs requested *)
}.

Definition speechError (message : jsstring) : jsstring :=
  JS.lit "Speech Generation Error: " ++ message.

Definition LOCAL_SYNTHESIS_UNSUPPORTED : jsstring := JS.lit
  "Local voice synthesis is not yet available. Please use ElevenLabs voice models for speech generation.".

(** [voiceId || currentVoiceModel?.modelId] *)
Definition targetVoiceId (currentVoiceModel : option VoiceModel)
    (voiceId : option jsstring) : option jsstring :=
  match voiceId with
  | Some v => if JS.truthy v then Some v else option_map modelId currentVoiceModel
  | None => option_map modelId currentVoiceModel
  end.

(** The text checks of [generateSpeech]. *)
Definition speechTextError (text : jsstring) : option jsstring :=
  if negb (JS.truthy text) || (length (JS.trim text) =? 0)%nat
  then Some (JS.lit "Text is required for speech generation")
  else if (5000 <? Z.of_nat (length text))%Z
  then Some (JS.lit "Text is too long for speech generation (max 5000 characters)")
  else None.

(** [generateSpeech(text, voiceId)] of [useVoice]; [currentVoiceModel] is the
    store's selected model, if any. *)
Definition generateSpeech (env : VoiceEnv) (tbl : VoiceTable.t)
    (currentVoiceModel : option VoiceModel)
    (text : jsstring) (voiceId : option jsstring) : SpeechResult :=
  let failed message requests :=
    {| audio := Throw message; speechRequested := requests |} in
  match speechTextError text with
  | Some message => failed message []
  | None =>
    match targetVoiceId currentVoiceModel voiceId with
    | None => failed (speechError (JS.lit "No voice model available for speech generation")) []
    | Some target =>
        if negb (JS.truthy target)
        then failed (speechError (JS.lit "No voice model available for speech generation")) []
        else
          match VoiceTable.firstByModelId target tbl with
          | None => failed (speechError (JS.lit "Voice model not found in database")) []
          | Some voiceModel =>
              if negb (isActive voiceModel)
              then failed (speechError (JS.lit "Voice model is not active")) []
              else if isElevenLabsModel voiceModel
              then
                let '(remote, requests) :=
                  ElevenLabs.generateSpeech (apiKey env) (speechFetch env) target in
                match remote with
                | Ok audioBuffer =>
                    if (length audioBuffer =? 0)%nat
                    then failed (speechError
                                   (JS.lit "Voice synthesis service is temporarily unavailable"))
                           requests
                    else {| audio := Ok audioBuffer; speechRequested := requests |}
                | Throw _ =>
                    failed (speechError
                              (JS.lit "Voice synthesis service is temporarily unavailable"))
                      requests
                end
              else failed (speechError LOCAL_SYNTHESIS_UNSUPPORTED) []
          end
    end
  end.

(** ** Text encoding ([TextEncoder], [TextDecoder])

    The browser's UTF-8 encoder and decoder, as the Encoding Standard defines
    them. The masks and shifts of the standard are written as arithmetic:
    for a lead byte [b] of a two-byte sequence [b & 0x1F] is [b - 0xC0], for
    a continuation byte [b & 0x3F] is [b - 0x80], and [(p << 6) | x] is
    [64 * p + x] for [x] below 64. A byte is a [Z] in [0, 256). *)

Module Encoding.

Definition isHighSurrogate (c : Z) : bool := ((55296 <=? c) && (c <=? 56319))%Z.
Definition isLowSurrogate (c : Z) : bool := ((56320 <=? c) && (c <=? 57343))%Z.

Definition REPLACEMENT : Z := 65533.   (* U+FFFD *)
Definition BOM : Z := 65279.           (* U+FEFF *)

(** The code points of a string, an unpaired surrogate read as U+FFFD. *)
Fixpoint toScalarValues (s : jsstring) : list Z :=
  match s with
  | [] => []
  | c :: t =>
      if isHighSurrogate c
      then match t with
           | d :: t' =>
               if isLowSurrogate d
               then (65536 + (c - 55296) * 1024 + (d - 56320))%Z :: toScalarValues t'
               else REPLACEMENT :: toScalarValues t
           | [] => [REPLACEMENT]
           end
      else if isLowSurrogate c then REPLACEMENT :: toScalarValues t
      else c :: toScalarValues t
  end.

(** The code units of one code point. *)
Definition fromScalarValue (c : Z) : jsstring :=
  if (c <? 65536)%Z then [c]
  else [(55296 + (c - 65536) / 1024)%Z; (56320 + (c - 65536) mod 1024)%Z].

(** The UTF-8 encoder's bytes for one code point. *)
Definition utf8EncodeScalar (c : Z) : list Z :=
  if (c <=? 127)%Z then [c]
  else if (c <=? 2047)%Z then [(192 + c / 64)%Z; (128 + c mod 64)%Z]
  else if (c <=? 65535)%Z
  then [(224 + c / 4096)%Z; (128 + (c / 64) mod 64)%Z; (128 + c mod 64)%Z]
  else [(240 + c / 262144)%Z; (128 + (c / 4096) mod 64)%Z;
        (128 + (c / 64) mod 64)%Z; (128 + c mod 64)%Z].

(** [new TextEncoder().encode(s)] *)
Definition TextEncoder_encode (s : jsstring) : list Z :=
  flat_map utf8EncodeScalar (toScalarValues s).

(** The UTF-8 decoder's state. *)
Record Utf8State := {
  codePoint : Z;
  bytesSeen : Z;
  bytesNeeded : Z;
  lowerBoundary : Z;
  upperBoundary : Z
}.

Definition utf8Initial : Utf8State :=
  {| codePoint := 0; bytesSeen := 0; bytesNeeded := 0;
     lowerBoundary := 128; upperBoundary := 191 |}.

(** The decoder's handler when no byte is pending: the next state and the
    code points emitted. *)
Definition utf8Lead (b : Z) : Utf8State * list Z :=
  if ((0 <=? b) && (b <=? 127))%Z then (utf8Initial, [b])
  else if ((194 <=? b) && (b <=? 223))%Z
  then ({| codePoint := b - 192; bytesSeen := 0; bytesNeeded := 1;
           lowerBoundary := 128; upperBoundary := 191 |}, [])
  else if ((224 <=? b) && (b <=? 239))%Z
  then ({| codePoint := b - 224; bytesSeen := 0; bytesNeeded := 2;
           lowerBoundary := if (b =? 224)%Z then 160 else 128;
           upperBoundary := if (b =? 237)%Z then 159 else 191 |}, [])
  else if ((240 <=? b) && (b <=? 244))%Z
  then ({| codePoint := b - 240; bytesSeen := 0; bytesNeeded := 3;
           lowerBoundary := if (b =? 240)%Z then 144 else 128;
           upperBoundary := if (b =? 244)%Z then 143 else 191 |}, [])
  else (utf8Initial, [REPLACEMENT]).

(** The decoder's handler for one byte. A byte outside the boundaries ends
    the pending sequence with an error and is read again as a lead byte. *)
Definition utf8Handler (st : Utf8State) (b : Z) : Utf8State * list Z :=
  if (bytesNeeded st =? 0)%Z then utf8Lead b
  else if negb ((lowerBoundary st <=? b) && (b <=? upperBoundary st))%Z
  then let '(st', out) := utf8Lead b in (st', REPLACEMENT :: out)
  else
    let cp := (64 * codePoint st + (b - 128))%Z in
    if (bytesSeen st + 1 =? bytesNeeded st)%Z
    then (utf8Initial, [cp])
    else ({| codePoint := cp; bytesSeen := bytesSeen st + 1;
             bytesNeeded := bytesNeeded st;
             lowerBoundary := 128; upperBoundary := 191 |}, []).

(** The decoder run to the end of the input, where a pending sequence is an
    error. *)
Fixpoint utf8Decode (st : Utf8State) (bytes : list Z) : list Z :=
  match bytes with
  | [] => if (bytesNeeded st =? 0)%Z then [] else [REPLACEMENT]
  | b :: rest =>
      let '(st', out) := utf8Handler st b in
      out ++ utf8Decode st' rest
  end.

(** [new TextDecoder().decode(bytes)]: [ignoreBOM] is false by default, so a
    leading U+FEFF of the output is dropped. *)
Definition TextDecoder_decode (bytes : list Z) : jsstring :=
  let cps := utf8Decode utf8Initial bytes in
  let cps := match cps with
             | c :: rest => if (c =? BOM)%Z then rest else cps
             | [] => []
             end in
  flat_map fromScalarValue cps.

(** [String.prototype.isWellFormed]: code units in range, every surrogate
    paired. *)
Fixpoint isWellFormed (s : jsstring) : bool :=
  match s with
  | [] => true
  | c :: t =>
      if isHighSurrogate c
      then match t with
           | d :: t' => isLowSurrogate d && isWellFormed t'
           | [] => false
           end
      else negb (isLowSurrogate c) && (0 <=? c)%Z && (c <? 65536)%Z
           && isWellFormed t
  end.

End Encoding.

(** ** At-rest encryption ([encryption.ts], class [CapsuleEncryption]) *)

(** What the browser provides: AES-GCM and PBKDF2 of Web Crypto, base64
    ([btoa], [atob]) and JSON. A [CryptoKey] is its raw bytes. *)
Record EncryptedBlob := {
  encryptedData : jsstring;
  salt : jsstring;
  iv : jsstring
}.

(** What [JSON.parse] makes of a text: a [SyntaxError], a value with no
    properties to read ([null]: reading one throws a [TypeError]), or an
    object whose three properties are strings or undefined. *)
Inductive Parsed :=
| SyntaxError
| NoProperties
| Properties (encryptedData salt iv : option jsstring).

Record Platform := {
  aesGcmEncrypt : list Z -> list Z -> list Z -> list Z;           (* key, iv, data *)
  aesGcmDecrypt : list Z -> list Z -> list Z -> option (list Z);  (* key, iv, data *)
  pbkdf2 : jsstring -> list Z -> list Z;                          (* password, salt *)
  btoa : list Z -> jsstring;
  atob : jsstring -> option (list Z);
  JSON_stringify : EncryptedBlob -> jsstring;
  JSON_parse : jsstring -> Parsed
}.

(** The contracts of these services that the proofs rely on. *)
Record PlatformLaws (P : Platform) : Prop := {
  (* decryption under the key and iv of the encryption gives the data back *)
  gcm_correct : forall key iv data,
    aesGcmDecrypt P key iv (aesGcmEncrypt P key iv data) = Some data;
  (* base64 decoding undoes base64 encoding *)
  atob_btoa : forall bytes, atob P (btoa P bytes) = Some bytes;
  (* the base64 text of a non-empty buffer is not empty *)
  btoa_truthy : forall bytes, bytes <> [] -> btoa P bytes <> [];
  (* parsing undoes serialisation *)
  parse_stringify : forall b,
    JSON_parse P (JSON_stringify P b)
    = Properties (Some (encryptedData b)) (Some (salt b)) (Some (iv b));
  (* a serialised object is not blank *)
  stringify_not_blank : forall b, JS.truthy (JS.trim (JSON_stringify P b)) = true
}.

(** The idealised authenticity of AES-GCM: a ciphertext is rejected under
    any key but the one it was produced with. *)
Definition Authentic (P : Platform) : Prop :=
  forall key key' iv data,
    key <> key' -> aesGcmDecrypt P key' iv (aesGcmEncrypt P key iv data) = None.

(** The mutable surroundings of the encryption code: [localStorage], whether
    it still takes writes, and the random source with the number of bytes
    drawn so far. *)
Record World := {
  localStorage : gmap jsstring jsstring;
  quotaExceeded : bool;
  entropy : nat -> Z;
  drawn : nat
}.

(** Effectful code: a result or a thrown error, and the world afterwards. *)
Definition M (A : Type) : Type := World -> Try A * World.

Definition ret {A} (a : A) : M A := fun w => (Ok a, w).
Definition throw {A} (message : jsstring) : M A := fun w => (Throw message, w).
Definition bind {A B} (m : M A) (k : A -> M B) : M B :=
  fun w => match m w with
           | (Ok a, w') => k a w'
           | (Throw e, w') => (Throw e, w')
           end.

Notation "x <- m ;; k" := (bind m (fun x => k))
  (at level 100, m at next level, right associativity).

Definition CAPSULE_KEY : jsstring := JS.lit "capsule_key".

(** [crypto.getRandomValues(new Uint8Array(n))] *)
Definition getRandomValues (n : nat) : M (list Z) :=
  fun w =>
    (Ok (map (fun i => (entropy w (drawn w + i) mod 256)%Z) (seq 0 n)),
     {| localStorage := localStorage w; quotaExceeded := quotaExceeded w;
        entropy := entropy w; drawn := drawn w + n |}).

(** [localStorage.setItem(key, value)] *)
Definition setItem (key value : jsstring) : M unit :=
  fun w =>
    if quotaExceeded w then (Throw (JS.lit "QuotaExceededError"), w)
    else (Ok tt,
          {| localStorage := <[key := value]> (localStorage w);
             quotaExceeded := quotaExceeded w;
             entropy := entropy w; drawn := drawn w |}).

(** [localStorage.getItem(key)] *)
Definition getItem (key : jsstring) : M (option jsstring) :=
  fun w => (Ok (localStorage w !! key), w).

Section CapsuleEncryption.

Variable P : Platform.

(** [generateKey]: a fresh 256-bit AES-GCM key. *)
Definition generateKey : M (list Z) := getRandomValues 32.

(** The key the next passwordless [encrypt] generates in world [w]: the 32
    bytes drawn after the 16 of the salt and the 12 of the iv. *)
Definition nextKey (w : World) : list Z :=
  map (fun i => (entropy w (drawn w + 16 + 12 + i) mod 256)%Z) (seq 0 32).

(** The salt and the iv it draws before. *)
Definition nextSalt (w : World) : list Z :=
  map (fun i => (entropy w (drawn w + i) mod 256)%Z) (seq 0 16).

Definition nextIv (w : World) : list Z :=
  map (fun i => (entropy w (drawn w + 16 + i) mod 256)%Z) (seq 0 12).

(** [deriveKey] *)
Definition deriveKey (password : jsstring) (salt : list Z) : M (list Z) :=
  ret (pbkdf2 P password salt).

(** [arrayBufferToBase64] *)
Definition arrayBufferToBase64 (buffer : list Z) : jsstring := btoa P buffer.

(** [base64ToArrayBuffer] *)
Definition base64ToArrayBuffer (base64 : jsstring) : M (list Z) :=
  match atob P base64 with
  | Some bytes => ret bytes
  | None => throw (JS.lit "InvalidCharacterError")
  end.

(** [storeKey] *)
Definition storeKey (key : list Z) : M unit :=
  setItem CAPSULE_KEY (arrayBufferToBase64 key).

(** [crypto.subtle.importKey('raw', keyBuffer, 'AES-GCM', ...)]: an AES key
    has 128, 192 or 256 bits. *)
Definition importKey (keyBuffer : list Z) : M (list Z) :=
  if bool_decide (length keyBuffer ∈ [16; 24; 32]%nat) then ret keyBuffer
  else throw (JS.lit "DataError").

(** [retrieveKey] *)
Definition retrieveKey : M (list Z) :=
  keyData <- getItem CAPSULE_KEY ;;
  match keyData with
  | Some keyData =>
      if negb (JS.truthy keyData) then throw (JS.lit "No encryption key found")
      else keyBuffer <- base64ToArrayBuffer keyData ;; importKey keyBuffer
  | None => throw (JS.lit "No encryption key found")
  end.

(** A password that is given and not empty. *)
Definition given (password : option jsstring) : option jsstring :=
  match password with
  | Some p => if JS.truthy p then Some p else None
  | None => None
  end.

(** [CapsuleEncryption.encrypt(content, password?)] *)
Definition encrypt (content : jsstring) (password : option jsstring)
    : M EncryptedBlob :=
  let data := Encoding.TextEncoder_encode content in
  salt <- getRandomValues 16 ;;
  iv <- getRandomValues 12 ;;
  key <- match given password with
         | Some p => deriveKey p salt
         | None => key <- generateKey ;; _ <- storeKey key ;; ret key
         end ;;
  let encryptedData := aesGcmEncrypt P key iv data in
  ret {| encryptedData := arrayBufferToBase64 encryptedData;
         salt := arrayBufferToBase64 salt;
         iv := arrayBufferToBase64 iv |}.

(** [CapsuleEncryption.decrypt(encryptedData, salt, iv, password?)] *)
Definition decrypt (encryptedData salt iv : jsstring)
    (password : option jsstring) : M jsstring :=
  encryptedBuffer <- base64ToArrayBuffer encryptedData ;;
  saltBuffer <- base64ToArrayBuffer salt ;;
  ivBuffer <- base64ToArrayBuffer iv ;;
  key <- match given password with
         | Some p => deriveKey p saltBuffer
         | None => retrieveKey
         end ;;
  match aesGcmDecrypt P key ivBuffer encryptedBuffer with
  | Some decryptedData => ret (Encoding.TextDecoder_decode decryptedData)
  | None => throw (JS.lit "OperationError")
  end.

(** The world after a passwordless [encrypt] that succeeded in [w]: the key
    slot holds the fresh key and 60 more random bytes have been drawn. *)
Definition afterEncrypt (w : World) : World :=
  {| localStorage := <[CAPSULE_KEY := btoa P (nextKey w)]> (localStorage w);
     quotaExceeded := quotaExceeded w;
     entropy := entropy w;
     drawn := drawn w + 16 + 12 + 32 |}.

(** The blob a passwordless [encrypt] of [content] returns in world [w]. *)
Definition blobOf (content : jsstring) (w : World) : EncryptedBlob :=
  {| encryptedData :=
       btoa P (aesGcmEncrypt P (nextKey w) (nextIv w)
                 (Encoding.TextEncoder_encode content));
     salt := btoa P (nextSalt w);
     iv := btoa P (nextIv w) |}.

End CapsuleEncryption.

(** ** Time capsules ([database.ts], class [LivingHeirloomDB]) *)

Module Capsule.

Inductive CapsuleType := legacy | family | future_self.
Inductive CapsuleStatus := draft | scheduled | delivered | locked.
Inductive GenerationMethod := ai | template | manual.

Record Metadata := {
  tone : jsstring;
  emotionalState : jsstring;
  interviewResponses : list (jsstring * jsstring);
  aiConfidence : option Q;
  generationMethod : GenerationMethod;
  voiceCloned : bool
}.

(** [interface TimeCapsule] (without the audio attachments). *)
Record TimeCapsule := {
  title : jsstring;
  recipient : jsstring;
  type : CapsuleType;
  status : CapsuleStatus;
  content : jsstring;
  encryptedContent : option jsstring;
  voiceModelId : option jsstring;
  createdAt : Z;
  deliveryDate : option Z;
  isEncrypted : bool;
  wordCount : Z;
  isAIGenerated : bool;
  metadata : Metadata
}.

Definition setContent (content : jsstring) (encryptedContent : option jsstring)
    (c : TimeCapsule) : TimeCapsule :=
  {| title := title c; recipient := recipient c; type := type c;
     status := status c; content := content;
     encryptedContent := encryptedContent;
     voiceModelId := voiceModelId c; createdAt := createdAt c;
     deliveryDate := deliveryDate c; isEncrypted := isEncrypted c;
     wordCount := wordCount c; isAIGenerated := isAIGenerated c;
     metadata := metadata c |}.

(** The replacement of [sanitizeText] for one character. *)
Definition htmlEntity (c : Z) : jsstring :=
  if (c =? 38)%Z then JS.lit "&amp;"
  else if (c =? 60)%Z then JS.lit "&lt;"
  else if (c =? 62)%Z then JS.lit "&gt;"
  else if (c =? 34)%Z then JS.lit "&quot;"
  else if (c =? 39)%Z then JS.lit "&#x27;"
  else if (c =? 47)%Z then JS.lit "&#x2F;"
  else [c].

(** [sanitizeText]. Once every run of white space is a single space no line
    feed is left, so the replacement of [/\n\s*\n\s*\n/g] changes nothing. *)
Definition sanitizeText (input : jsstring) : jsstring :=
  if negb (JS.truthy input) then []
  else JS.trim (collapseWhiteSpace (flat_map htmlEntity input)).

(** [deepSanitize] on the metadata of a capsule. *)
Definition deepSanitize (m : Metadata) : Metadata :=
  {| tone := sanitizeText (tone m);
     emotionalState := sanitizeText (emotionalState m);
     interviewResponses :=
       map (fun '(k, v) => (k, sanitizeText v)) (interviewResponses m);
     aiConfidence := aiConfidence m;
     generationMethod := generationMethod m;
     voiceCloned := voiceCloned m |}.

(** [sanitizeTimeCapsule(obj)] followed by [Object.assign(obj, sanitized)]. *)
Definition sanitizeTimeCapsule (c : TimeCapsule) : TimeCapsule :=
  {| title := sanitizeName (title c);
     recipient := sanitizeName (recipient c);
     type := type c; status := status c;
     content := sanitizeText (content c);
     encryptedContent := encryptedContent c;
     voiceModelId := voiceModelId c; createdAt := createdAt c;
     deliveryDate := deliveryDate c; isEncrypted := isEncrypted c;
     wordCount := wordCount c; isAIGenerated := isAIGenerated c;
     metadata := deepSanitize (metadata c) |}.

(** [TimeCapsuleSchema.safeParse(data).success] *)
Definition validateTimeCapsule (c : TimeCapsule) : bool :=
  (1 <=? length (title c))%nat && (length (title c) <=? 200)%nat
  && (1 <=? length (recipient c))%nat && (length (recipient c) <=? 100)%nat
  && (1 <=? length (content c))%nat && (Z.of_nat (length (content c)) <=? 50000)%Z
  && (0 <=? wordCount c)%Z
  && (1 <=? length (tone (metadata c)))%nat
  && (1 <=? length (emotionalState (metadata c)))%nat
  && match aiConfidence (metadata c) with
     | Some q => Qle_bool 0 q && Qle_bool q 1
     | None => true
     end.

Definition ENCRYPTED_MARKER : jsstring := JS.lit "[ENCRYPTED]".
Definition SENTINEL_NO_DATA : jsstring := JS.lit "[CONTENT ENCRYPTED - NO DATA]".
Definition SENTINEL_CORRUPTED : jsstring := JS.lit "[CONTENT ENCRYPTED - CORRUPTED DATA]".
Definition SENTINEL_UNABLE : jsstring := JS.lit "[CONTENT ENCRYPTED - UNABLE TO DECRYPT]".

(** A [try] whose [catch] returns [fallback]. *)
Definition catching {A} (m : M A) (fallback : A) : M A :=
  fun w => match m w with
           | (Ok a, w') => (Ok a, w')
           | (Throw _, w') => (Ok fallback, w')
           end.

(** What a hook hands back to Dexie when it returns: [undefined], or the
    promise of an [encryptCapsuleContent] call, given by what awaiting it
    yields: the capsule object of that call once the promise has settled. *)
Inductive Returned :=
| Undefined
| Promise (settled : M TimeCapsule).

Section Hooks.

Variable P : Platform.

(** [encryptCapsuleContent(capsule)]: the capsule object once the promise
    has settled. The promise never rejects. *)
Definition encryptCapsuleContent (capsule : TimeCapsule) : M TimeCapsule :=
  if negb (JS.truthy (content capsule))
     || (length (JS.trim (content capsule)) =? 0)%nat
  then ret capsule
  else
    catching
      (encrypted <- encrypt P (content capsule) None ;;
       ret (setContent ENCRYPTED_MARKER (Some (JSON_stringify P encrypted)) capsule))
      capsule.

Definition falsy (s : option jsstring) : bool :=
  match s with Some s => negb (JS.truthy s) | None => true end.

(** The ['creating'] hook of [timeCapsules]. The hook is a synchronous
    function: it throws, or it returns with the object sanitized in place
    (the first component) and a value for Dexie (the second). With
    encryption requested that value is the promise of
    [encryptCapsuleContent(obj)], which has not changed the object yet. *)
Definition creatingHook (obj : TimeCapsule) : Try (TimeCapsule * Returned) :=
  let obj := sanitizeTimeCapsule obj in
  if negb (validateTimeCapsule obj) then Throw (JS.lit "Invalid capsule data")
  else if isEncrypted obj && JS.truthy (content obj) && falsy (encryptedContent obj)
  then Ok (obj, Promise (encryptCapsuleContent obj))
  else Ok (obj, Undefined).

(** The ['updating'] hook of [timeCapsules], for modifications that hold a
    [content] or nothing. It is synchronous as well: the first component is
    the [modifications] object as the hook leaves it, sanitized in place,
    the second the value returned to Dexie: for a content and an encrypted
    [obj], the promise of [encryptCapsuleContent] on the temporary object
    [{ ...obj, ...modifications }]. *)
Definition updatingHook (modifications : option jsstring) (obj : TimeCapsule)
    : option jsstring * Returned :=
  let modifications := sanitizeText <$> modifications in
  match modifications with
  | Some content' =>
      if JS.truthy content' && isEncrypted obj
      then (modifications,
            Promise (encryptCapsuleContent
                       (setContent content' (encryptedContent obj) obj)))
      else (modifications, Undefined)
  | None => (modifications, Undefined)
  end.

(** [getCapsuleContent(capsule)]; [None] is a call without a capsule
    ([null] or [undefined]). *)
Definition getCapsuleContent (capsule : option TimeCapsule) : M jsstring :=
  match capsule with
  | None => throw (JS.lit "No capsule provided")
  | Some capsule =>
      if negb (isEncrypted capsule) || falsy (encryptedContent capsule)
      then ret (content capsule)
      else
        let text := default [] (encryptedContent capsule) in
        if negb (JS.truthy (JS.trim text)) then ret SENTINEL_NO_DATA
        else
          match JSON_parse P text with
          | SyntaxError => ret SENTINEL_CORRUPTED
          | NoProperties => ret SENTINEL_UNABLE
          | Properties e s i =>
              match e, s, i with
              | Some e, Some s, Some i =>
                  if negb (JS.truthy e) || negb (JS.truthy s) || negb (JS.truthy i)
                  then ret SENTINEL_UNABLE
                  else catching (decrypt P e s i None) SENTINEL_UNABLE
              | _, _, _ => ret SENTINEL_UNABLE
              end
          end
  end.

End Hooks.

End Capsule.

(** ** The capsule table ([db.timeCapsules] of [LivingHeirloomDB])

    The table is declared ['++id, ...']: its primary key is auto-incremented
    and kept in the object. What Dexie does with the two hooks:

    - [add(obj)], for an object without [id], runs the ['creating'] hook
      synchronously. When the hook throws, the request fails. A value other
      than [undefined] that the hook returns is taken as the primary key:
      the promise the hook returns with encryption requested is no key and
      cannot be cloned into the store, so the request fails and nothing is
      stored. Otherwise the object is stored as the hook left it on return.
      Dexie does not await the promise, which settles on its own.
    - [update(key, { content })] runs the ['updating'] hook synchronously
      with the difference between the stored object and the object with the
      change applied. What the hook changes in the [modifications] object
      it is given is not applied; the own properties of the object it
      returns are, and a promise has none. *)

Module CapsuleTable.

Import Capsule.

(** The rows by primary key, and the next auto-incremented key. *)
Record t := {
  rows : gmap nat TimeCapsule;
  nextId : nat
}.

Definition empty : t := {| rows := ∅; nextId := 1 |}.

Section Table.

Variable P : Platform.

(** [db.timeCapsules.add(obj)]: the result of the request, the table
    afterwards and the promise the hook left behind, if any; [accepts] tells
    whether the browser's storage takes the write. *)
Definition add (accepts : bool) (obj : TimeCapsule) (tbl : t)
    : Try nat * t * Returned :=
  match creatingHook P obj with
  | Throw message => (Throw message, tbl, Undefined)
  | Ok (stored, Promise settled) =>
      (Throw (JS.lit "DataCloneError"), tbl, Promise settled)
  | Ok (stored, Undefined) =>
      if accepts
      then (Ok (nextId tbl),
            {| rows := <[nextId tbl := stored]> (rows tbl);
               nextId := S (nextId tbl) |},
            Undefined)
      else (Throw (JS.lit "QuotaExceededError"), tbl, Undefined)
  end.

(** [db.timeCapsules.update(key, { content })]: the number of rows updated,
    the table afterwards and the promise the hook left behind, if any.
    Without a row under [key], or with the content that is stored already,
    there is nothing to change. *)
Definition update (accepts : bool) (key : nat) (content' : jsstring) (tbl : t)
    : Try nat * t * Returned :=
  match rows tbl !! key with
  | None => (Ok 0%nat, tbl, Undefined)
  | Some obj =>
      if bool_decide (content obj = content') then (Ok 0%nat, tbl, Undefined)
      else
        let returned := snd (updatingHook P (Some content') obj) in
        if accepts
        then (Ok 1%nat,
              {| rows := <[key := setContent content' (encryptedContent obj) obj]>
                           (rows tbl);
                 nextId := nextId tbl |},
              returned)
        else (Throw (JS.lit "QuotaExceededError"), tbl, returned)
  end.

(** [db.timeCapsules.get(key)] *)
Definition get (key : nat) (tbl : t) : option TimeCapsule := rows tbl !! key.

End Table.

End CapsuleTable.

(** ** Names for voices ([sanitization.ts], [schemas.ts]) *)

(** [sanitizeVoiceName] *)
Definition sanitizeVoiceName (input : jsstring) : jsstring :=
  if negb (JS.truthy input) then []
  else
    JS.substring0 50
      (collapseWhiteSpace
         (List.filter
            (fun c => isAlphaNumeric c || JS.isWhiteSpace c
                      || (c =? 39)%Z || (c =? 45)%Z)
            (JS.trim input))).

(** [validateVoiceName(name).success]: [VoiceNameInputSchema], whose checks
    run on the string as given. *)
Definition validateVoiceName (name : jsstring) : bool :=
  (2 <=? length name)%nat && (length name <=? 50)%nat
  && JS.truthy name
  && forallb (fun c => isAlphaNumeric c || JS.isWhiteSpace c
                       || (c =? 39)%Z || (c =? 45)%Z) name.

(** ** Form validation ([validation.ts])

    The rules on strings, blobs and arrays and the validators built from
    them; a string value is never [null] here. *)

Module Validation.

Record ValidationResult := {
  isValid : bool;
  errors : list jsstring
}.

(** [interface ValidationRule<T>]: its [validate] and its [message]. *)
Record ValidationRule (T : Type) := {
  rule_validate : T -> bool;
  rule_message : jsstring
}.
Arguments rule_validate {T} _ _.
Arguments rule_message {T} _.

(** [validate(value, rules)] *)
Definition validate {T : Type} (value : T) (rules : list (ValidationRule T))
    : ValidationResult :=
  let errors :=
    map rule_message
      (List.filter (fun rule => negb (rule_validate rule value)) rules) in
  {| isValid := (length errors =? 0)%nat; errors := errors |}.

(** [ValidationRules.required] *)
Definition required (message : jsstring) : ValidationRule jsstring :=
  {| rule_validate := fun value => (0 <? length (JS.trim value))%nat;
     rule_message := message |}.

(** [ValidationRules.minLength] *)
Definition minLength (min : nat) (message : jsstring) : ValidationRule jsstring :=
  {| rule_validate := fun value => (min <=? length (JS.trim value))%nat;
     rule_message := message |}.

(** [ValidationRules.maxLength] *)
Definition maxLength (max : nat) (message : jsstring) : ValidationRule jsstring :=
  {| rule_validate := fun value => (length (JS.trim value) <=? max)%nat;
     rule_message := message |}.

(** [ValidationRules.validVoiceName] *)
Definition validVoiceName : ValidationRule jsstring :=
  {| rule_validate := fun value =>
       if negb (JS.truthy value) then false
       else
         let trimmed := JS.trim value in
         (2 <=? length trimmed)%nat && (length trimmed <=? 50)%nat
         && (JS.truthy trimmed
             && forallb (fun c => isAlphaNumeric c || JS.isWhiteSpace c
                                  || (c =? 39)%Z || (c =? 45)%Z) trimmed);
     rule_message := JS.lit
       "Voice name must be 2-50 characters and contain only letters, numbers, spaces, hyphens, and apostrophes" |}.

(** [ValidationRules.validAudioBlob] *)
Definition validAudioBlob : ValidationRule (option Blob) :=
  {| rule_validate := fun blob =>
       match blob with
       | None => false
       | Some blob => ((1000 <? size blob) && (size blob <? 10 * 1024 * 1024))%Z
       end;
     rule_message := JS.lit "Audio recording must be between 1KB and 10MB" |}.

(** [ValidationRules.minArrayLength] *)
Definition minArrayLength {T : Type} (min : nat) (message : jsstring)
    : ValidationRule (list T) :=
  {| rule_validate := fun array => (min <=? length array)%nat;
     rule_message := message |}.

(** [Validators.voiceName] *)
Definition voiceName (name : jsstring) : ValidationResult :=
  validate name [ required (JS.lit "Voice name is required"); validVoiceName ].

(** The loop of [Validators.voiceSamples], from sample [i] on. *)
Fixpoint voiceSamplesFrom (i : nat) (samples : list Blob) : ValidationResult :=
  match samples with
  | [] => {| isValid := true; errors := [] |}
  | sample :: rest =>
      let sampleResult := validate (Some sample) [validAudioBlob] in
      if negb (isValid sampleResult)
      then {| isValid := false;
              errors := [ JS.lit "Sample " ++ numberToString (Z.of_nat i + 1)
                          ++ JS.lit ": "
                          ++ match errors sampleResult with
                             | first :: _ => first
                             | [] => JS.lit "undefined"
                             end ] |}
      else voiceSamplesFrom (S i) rest
  end.

(** [Validators.voiceSamples] *)
Definition voiceSamples (samples : list Blob) : ValidationResult :=
  let result :=
    validate samples
      [ minArrayLength 3 (JS.lit "At least 3 voice samples are required") ] in
  if negb (isValid result) then result else voiceSamplesFrom 0 samples.

(** [Validators.heirloomTitle] *)
Definition heirloomTitle (title : jsstring) : ValidationResult :=
  validate title
    [ required (JS.lit "Heirloom title is required");
      minLength 3 (JS.lit "Title must be at least 3 characters");
      maxLength 100 (JS.lit "Title must be no more than 100 characters") ].

(** [Validators.recipientName] *)
Definition recipientName (name : jsstring) : ValidationResult :=
  validate name
    [ required (JS.lit "Recipient name is required");
      minLength 2 (JS.lit "Name must be at least 2 characters");
      maxLength 50 (JS.lit "Name must be no more than 50 characters") ].

(** [getFirstError] *)
Definition getFirstError (result : ValidationResult) : option jsstring :=
  head (errors result).

End Validation.

(** ** Emotion analysis of the hook ([useAI.ts]) *)

Module UseAI.

(** The keyword table of the hook's own [analyzeEmotionFallback], in the
    order [Object.entries] walks it. *)
Definition emotionKeywords : list (jsstring * list jsstring) :=
  [ (JS.lit "joyful",
      map JS.lit ["happy"; "joy"; "excited"; "wonderful"; "amazing"; "love";
                  "great"]%string);
    (JS.lit "nostalgic",
      map JS.lit ["remember"; "used to"; "back then"; "childhood"; "past";
                  "when I was"]%string);
    (JS.lit "grateful",
      map JS.lit ["thankful"; "blessed"; "appreciate"; "grateful"; "lucky";
                  "fortunate"]%string);
    (JS.lit "melancholic",
      map JS.lit ["sad"; "miss"; "lost"; "gone"; "difficult"; "hard"; "wish"]%string);
    (JS.lit "hopeful",
      map JS.lit ["hope"; "future"; "dream"; "wish"; "believe"; "will";
                  "someday"]%string);
    (JS.lit "loving",
      map JS.lit ["love"; "care"; "dear"; "precious"; "cherish"; "adore"]%string);
    (JS.lit "proud",
      map JS.lit ["proud"; "accomplished"; "achieved"; "success"; "overcome"]%string) ].

(** [keywords.reduce((acc, keyword) => acc + (lowerText.includes(keyword) ? 1 : 0), 0)] *)
Definition score (lowerText : jsstring) (keywords : list jsstring) : nat :=
  fold_left
    (fun acc keyword => (acc + (if JS.includes lowerText keyword then 1 else 0))%nat)
    keywords 0%nat.

(** The [for ... of] loop: the running maximum and its emotion. *)
Fixpoint dominant (table : list (jsstring * list jsstring)) (lowerText : jsstring)
    (maxScore : nat) (dominantEmotion : jsstring) : jsstring :=
  match table with
  | [] => dominantEmotion
  | (emotion, keywords) :: rest =>
      if (maxScore <? score lowerText keywords)%nat
      then dominant rest lowerText (score lowerText keywords) emotion
      else dominant rest lowerText maxScore dominantEmotion
  end.

Section Hook.

Variable toLowerCase : jsstring -> jsstring.

(** [analyzeEmotionFallback] of [useAI.ts] *)
Definition analyzeEmotionFallback (text : jsstring) : jsstring :=
  dominant emotionKeywords (toLowerCase text) 0 reflective.

(** [analyzeEmotion] of the hook; [ready] is [isReady && isAIEnabled]. The
    manager's [analyzeEmotionalState] does not reject, so the hook's [catch]
    is not reached. *)
Definition analyzeEmotion (ready : bool) (outcome : EngineOutcome)
    (text : jsstring) : jsstring :=
  if negb ready then analyzeEmotionFallback text
  else analyzeEmotionalState toLowerCase outcome text.

End Hook.

End UseAI.

(** ** Removing a voice model ([database.ts], [deleteVoiceModel]) *)

(** [deleteVoiceModel(modelId)] of [LivingHeirloomDB]; [storage] is what the
    delete transaction does once the model has been found. *)
Definition deleteVoiceModel (storage : Try unit) (key : jsstring)
    (tbl : VoiceTable.t) : Try unit * VoiceTable.t :=
  let failed message :=
    (Throw (JS.lit "Failed to delete voice model: " ++ message), tbl) in
  match VoiceTable.firstByModelId key tbl with
  | None => failed (JS.lit "Voice model not found")
  | Some _ =>
      match storage with
      | Ok _ =>
          (Ok tt,
           {| VoiceTable.rows :=
                List.filter (fun m => negb (JS.eqb (modelId m) key))
                  (VoiceTable.rows tbl);
              VoiceTable.nextId := VoiceTable.nextId tbl |})
      | Throw message => failed message
      end
  end.

(** ** Voice model upkeep ([voice-manager.ts], class [VoiceManager]) *)

(** What [fetch] and [response.json()] do for the voice list; a listed
    voice is its [voice_id], if it has one. *)
Inductive VoicesFetch :=
| VoicesRejected (reason : jsstring)
| VoicesResponse (ok : bool) (statusText : jsstring)
    (voices : option (list (option jsstring))).

(** [ElevenLabsClient.getVoices()] *)
Definition getVoices (apiKey : jsstring) (net : VoicesFetch)
    : Try (option (list (option jsstring))) :=
  if negb (JS.truthy apiKey) then Ok (Some [])
  else
    match net with
    | VoicesRejected reason => Throw reason
    | VoicesResponse ok statusText voices =>
        if negb ok then Throw (JS.lit "Failed to fetch voices: " ++ statusText)
        else Ok voices
    end.

Module VoiceManager.

Record ModelValidation := {
  isValid : bool;
  issues : list jsstring
}.

(** The loop of [validateModel] over [sampleBlobs], from sample [i] on. *)
Fixpoint sampleIssues (i : nat) (blobs : list Blob) : list jsstring :=
  match blobs with
  | [] => []
  | blob :: rest =>
      (if (size blob =? 0)%Z
       then [JS.lit "Sample " ++ numberToString (Z.of_nat i + 1)
             ++ JS.lit " is empty or corrupted"]
       else if (size blob <? 1000)%Z
       then [JS.lit "Sample " ++ numberToString (Z.of_nat i + 1)
             ++ JS.lit " is too short (less than 1KB)"]
       else [])
      ++ sampleIssues (S i) rest
  end.

(** The issues [validateModel] finds in the stored record itself. *)
Definition recordIssues (model : VoiceModel) : list jsstring :=
  (if negb (JS.truthy (name model)) || (length (JS.trim (name model)) =? 0)%nat
   then [JS.lit "Voice model has no name"] else [])
  ++ (if (length (samples model) =? 0)%nat
      then [JS.lit "Voice model has no samples"] else [])
  ++ (if (length (samples model) <? 3)%nat
      then [JS.lit "Voice model has insufficient samples (minimum 3 required)"]
      else [])
  ++ match sampleBlobs model with
     | Some blobs => sampleIssues 0 blobs
     | None => []
     end.

(** The check of an ElevenLabs model against the service: a voice list that
    cannot be fetched or read counts as "unable to verify". *)
Definition serviceIssues (apiKey : jsstring) (net : VoicesFetch) (key : jsstring)
    : list jsstring :=
  match getVoices apiKey net with
  | Ok (Some voices) =>
      if existsb (fun v => match v with
                           | Some voice_id => JS.eqb voice_id key
                           | None => false
                           end) voices
      then []
      else [JS.lit "ElevenLabs voice model no longer exists on the service"]
  | _ => [JS.lit "Unable to verify ElevenLabs voice model (service may be unavailable)"]
  end.

(** [validateModel(modelId)] *)
Definition validateModel (apiKey : jsstring) (net : VoicesFetch) (key : jsstring)
    (tbl : VoiceTable.t) : ModelValidation :=
  match VoiceTable.firstByModelId key tbl with
  | None => {| isValid := false; issues := [JS.lit "Voice model not found"] |}
  | Some model =>
      let issues :=
        recordIssues model
        ++ (if isElevenLabsModel model then serviceIssues apiKey net key else []) in
      {| isValid := (length issues =? 0)%nat; issues := issues |}
  end.

(** The filter of [cleanupModels]. *)
Definition isCritical (issue : jsstring) : bool :=
  JS.includes issue (JS.lit "not found")
  || JS.includes issue (JS.lit "corrupted")
  || JS.includes issue (JS.lit "no longer exists").

Record Cleanup := {
  cleaned : nat;
  cleanupErrors : list jsstring;
  remaining : VoiceTable.t
}.

(** The loop of [cleanupModels] over the models read at its start; [net i]
    and [storage i] are what the service and the delete transaction do in
    round [i]. *)
Fixpoint cleanupFrom (apiKey : jsstring) (net : nat -> VoicesFetch)
    (storage : nat -> Try unit) (i : nat) (models : list VoiceModel)
    (tbl : VoiceTable.t) (cleaned : nat) (errors : list jsstring) : Cleanup :=
  match models with
  | [] => {| cleaned := cleaned; cleanupErrors := errors; remaining := tbl |}
  | model :: rest =>
      let validation := validateModel apiKey (net i) (modelId model) tbl in
      if (0 <? length (List.filter isCritical (issues validation)))%nat
      then
        match deleteVoiceModel (storage i) (modelId model) tbl with
        | (Ok _, tbl') =>
            cleanupFrom apiKey net storage (S i) rest tbl' (S cleaned) errors
        | (Throw message, tbl') =>
            cleanupFrom apiKey net storage (S i) rest tbl' cleaned
              (errors ++ [JS.lit "Failed to clean up model " ++ name model
                          ++ JS.lit ": " ++ message])
        end
      else cleanupFrom apiKey net storage (S i) rest tbl cleaned errors
  end.

(** [cleanupModels()] *)
Definition cleanupModels (apiKey : jsstring) (net : nat -> VoicesFetch)
    (storage : nat -> Try unit) (tbl : VoiceTable.t) : Cleanup :=
  cleanupFrom apiKey net storage 0 (VoiceTable.rows tbl) tbl 0 [].

End VoiceManager.

(** ** Retry accounting ([error-recovery.ts], class [ErrorRecoveryManager]) *)

Module ErrorRecovery.

Definition maxRetries : nat := 3.

(** [shouldAttemptRecovery(errorKey)]: the answer, and [errorCounts]
    afterwards. *)
Definition shouldAttemptRecovery (errorKey : jsstring)
    (errorCounts : gmap jsstring nat) : bool * gmap jsstring nat :=
  let count := default 0%nat (errorCounts !! errorKey) in
  ((count <? maxRetries)%nat, <[errorKey := S count]> errorCounts).

(** [resetErrorCount(errorKey)] *)
Definition resetErrorCount (errorKey : jsstring)
    (errorCounts : gmap jsstring nat) : gmap jsstring nat :=
  delete errorKey errorCounts.

Inductive Call :=
| Attempt (errorKey : jsstring)
| Reset (errorKey : jsstring).

(** One call on the shared map, and a sequence of calls in order. *)
Definition call (errorCounts : gmap jsstring nat) (c : Call) : gmap jsstring nat :=
  match c with
  | Attempt errorKey => snd (shouldAttemptRecovery errorKey errorCounts)
  | Reset errorKey => resetErrorCount errorKey errorCounts
  end.

Definition calls (cs : list Call) (errorCounts : gmap jsstring nat)
    : gmap jsstring nat :=
  fold_left call cs errorCounts.

End ErrorRecovery.

(** ** A reference platform

    Executable stand-ins for the browser's services, used to run the model
    on concrete inputs: a cipher that seals the data behind the key and the
    iv, base64 as the identity, and a serialisation with length prefixes. *)

Module Reference.

Definition sealWith (key iv : list Z) : list Z :=
  Z.of_nat (length key) :: key ++ iv.

Definition sealEncrypt (key iv data : list Z) : list Z :=
  sealWith key iv ++ data.

Definition sealDecrypt (key iv data : list Z) : option (list Z) :=
  let n := length (sealWith key iv) in
  if bool_decide (take n data = sealWith key iv) then Some (drop n data) else None.

Definition stringify (b : EncryptedBlob) : jsstring :=
  123%Z :: Z.of_nat (length (encryptedData b)) :: Z.of_nat (length (salt b))
  :: encryptedData b ++ salt b ++ iv b.

Definition parse (s : jsstring) : Parsed :=
  match s with
  | 123%Z :: a :: b :: rest =>
      Properties (Some (take (Z.to_nat a) rest))
                 (Some (take (Z.to_nat b) (drop (Z.to_nat a) rest)))
                 (Some (drop (Z.to_nat a + Z.to_nat b) rest))
  | [110; 117; 108; 108]%Z => NoProperties
  | _ => SyntaxError
  end.

Definition platform : Platform := {|
  aesGcmEncrypt := sealEncrypt;
  aesGcmDecrypt := sealDecrypt;
  pbkdf2 := fun password salt => take 32 (password ++ salt ++ repeat 0%Z 32);
  btoa := fun bytes => bytes;
  atob := fun s => Some s;
  JSON_stringify := stringify;
  JSON_parse := parse
|}.

(** A world with an empty [localStorage] and the byte [i mod 256] as the
    [i]-th random byte. *)
Definition world : World := {|
  localStorage := ∅;
  quotaExceeded := false;
  entropy := fun i => Z.of_nat i;
  drawn := 0
|}.

(** The same world with a storage that refuses writes. *)
Definition fullWorld : World := {|
  localStorage := ∅;
  quotaExceeded := true;
  entropy := fun i => Z.of_nat i;
  drawn := 0
|}.

End Reference.

(** ** Case mapping on ASCII

    What [toUpperCase] and [toLowerCase] do to a string of ASCII characters;
    used to run the model on concrete ASCII inputs. *)

Definition asciiToUpperCase (s : jsstring) : jsstring :=
  map (fun c => if ((97 <=? c) && (c <=? 122))%Z then (c - 32)%Z else c) s.

Definition asciiToLowerCase (s : jsstring) : jsstring :=
  map (fun c => if ((65 <=? c) && (c <=? 90))%Z then (c + 32)%Z else c) s.

(** The one template of [QUESTION_TEMPLATES] that is not phrased as a
    question. *)
Definition PROUD_MOMENT : jsstring :=
  JS.lit "Tell me about a time when you felt most proud of yourself.".

(** ** Inputs that [cloneVoice] and the table's hook accept *)

(** A name that passes the check of [cloneVoice] and, once trimmed and
    sanitized, the [name] rule of [VoiceModelSchema]. *)
Definition acceptedVoiceName (name : jsstring) : bool :=
  JS.truthy name && (0 <? length (JS.trim name))%nat
  && let stored := sanitizeName (JS.trim name) in
     (2 <=? length stored)%nat && (length stored <=? 50)%nat
     && forallb (fun c => isAlphaNumeric c || JS.isWhiteSpace c
                          || (c =? 39)%Z || (c =? 45)%Z) stored.

(** A sample that passes the loop of [cloneVoice] under the default
    configuration (and with it [BlobSchema]). *)
Definition acceptedSample (b : Blob) : bool :=
  ((1000 <=? size b) && (size b <=? 10 * 1024 * 1024))%Z.

(** A digit of [Number.prototype.toString(36)]. *)
Definition isBase36Digit (c : Z) : bool :=
  (((48 <=? c) && (c <=? 57)) || ((97 <=? c) && (c <=? 122)))%Z.

(** ** Sample data *)

Module Sample.

(** An environment in which the remote service cannot be reached. *)
Definition offline : VoiceEnv := {|
  voiceConfig := defaultVoiceConfig;
  apiKey := JS.lit "sk_test";
  cloneFetch := ElevenLabs.CloneRejected (JS.lit "Failed to fetch");
  speechFetch := ElevenLabs.SpeechRejected (JS.lit "Failed to fetch");
  now := 1730000000000;
  randomSuffix := JS.lit "k3j9x0q2a";
  storageAccepts := true
|}.

Definition threeSamples : list Blob :=
  [ {| size := 48000 |}; {| size := 52000 |}; {| size := 61000 |} ].

(** A locally created model that has been deactivated. *)
Definition inactiveLocal : VoiceModel := {|
  id := Some 1%nat;
  modelId := JS.lit "local_1730000000000_k3j9x0q2a";
  name := JS.lit "Mom";
  samples := map JS.lit ["sample_0.wav"; "sample_1.wav"; "sample_2.wav"]%string;
  sampleBlobs := Some threeSamples;
  createdAt := 1730000000000;
  isActive := false;
  isElevenLabsModel := false;
  quality := medium
|}.

Definition inactiveTable : VoiceTable.t :=
  {| VoiceTable.rows := [inactiveLocal]; VoiceTable.nextId := 2 |}.

(** A capsule for which encryption is requested. *)
Definition secretCapsule : Capsule.TimeCapsule := {|
  Capsule.title := JS.lit "For Anna";
  Capsule.recipient := JS.lit "Anna";
  Capsule.type := Capsule.family;
  Capsule.status := Capsule.draft;
  Capsule.content := JS.lit "The key is under the oak";
  Capsule.encryptedContent := None;
  Capsule.voiceModelId := None;
  Capsule.createdAt := 1730000000000;
  Capsule.deliveryDate := None;
  Capsule.isEncrypted := true;
  Capsule.wordCount := 6;
  Capsule.isAIGenerated := false;
  Capsule.metadata := {|
    Capsule.tone := JS.lit "heartfelt";
    Capsule.emotionalState := JS.lit "hopeful";
    Capsule.interviewResponses := [];
    Capsule.aiConfidence := None;
    Capsule.generationMethod := Capsule.manual;
    Capsule.voiceCloned := false |}
|}.

(** The same capsule as a caller has encrypted it beforehand, on the
    reference platform: the marker in [content], the serialized ciphertext
    beside it. *)
Definition lockedCapsule : Capsule.TimeCapsule :=
  Capsule.setContent Capsule.ENCRYPTED_MARKER
    (Some (JSON_stringify Reference.platform
             (blobOf Reference.platform (JS.lit "The key is under the oak")
                Reference.world)))
    secretCapsule.

(** The table that holds it, sanitized, under the first key. *)
Definition lockedTable : CapsuleTable.t :=
  {| CapsuleTable.rows :=
       <[1%nat := Capsule.sanitizeTimeCapsule lockedCapsule]> ∅;
     CapsuleTable.nextId := 2 |}.

(** The capsule without a request for encryption. *)
Definition openCapsule : Capsule.TimeCapsule := {|
  Capsule.title := Capsule.title secretCapsule;
  Capsule.recipient := Capsule.recipient secretCapsule;
  Capsule.type := Capsule.type secretCapsule;
  Capsule.status := Capsule.status secretCapsule;
  Capsule.content := Capsule.content secretCapsule;
  Capsule.encryptedContent := None;
  Capsule.voiceModelId := None;
  Capsule.createdAt := Capsule.createdAt secretCapsule;
  Capsule.deliveryDate := None;
  Capsule.isEncrypted := false;
  Capsule.wordCount := Capsule.wordCount secretCapsule;
  Capsule.isAIGenerated := false;
  Capsule.metadata := Capsule.metadata secretCapsule
|}.

End Sample.

(** ** Notions used to state the properties *)

(** The labels the keyword heuristic can answer with. *)
Definition fallbackEmotions : list jsstring :=
  map JS.lit ["joyful"; "nostalgic"; "grateful"; "melancholic"; "hopeful";
              "reflective"]%string.

(** A template pool [getFallbackQuestion] may draw from. *)
Definition pools : list (list jsstring) :=
  QUESTION_TEMPLATES_OPENING :: map snd QUESTION_TEMPLATES.

Definition templateShape (t : jsstring) : bool :=
  JS.truthy t && (JS.endsWith t [QUESTION_MARK] || JS.eqb t PROUD_MOMENT).

(** A character of a locally generated model id. *)
Definition isIdChar (c : Z) : bool := isWordChar c || (c =? 45)%Z.

(** A character of the decimal text of an integer. *)
Definition isDigitOrMinus (c : Z) : bool :=
  (((48 <=? c) && (c <=? 57)) || (c =? 45))%Z.

(** The broadcasts of a list of events [evs], in order, to the subscribers
    [cbs]. *)
Definition broadcasts (cbs : list nat) (evs : list Manager.AILoadingProgress)
    : list (nat * Manager.AILoadingProgress) :=
  flat_map (fun ev => map (fun cb => (cb, ev)) cbs) evs.

(** A Unicode scalar value: a code point that is not a surrogate. *)
Definition isScalar (c : Z) : Prop :=
  (0 <= c < 55296 \/ 57343 < c <= 1114111)%Z.

(** ** Further sample data and notions *)

Module Online.

(** An environment in which the remote service answers. *)
Definition env : VoiceEnv := {|
  voiceConfig := defaultVoiceConfig;
  apiKey := JS.lit "sk_test";
  cloneFetch :=
    ElevenLabs.CloneResponse true (JS.lit "OK") (Some (JS.lit "pNInz6obpgDQGcFmaJgB"));
  speechFetch := ElevenLabs.SpeechResponse true (JS.lit "OK") [73; 68; 51; 4]%Z;
  now := 1730000000000;
  randomSuffix := JS.lit "k3j9x0q2a";
  storageAccepts := true
|}.

End Online.

(** The way the first load of a new manager fails: the timer fires ([None])
    or [CreateMLCEngine] rejects with a reason. *)
Definition loadFailure (f : option (option jsstring)) : Manager.Event :=
  match f with
  | None => Manager.TimeoutFired 0
  | Some reason => Manager.LoadRejected 0 reason
  end.

(** A manager whose only load has failed. *)
Definition failedOnce (s : Manager.State) : Prop :=
  Manager.engine s = None /\ Manager.isInitialized s = false
  /\ Manager.initPromise s = Some 0%nat
  /\ (exists reason r,
        Manager.operations s
        = [ {| Manager.status := Manager.Rejected reason; Manager.loadRunning := r |} ])
  /\ Manager.countStage Manager.ready (Manager.dispatched s) = 0%nat
  /\ Manager.unloading s = 0%nat.

Definition subscriptionEvent (e : Manager.Event) : bool :=
  match e with
  | Manager.Subscribe _ | Manager.Unsubscribe _ => true
  | _ => false
  end.

(** [e] subscribes the callback [cb]. *)
Definition subscribes (cb : nat) (e : Manager.Event) : bool :=
  match e with
  | Manager.Subscribe c => bool_decide (c = cb)
  | _ => false
  end.

Definition isCallInitialize (e : Manager.Event) : bool :=
  match e with Manager.CallInitialize => true | _ => false end.

Definition isRacing (o : Manager.Operation) : bool :=
  match Manager.status o with Manager.Racing => true | _ => false end.

Definition racingCount (l : list Manager.Operation) : nat :=
  length (List.filter isRacing l).

(** What holds of the manager's fields after any sequence of events. *)
Definition consistent (s : Manager.State) : Prop :=
  (Manager.isInitialized s = true <-> Manager.engine s <> None)
  /\ (forall p, Manager.initPromise s = Some p -> (p < length (Manager.operations s))%nat)
  /\ (Manager.countStage Manager.ready (Manager.dispatched s)
      + racingCount (Manager.operations s)
      <= length (Manager.operations s))%nat.

(** No [unload()] is called while another one is suspended, along the run
    of [es] from [s]: at most one call awaits [engine.unload()] at a time. *)
Fixpoint unloadsInTurn (s : Manager.State) (es : list Manager.Event) : bool :=
  match es with
  | [] => true
  | e :: es' =>
      (Manager.unloading (Manager.step s e) <=? 1)%nat
      && unloadsInTurn (Manager.step s e) es'
  end.

(** What holds in addition as long as [unload()] calls take their turn: a
    suspended [unload()] sees an initialized manager, an initialized manager
    keeps its [initPromise], and a load that races is the one [initPromise]
    holds. *)
Definition orderly (s : Manager.State) : Prop :=
  (Manager.unloading s <= 1)%nat
  /\ (Manager.unloading s = 1%nat -> Manager.isInitialized s = true)
  /\ (Manager.isInitialized s = true -> Manager.initPromise s <> None)
  /\ (forall p o, Manager.operations s !! p = Some o -> isRacing o = true ->
        Manager.initPromise s = Some p /\ Manager.isInitialized s = false).

(** Every white-space character of [s] is a space that no white space
    follows. *)
Fixpoint singleSpaced (s : jsstring) : bool :=
  match s with
  | [] => true
  | c :: t =>
      (negb (JS.isWhiteSpace c)
       || ((c =? 32)%Z
           && match t with d :: _ => negb (JS.isWhiteSpace d) | [] => true end))
      && singleSpaced t
  end.

(** A character that [sanitizeText] replaces by an entity. *)
Definition isMarkup (c : Z) : bool :=
  ((c =? 38) || (c =? 60) || (c =? 62) || (c =? 34) || (c =? 39) || (c =? 47))%Z.

(** A sample that [Validators.voiceSamples] accepts. *)
Definition validatedSample (b : Blob) : bool :=
  ((1000 <? size b) && (size b <? 10 * 1024 * 1024))%Z.

(** The row [cloneVoice] stores for a model id: the record it builds, as the
    table's hook sanitizes it, under the next primary key. *)
Definition clonedRow (env : VoiceEnv) (tbl : VoiceTable.t) (voiceName : jsstring)
    (blobs : list Blob) (identifier : jsstring) (remote : bool) : VoiceModel :=
  {| id := Some (VoiceTable.nextId tbl);
     modelId := sanitizeName identifier;
     name := sanitizeName (JS.trim voiceName);
     samples := sampleFileNames blobs;
     sampleBlobs := Some blobs;
     createdAt := now env;
     isActive := true;
     isElevenLabsModel := remote;
     quality := if remote then high else medium |}.

(** The rows of a table pass the schema and carry distinct primary keys
    below the next one. *)
Definition wellKeyed (tbl : VoiceTable.t) : Prop :=
  Forall (fun m => validateVoiceModel m = true
                   /\ exists k, id m = Some k /\ (k < VoiceTable.nextId tbl)%nat)
    (VoiceTable.rows tbl)
  /\ NoDup (map id (VoiceTable.rows tbl)).

(** A row that [cleanupModels] keeps when no API key is configured. *)
Definition keptWithoutKey (m : VoiceModel) : bool :=
  negb (isElevenLabsModel m)
  && negb (existsb VoiceManager.isCritical (VoiceManager.recordIssues m)).

(** A ciphertext of AES-GCM is never empty: it ends with the
    authentication tag. *)
Definition Tagged (P : Platform) : Prop :=
  forall key iv data, aesGcmEncrypt P key iv data <> [].

(** The blob [encrypt] returns for a password in world [w]. *)
Definition passwordBlob (P : Platform) (content password : jsstring) (w : World)
    : EncryptedBlob :=
  {| encryptedData :=
       btoa P (aesGcmEncrypt P (pbkdf2 P password (nextSalt w)) (nextIv w)
                 (Encoding.TextEncoder_encode content));
     salt := btoa P (nextSalt w);
     iv := btoa P (nextIv w) |}.

(** The texts [getCapsuleContent] answers with in place of a content. *)
Definition sentinels : list jsstring :=
  [Capsule.SENTINEL_NO_DATA; Capsule.SENTINEL_CORRUPTED; Capsule.SENTINEL_UNABLE].

Definition isAttemptOf (key : jsstring) (c : ErrorRecovery.Call) : bool :=
  match c with
  | ErrorRecovery.Attempt k => JS.eqb k key
  | ErrorRecovery.Reset _ => false
  end.

Definition isResetOf (key : jsstring) (c : ErrorRecovery.Call) : bool :=
  match c with
  | ErrorRecovery.Attempt _ => false
  | ErrorRecovery.Reset k => JS.eqb k key
  end.

(** * Properties *)

(** ** Emotion classification *)

Lemma validateEmotion_valid (emotion : jsstring) :
  validateEmotion emotion ∈ validEmotions.
Proof.
  unfold validateEmotion. case_bool_decide as H; [exact H|].
  apply (bool_decide_unpack _). vm_compute. exact I.
Qed.

Lemma firstKeywordMatch_range (table : list (jsstring * list jsstring))
    (lowerText : jsstring) :
  firstKeywordMatch table lowerText ∈ reflective :: map fst table.
Proof.
  induction table as [|[emotion keywords] rest IH]; simpl.
  - apply list_elem_of_here.
  - destruct (existsb _ keywords).
    + apply list_elem_of_further, list_elem_of_here.
    + apply elem_of_cons in IH as [->|IH].
      * apply list_elem_of_here.
      * do 2 apply list_elem_of_further. exact IH.
Qed.

Lemma firstKeywordMatch_none (table : list (jsstring * list jsstring))
    (lowerText : jsstring) :
  (forall emotion keywords keyword,
      (emotion, keywords) ∈ table -> keyword ∈ keywords ->
      JS.includes lowerText keyword = false) ->
  firstKeywordMatch table lowerText = reflective.
Proof.
  induction table as [|[emotion keywords] rest IH]; simpl; intros H; [reflexivity|].
  destruct (existsb _ keywords) eqn:E.
  - apply existsb_exists in E as (keyword & Hin & Hk).
    rewrite (H emotion keywords keyword) in Hk; [discriminate| |].
    + apply list_elem_of_here.
    + apply list_elem_of_In, Hin.
  - apply IH. intros e ks k He Hk. apply (H e ks k); [|exact Hk].
    apply list_elem_of_further, He.
Qed.

(** C9. For every input text (the empty string included) and whatever the
    model does, [analyzeEmotionalState] answers with a label of the fixed
    allowed set: on the model path an answer outside the set is replaced by
    'reflective'; on the fallback path the keyword heuristic answers with one
    of six of those labels, 'reflective' when no keyword occurs in the text. *)
Theorem analyzeEmotionalState_allowed (toLowerCase : jsstring -> jsstring)
    (outcome : EngineOutcome) (text : jsstring) :
  analyzeEmotionalState toLowerCase outcome text ∈ validEmotions
  /\ (forall answer, answer ∉ validEmotions -> validateEmotion answer = reflective)
  /\ analyzeEmotionFallback toLowerCase text ∈ fallbackEmotions
  /\ fallbackEmotions ⊆ validEmotions
  /\ ((forall emotion keywords keyword,
          (emotion, keywords) ∈ emotionKeywords -> keyword ∈ keywords ->
          JS.includes (toLowerCase text) keyword = false) ->
      analyzeEmotionFallback toLowerCase text = reflective).
Proof.
  assert (Hsub : fallbackEmotions ⊆ validEmotions).
  { intros e He. revert e He. apply Forall_forall.
    apply (bool_decide_unpack _). vm_compute. exact I. }
  assert (Hfb : analyzeEmotionFallback toLowerCase text ∈ fallbackEmotions).
  { unfold analyzeEmotionFallback.
    pose proof (firstKeywordMatch_range emotionKeywords (toLowerCase text)) as H.
    revert H. generalize (firstKeywordMatch emotionKeywords (toLowerCase text)).
    apply Forall_forall.
    apply (bool_decide_unpack _). vm_compute. exact I. }
  repeat split.
  - destruct outcome; simpl; try (apply Hsub, Hfb).
    apply validateEmotion_valid.
  - intros answer Hn. unfold validateEmotion.
    case_bool_decide; [contradiction|reflexivity].
  - exact Hfb.
  - exact Hsub.
  - apply firstKeywordMatch_none.
Qed.

(** ** Question generation *)

Lemma startsWith_app (p s : jsstring) : JS.startsWith (p ++ s) p = true.
Proof.
  induction p as [|a p IH]; simpl; [reflexivity|].
  rewrite Z.eqb_refl. exact IH.
Qed.

Lemma endsWith_app (s p : jsstring) : JS.endsWith (s ++ p) p = true.
Proof. unfold JS.endsWith. rewrite rev_app_distr. apply startsWith_app. Qed.

Lemma property_elem {A : Type} (table : list (jsstring * A)) (key : jsstring) (v : A) :
  property table key = Some v -> v ∈ map snd table.
Proof.
  induction table as [|[k x] rest IH]; simpl; [discriminate|].
  destruct (JS.eqb k key).
  - intros [= ->]. apply list_elem_of_here.
  - intros H. apply list_elem_of_further, IH, H.
Qed.

(** [Math.floor(Math.random() * n)] is an index below [n]. *)
Lemma random_index (random : Q) (n : nat) :
  (0 <= random)%Q -> (random < 1)%Q -> (0 < n)%nat ->
  (Z.to_nat (Qfloor (random * inject_Z (Z.of_nat n))) < n)%nat.
Proof.
  intros H0 H1 Hn.
  assert (Hpos : (0 < inject_Z (Z.of_nat n))%Q).
  { rewrite <- (Zlt_Qlt 0). lia. }
  assert (Hlo : (0 <= Qfloor (random * inject_Z (Z.of_nat n)))%Z).
  { rewrite <- (Qfloor_Z 0). apply Qfloor_resp_le.
    apply Qmult_le_0_compat; [exact H0|]. apply Qlt_le_weak, Hpos. }
  assert (Hhi : (Qfloor (random * inject_Z (Z.of_nat n)) < Z.of_nat n)%Z).
  { rewrite Zlt_Qlt.
    eapply Qle_lt_trans; [apply Qfloor_le|].
    eapply Qlt_le_trans; [apply Qmult_lt_compat_r; eassumption|].
    rewrite Qmult_1_l. apply Qle_refl. }
  lia.
Qed.

Lemma pools_shape :
  Forall (fun pool => (0 < length pool)%nat
                      /\ Forall (fun t => templateShape t = true) pool) pools.
Proof. apply (bool_decide_unpack _). vm_compute. exact I. Qed.

Lemma getFallbackQuestion_template (toUpperCase : jsstring -> jsstring)
    (random : Q) (category : jsstring) :
  (0 <= random)%Q -> (random < 1)%Q ->
  exists t, getFallbackQuestion toUpperCase random category = Some t
            /\ templateShape t = true.
Proof.
  intros H0 H1. unfold getFallbackQuestion.
  set (templates := match property QUESTION_TEMPLATES (toUpperCase category) with
                    | Some templates => templates
                    | None => QUESTION_TEMPLATES_OPENING
                    end).
  assert (Hpool : templates ∈ pools).
  { subst templates. destruct (property _ _) eqn:E.
    - apply list_elem_of_further. eapply property_elem. exact E.
    - apply list_elem_of_here. }
  pose proof (proj1 (Forall_forall _ _) pools_shape _ Hpool) as [Hlen Hall].
  pose proof (random_index random (length templates) H0 H1 Hlen) as Hidx.
  destruct (lookup_lt_is_Some_2 templates _ Hidx) as [t Ht].
  exists t. split; [exact Ht|].
  apply (proj1 (Forall_forall _ _) Hall). eapply list_elem_of_lookup_2. exact Ht.
Qed.

Lemma generateInterviewQuestion_try_ok (outcome : EngineOutcome)
    (emotionalState questionCategory : jsstring) (r : AIResponse) :
  generateInterviewQuestion_try outcome emotionalState questionCategory = Ok r ->
  exists cleaned,
    JS.endsWith cleaned [QUESTION_MARK] = true
    /\ (10 <= length cleaned)%nat
    /\ content r = Some (if (300 <? length cleaned)%nat
                         then JS.substring0 297 cleaned ++ JS.lit "..."
                         else cleaned).
Proof.
  unfold generateInterviewQuestion_try.
  destruct outcome as [reason| |reason|[rawContent|]];
    try discriminate;
    destruct (negb (JS.truthy emotionalState) || negb (JS.truthy questionCategory));
    try discriminate.
  destruct (negb (JS.truthy rawContent) || _); [discriminate|].
  set (trimmed := JS.trim (stripQuotes rawContent)).
  set (cleaned := if JS.endsWith trimmed [QUESTION_MARK] then trimmed
                  else trimmed ++ [QUESTION_MARK]).
  destruct (length cleaned <? 10)%nat eqn:Hlen; [discriminate|].
  intros [= <-]. exists cleaned. repeat split.
  - subst cleaned. destruct (JS.endsWith trimmed [QUESTION_MARK]) eqn:E.
    + exact E.
    + apply endsWith_app.
  - apply Nat.ltb_ge in Hlen. exact Hlen.
Qed.

(** C6, as the code has it. Whatever the model does, the question returned
    is a non-empty string (given that [Math.random()] is in [0, 1)). From the
    primary tier it ends with [?], unless the cleaned text was longer than
    300 characters: it is then cut to 297 characters followed by [...]. From
    the fallback tier it is a template of the pool, which ends with [?]
    unless it is the MEMORIES template "Tell me about a time when you felt
    most proud of yourself." *)
Theorem generateInterviewQuestion_shape (toUpperCase : jsstring -> jsstring)
    (outcome : EngineOutcome) (random : Q)
    (emotionalState questionCategory : jsstring) :
  (0 <= random)%Q -> (random < 1)%Q ->
  exists text,
    content (generateInterviewQuestion toUpperCase outcome random
               emotionalState questionCategory) = Some text
    /\ text <> []
    /\ match generateInterviewQuestion_try outcome emotionalState questionCategory with
       | Ok _ =>
           JS.endsWith text [QUESTION_MARK] = true
           \/ (length text = 300%nat /\ JS.endsWith text (JS.lit "...") = true)
       | Throw _ =>
           JS.endsWith text [QUESTION_MARK] = true \/ text = PROUD_MOMENT
       end.
Proof.
  intros H0 H1. unfold generateInterviewQuestion.
  destruct (generateInterviewQuestion_try outcome emotionalState questionCategory)
    as [r|message] eqn:Htry.
  - apply generateInterviewQuestion_try_ok in Htry as (cleaned & Hq & Hlen & ->).
    eexists. split; [reflexivity|].
    destruct (300 <? length cleaned)%nat eqn:Hcut.
    + apply Nat.ltb_lt in Hcut. split.
      * intros H. apply (f_equal length) in H.
        rewrite length_app in H.
        change (length (JS.lit "...")) with 3%nat in H. simpl in H. lia.
      * right. split; [|apply endsWith_app].
        unfold JS.substring0. rewrite length_app, length_take.
        change (length (JS.lit "...")) with 3%nat. lia.
    + split; [|left; exact Hq].
      intros ->. simpl in Hlen. lia.
  - simpl.
    destruct (getFallbackQuestion_template toUpperCase random questionCategory H0 H1)
      as (t & Ht & Hshape).
    exists t. split; [exact Ht|].
    unfold templateShape in Hshape.
    apply andb_prop in Hshape as [Hne Hend]. split.
    + intros ->. discriminate.
    + apply orb_prop in Hend as [Hend|Hend]; [left; exact Hend|right].
      unfold JS.eqb in Hend. apply bool_decide_eq_true in Hend. exact Hend.
Qed.

Lemma generateInterviewQuestion_shape_witness :
  exists text,
    content (generateInterviewQuestion asciiToUpperCase EngineNull (1 # 2)
               (JS.lit "hopeful") (JS.lit "wisdom")) = Some text
    /\ text <> []
    /\ (JS.endsWith text [QUESTION_MARK] = true \/ text = PROUD_MOMENT).
Proof.
  apply (generateInterviewQuestion_shape asciiToUpperCase EngineNull (1 # 2)
           (JS.lit "hopeful") (JS.lit "wisdom")).
  - discriminate.
  - reflexivity.
Defined.

(** C6 fails as stated, on both tiers: with the model unavailable the
    question for the category 'memories' drawn at [Math.random() = 0] ends
    with a full stop, and a model answer of 301 letters comes back cut to 297
    letters and three dots. *)
Lemma generateInterviewQuestion_not_a_question :
  content (generateInterviewQuestion asciiToUpperCase EngineNull 0
             (JS.lit "nostalgic") (JS.lit "memories"))
  = Some (JS.lit "Tell me about a time when you felt most proud of yourself.")
  /\ content (generateInterviewQuestion asciiToUpperCase
                (Answered (Some (repeat 97%Z 301))) 0
                (JS.lit "nostalgic") (JS.lit "memories"))
     = Some (repeat 97%Z 297 ++ JS.lit "...").
Proof. split; vm_compute; reflexivity. Qed.

(** ** Content synthesis *)

Lemma trim_nil_length (s : jsstring) (n : nat) :
  (n <= length (JS.trim s))%nat -> (0 < n)%nat -> s <> [].
Proof. intros H Hn ->. simpl in H. lia. Qed.

Lemma fallbackTitle_truthy (tone : jsstring) : fallbackTitle tone <> [].
Proof.
  unfold fallbackTitle.
  repeat match goal with |- context [if ?b then _ else _] => destruct b end;
    discriminate.
Qed.

Lemma getFallbackContent_filled (toLowerCase : jsstring -> jsstring)
    (responses : list (jsstring * jsstring)) (tone : jsstring) :
  cc_content (getFallbackContent toLowerCase responses tone) <> []
  /\ cc_title (getFallbackContent toLowerCase responses tone) <> [].
Proof.
  destruct responses as [|entry rest]; simpl.
  - split; discriminate.
  - split; [|apply fallbackTitle_truthy].
    intros H. apply app_eq_nil in H as [_ H]. discriminate H.
Qed.

Lemma generateTimeCapsuleContent_try_ok (outcome : EngineOutcome)
    (responses : list (jsstring * jsstring)) (tone : jsstring) (r : CapsuleContent) :
  generateTimeCapsuleContent_try outcome responses tone = Ok r ->
  responses <> [] /\ cc_content r <> []
  /\ exists fullResponse, outcome = Answered (Some fullResponse)
                          /\ cc_title r = snd (parseGeneratedContent fullResponse).
Proof.
  unfold generateTimeCapsuleContent_try.
  destruct outcome as [reason| |reason|[fullResponse|]]; try discriminate;
    destruct (length responses =? 0)%nat eqn:Hn; try discriminate;
    destruct (negb (JS.truthy (JS.trim (responseText responses))));
    try discriminate.
  destruct (negb (JS.truthy fullResponse) || _); [discriminate|].
  destruct (parseGeneratedContent fullResponse) as [content title] eqn:Hparse.
  destruct (negb (JS.truthy content) || (length (JS.trim content) <? 50)%nat)
    eqn:Hshort; [discriminate|].
  intros [= <-]. simpl. split; [|split].
  - intros ->. discriminate.
  - apply orb_false_elim in Hshort as [_ Hshort].
    apply Nat.ltb_ge in Hshort.
    apply (trim_nil_length content 50); [exact Hshort|lia].
  - exists fullResponse. rewrite Hparse. split; reflexivity.
Qed.

(** C5, as the code has it. [generateTimeCapsuleContent] never rejects: for
    an empty response set it resolves with the fixed default letter, titled
    "A Message of Love". For every response set the content it resolves with
    is non-empty, and so is the title whenever the result comes from the
    fallback tier, as it does when the completion call fails. *)
Theorem generateTimeCapsuleContent_never_raises
    (toLowerCase : jsstring -> jsstring) (outcome : EngineOutcome)
    (responses : list (jsstring * jsstring)) (tone : jsstring) :
  exists r,
    generateTimeCapsuleContent toLowerCase outcome responses tone = Ok r
    /\ cc_content r <> []
    /\ (responses = [] ->
        cc_content r = defaultLetter /\ cc_title r = JS.lit "A Message of Love")
    /\ ((forall fullResponse, outcome <> Answered (Some fullResponse)) ->
        r = getFallbackContent toLowerCase responses tone /\ cc_title r <> [])
    /\ match generateTimeCapsuleContent_try outcome responses tone with
       | Ok _ => True
       | Throw _ => r = getFallbackContent toLowerCase responses tone
                    /\ cc_title r <> []
       end.
Proof.
  unfold generateTimeCapsuleContent.
  destruct (generateTimeCapsuleContent_try outcome responses tone) as [r|message]
    eqn:Htry.
  - apply generateTimeCapsuleContent_try_ok in Htry
      as (Hne & Hcontent & fullResponse & Hout & Htitle).
    exists r. split; [reflexivity|]. split; [exact Hcontent|].
    split; [intros H; contradiction|]. split; [|exact I].
    intros H. exfalso. apply (H fullResponse). exact Hout.
  - exists (getFallbackContent toLowerCase responses tone).
    pose proof (getFallbackContent_filled toLowerCase responses tone) as [Hc Ht].
    split; [reflexivity|]. split; [exact Hc|].
    split; [intros ->; split; reflexivity|].
    split; [intros _|]; (split; [reflexivity|exact Ht]).
Qed.

(** C5 fails as stated: with an empty response set nothing is raised, whether
    the model is unavailable or answers; the promise resolves with the
    default letter. *)
Lemma generateTimeCapsuleContent_empty_resolves :
  generateTimeCapsuleContent asciiToLowerCase EngineNull [] (JS.lit "heartfelt")
  = Ok {| cc_content := defaultLetter;
          cc_title := JS.lit "A Message of Love";
          cc_emotionalTone := JS.lit "heartfelt";
          cc_wordCount := 81 |}
  /\ generateTimeCapsuleContent asciiToLowerCase
       (Answered (Some (JS.lit "Title: Dear all"))) [] (JS.lit "heartfelt")
     = Ok {| cc_content := defaultLetter;
             cc_title := JS.lit "A Message of Love";
             cc_emotionalTone := JS.lit "heartfelt";
             cc_wordCount := 81 |}.
Proof. split; vm_compute; reflexivity. Qed.

(** On the primary tier the title can be blank: a "Title:" marker followed
    by white space alone at the end of the model's text matches the pattern
    with a group that [trim] empties. *)
Example parseGeneratedContent_blank_title :
  parseGeneratedContent (repeat 97%Z 60 ++ JS.lit "
Title: ")
  = (repeat 97%Z 60, []).
Proof. vm_compute. reflexivity. Qed.

Example parseGeneratedContent_title :
  parseGeneratedContent (JS.lit "Title: For My Family
Dear ones, this is for you.")
  = (JS.lit "Dear ones, this is for you.", JS.lit "For My Family").
Proof. vm_compute. reflexivity. Qed.

(** ** Speech synthesis *)

Lemma speechTextError_invalid (text : jsstring) :
  text = [] \/ JS.trim text = [] \/ (5000 < Z.of_nat (length text))%Z ->
  exists message, speechTextError text = Some message.
Proof.
  unfold speechTextError. intros [->|[H|H]].
  - simpl. eexists. reflexivity.
  - rewrite H. simpl. rewrite orb_true_r. eexists. reflexivity.
  - destruct (negb (JS.truthy text) || _); [eexists; reflexivity|].
    apply Z.ltb_lt in H. rewrite H. eexists. reflexivity.
Qed.

Lemma ElevenLabs_generateSpeech_requests (key : jsstring)
    (net : ElevenLabs.SpeechFetch) (target : jsstring) :
  snd (ElevenLabs.generateSpeech key net target) = []
  \/ snd (ElevenLabs.generateSpeech key net target)
     = [ElevenLabs.baseUrl ++ JS.lit "/text-to-speech/" ++ target].
Proof.
  unfold ElevenLabs.generateSpeech.
  destruct (negb (JS.truthy key)); [left; reflexivity|right].
  destruct net as [reason|ok statusText body]; [reflexivity|].
  destruct (negb ok); reflexivity.
Qed.

(** C8, as the code has it. [generateSpeech] rejects a text that is empty,
    blank or longer than 5000 characters. For a voice id that resolves to a
    local-origin model it always rejects and requests nothing from the
    network; the rejection is the explicit "not yet available" error when the
    text is valid and the model is active. It requests the synthesis endpoint
    only for an active remote-origin model, and rejects when the client call
    fails or returns an empty buffer. *)
Theorem generateSpeech_dispatch (env : VoiceEnv) (tbl : VoiceTable.t)
    (currentVoiceModel : option VoiceModel) (text : jsstring)
    (voiceId : option jsstring) :
  let result := generateSpeech env tbl currentVoiceModel text voiceId in
  (text = [] \/ JS.trim text = [] \/ (5000 < Z.of_nat (length text))%Z ->
     exists message, audio result = Throw message /\ speechRequested result = [])
  /\ (forall target m,
        targetVoiceId currentVoiceModel voiceId = Some target ->
        VoiceTable.firstByModelId target tbl = Some m ->
        isElevenLabsModel m = false ->
        speechRequested result = []
        /\ exists message,
             audio result = Throw message
             /\ (speechTextError text = None -> target <> [] -> isActive m = true ->
                 message = speechError LOCAL_SYNTHESIS_UNSUPPORTED))
  /\ (speechRequested result <> [] ->
      exists target m,
        targetVoiceId currentVoiceModel voiceId = Some target
        /\ VoiceTable.firstByModelId target tbl = Some m
        /\ isElevenLabsModel m = true /\ isActive m = true
        /\ speechRequested result
           = [ElevenLabs.baseUrl ++ JS.lit "/text-to-speech/" ++ target])
  /\ (forall target m,
        targetVoiceId currentVoiceModel voiceId = Some target ->
        VoiceTable.firstByModelId target tbl = Some m ->
        isElevenLabsModel m = true ->
        match fst (ElevenLabs.generateSpeech (apiKey env) (speechFetch env) target) with
        | Throw _ | Ok [] => exists message, audio result = Throw message
        | Ok (_ :: _) => True
        end).
Proof.
  cbv zeta. unfold generateSpeech. split; [|split; [|split]].
  - intros H. apply speechTextError_invalid in H as [message ->].
    exists message. split; reflexivity.
  - intros target m Ht Hm Hlocal.
    destruct (speechTextError text) as [message|].
    { split; [reflexivity|]. exists message. split; [reflexivity|].
      intros; discriminate. }
    rewrite Ht. destruct target as [|c target].
    { split; [reflexivity|]. eexists. split; [reflexivity|].
      intros _ Hne. contradiction. }
    simpl. rewrite Hm. destruct (isActive m); simpl.
    + rewrite Hlocal. split; [reflexivity|].
      eexists. split; [reflexivity|]. intros; reflexivity.
    + split; [reflexivity|]. eexists. split; [reflexivity|].
      intros; discriminate.
  - intros Hreq.
    destruct (speechTextError text); [contradiction|].
    destruct (targetVoiceId currentVoiceModel voiceId) as [target|] eqn:Ht;
      [|contradiction].
    destruct (negb (JS.truthy target)); [contradiction|].
    destruct (VoiceTable.firstByModelId target tbl) as [m|] eqn:Hm;
      [|contradiction].
    destruct (isActive m) eqn:Hact; simpl in Hreq; [|contradiction].
    destruct (isElevenLabsModel m) eqn:Hremote; [|contradiction].
    exists target, m. do 4 (split; [assumption || reflexivity|]).
    pose proof (ElevenLabs_generateSpeech_requests (apiKey env) (speechFetch env)
                  target) as Hurl.
    destruct (ElevenLabs.generateSpeech (apiKey env) (speechFetch env) target)
      as [remote requests].
    assert (Hsame : requests <> []).
    { destruct remote as [[|b body]|reason]; exact Hreq. }
    cbn [snd] in Hurl. destruct Hurl as [->| ->]; [contradiction|].
    destruct remote as [[|b body]|reason]; reflexivity.
  - intros target m Ht Hm Hremote.
    destruct (speechTextError text) as [message|].
    { destruct (fst _) as [[|b body]|]; try exact I; eexists; reflexivity. }
    rewrite Ht.
    destruct (negb (JS.truthy target)).
    { destruct (fst _) as [[|b body]|]; try exact I; eexists; reflexivity. }
    rewrite Hm.
    destruct (isActive m); simpl.
    2:{ destruct (fst _) as [[|b body]|]; try exact I; eexists; reflexivity. }
    rewrite Hremote.
    destruct (ElevenLabs.generateSpeech (apiKey env) (speechFetch env) target)
      as [[[|b body]|reason] requests]; simpl; try exact I; eexists; reflexivity.
Qed.

(** C8 fails as stated for a local-origin model that is not active: the
    error raised is that the model is not active, not that local synthesis is
    unsupported. *)
Lemma generateSpeech_inactive_local :
  generateSpeech Sample.offline Sample.inactiveTable None (JS.lit "Hello there")
    (Some (JS.lit "local_1730000000000_k3j9x0q2a"))
  = {| audio := Throw (JS.lit "Speech Generation Error: Voice model is not active");
       speechRequested := [] |}.
Proof. vm_compute. reflexivity. Qed.

(** ** Voice cloning *)

Lemma isIdChar_range (c : Z) :
  isIdChar c = true ->
  (48 <= c <= 57 \/ 65 <= c <= 90 \/ 97 <= c <= 122 \/ c = 95 \/ c = 45)%Z.
Proof.
  unfold isIdChar, isWordChar, isAlphaNumeric. intros H.
  repeat match type of H with
         | (_ || _) = true => apply orb_prop in H as [H|H]
         | (_ && _) = true => apply andb_prop in H as [? H]
         end;
    repeat match goal with
           | H : (_ <=? _)%Z = true |- _ => apply Z.leb_le in H
           | H : (_ =? _)%Z = true |- _ => apply Z.eqb_eq in H
           end; lia.
Qed.

Lemma isIdChar_not_space (c : Z) : isIdChar c = true -> JS.isWhiteSpace c = false.
Proof.
  intros H. apply isIdChar_range in H. unfold JS.isWhiteSpace.
  rewrite !(proj2 (Z.eqb_neq c _)) by lia.
  destruct (Z.leb_spec 8192 c); [lia|]. reflexivity.
Qed.

Lemma trimStart_id (s : jsstring) :
  Forall (fun c => JS.isWhiteSpace c = false) s -> JS.trimStart s = s.
Proof. intros [|c t Hc Ht]; simpl; [reflexivity|]. rewrite Hc. reflexivity. Qed.

Lemma trim_id (s : jsstring) :
  Forall (fun c => JS.isWhiteSpace c = false) s -> JS.trim s = s.
Proof.
  intros H. unfold JS.trim, JS.trimEnd. rewrite (trimStart_id s H).
  rewrite trimStart_id; [apply rev_involutive|].
  apply Forall_forall. intros c Hc. apply (proj1 (Forall_forall _ _) H).
  apply list_elem_of_In. apply in_rev. apply list_elem_of_In. exact Hc.
Qed.

Lemma collapseWhiteSpace_id (s : jsstring) :
  Forall (fun c => JS.isWhiteSpace c = false) s -> collapseWhiteSpace s = s.
Proof.
  induction 1 as [|c t Hc Ht IH]; simpl; [reflexivity|].
  rewrite Hc, IH. reflexivity.
Qed.

Lemma filter_id {A : Type} (f : A -> bool) (l : list A) :
  Forall (fun x => f x = true) l -> List.filter f l = l.
Proof.
  induction 1 as [|x t Hx Ht IH]; simpl; [reflexivity|].
  rewrite Hx, IH. reflexivity.
Qed.

(** [sanitizeName] leaves a non-empty string of at most 100 word characters
    and hyphens as it is. *)
Lemma sanitizeName_id (s : jsstring) :
  s <> [] -> (length s <= 100)%nat -> Forall (fun c => isIdChar c = true) s ->
  sanitizeName s = s.
Proof.
  intros Hne Hlen Hchars. unfold sanitizeName.
  destruct s as [|c t]; [contradiction|]. cbn [JS.truthy negb].
  assert (Hns : Forall (fun c => JS.isWhiteSpace c = false) (c :: t)).
  { eapply Forall_impl; [exact Hchars|]. intros x. apply isIdChar_not_space. }
  rewrite (trim_id _ Hns).
  rewrite filter_id.
  - rewrite (collapseWhiteSpace_id _ Hns). unfold JS.substring0.
    apply take_ge. exact Hlen.
  - eapply Forall_impl; [exact Hchars|]. intros x Hx. cbv beta.
    unfold isIdChar in Hx. apply orb_prop in Hx as [->| ->]; [reflexivity|].
    rewrite !orb_true_r. reflexivity.
Qed.

Lemma decimalDigits_chars (fuel : nat) (n : Z) (acc : jsstring) :
  Forall (fun c => isDigitOrMinus c = true) acc ->
  Forall (fun c => isDigitOrMinus c = true) (decimalDigits fuel n acc).
Proof.
  revert n acc. induction fuel as [|fuel IH]; intros n acc Hacc; simpl; [exact Hacc|].
  assert (Hd : isDigitOrMinus (48 + n mod 10) = true).
  { unfold isDigitOrMinus. pose proof (Z.mod_pos_bound n 10 ltac:(lia)) as Hb.
    destruct (Z.leb_spec 48 (48 + n mod 10)); [|lia].
    destruct (Z.leb_spec (48 + n mod 10) 57); [reflexivity|lia]. }
  destruct (n <? 10)%Z.
  - constructor; assumption.
  - apply IH. constructor; assumption.
Qed.

Lemma decimalDigits_length (fuel : nat) (n : Z) (acc : jsstring) :
  (length acc < length (decimalDigits (S fuel) n acc)
   /\ length (decimalDigits (S fuel) n acc) <= S fuel + length acc)%nat.
Proof.
  revert n acc. induction fuel as [|fuel IH]; intros n acc.
  - simpl. destruct (n <? 10)%Z; simpl; lia.
  - change (decimalDigits (S (S fuel)) n acc)
      with (if (n <? 10)%Z then (48 + n mod 10)%Z :: acc
            else decimalDigits (S fuel) (n / 10)%Z ((48 + n mod 10)%Z :: acc)).
    destruct (n <? 10)%Z; [simpl; lia|].
    specialize (IH (n / 10)%Z ((48 + n mod 10)%Z :: acc)). simpl in IH |- *. lia.
Qed.

Lemma numberToString_chars (n : Z) :
  Forall (fun c => isDigitOrMinus c = true) (numberToString n).
Proof.
  unfold numberToString. destruct (n <? 0)%Z.
  - constructor; [reflexivity|]. apply decimalDigits_chars. constructor.
  - apply decimalDigits_chars. constructor.
Qed.

Lemma numberToString_length (n : Z) :
  (-8640000000000000 <= n <= 8640000000000000)%Z ->
  (0 < length (numberToString n) <= 54)%nat.
Proof.
  intros Hn. unfold numberToString.
  assert (Hlog : forall m, (0 <= m <= 8640000000000000)%Z ->
                           (Z.to_nat (Z.log2 m) <= 52)%nat).
  { intros m Hm.
    assert (Z.log2 m <= Z.log2 8640000000000000)%Z as H
        by (apply Z.log2_le_mono; lia).
    change (Z.log2 8640000000000000) with 52%Z in H.
    pose proof (Z.log2_nonneg m). lia. }
  destruct (Z.ltb_spec n 0).
  - pose proof (decimalDigits_length (Z.to_nat (Z.log2 (- n))) (- n) []) as [H1 H2].
    specialize (Hlog (- n)%Z ltac:(lia)). simpl length in *. lia.
  - pose proof (decimalDigits_length (Z.to_nat (Z.log2 n)) n []) as [H1 H2].
    specialize (Hlog n ltac:(lia)). simpl length in *. lia.
Qed.

Lemma validateSamples_accepted (i : nat) (samples : list Blob) :
  Forall (fun b => acceptedSample b = true) samples ->
  validateSamples defaultVoiceConfig i samples = Ok tt.
Proof.
  intros H. revert i. induction H as [|b rest Hb Hrest IH]; intros i; [reflexivity|].
  unfold acceptedSample in Hb. apply andb_prop in Hb as [Hlo Hhi].
  apply Z.leb_le in Hlo. apply Z.leb_le in Hhi.
  cbn [validateSamples].
  destruct (Z.eqb_spec (size b) 0); [lia|].
  destruct (Z.ltb_spec (size b) 1000); [lia|].
  change (maxFileSize defaultVoiceConfig) with (10 * 1024 * 1024)%Z.
  destruct (Z.ltb_spec (10 * 1024 * 1024) (size b)); [lia|].
  apply IH.
Qed.

Lemma acceptedSample_BlobSchema (b : Blob) :
  acceptedSample b = true -> BlobSchema b = true.
Proof.
  unfold acceptedSample, BlobSchema. intros H.
  apply andb_prop in H as [Hlo Hhi].
  apply Z.leb_le in Hlo. apply Z.leb_le in Hhi.
  apply andb_true_intro. split; apply Z.ltb_lt; lia.
Qed.

(** The identifier of a local model is kept as it is by [sanitizeName]. *)
Lemma localModelId_sanitized (env : VoiceEnv) :
  (-8640000000000000 <= now env <= 8640000000000000)%Z ->
  Forall (fun c => isBase36Digit c = true) (randomSuffix env) ->
  (length (randomSuffix env) <= 9)%nat ->
  sanitizeName (localModelId env) = localModelId env
  /\ localModelId env <> [].
Proof.
  intros Hnow Hsuffix Hlen.
  assert (Hne : localModelId env <> []) by discriminate.
  split; [|exact Hne].
  apply sanitizeName_id; [exact Hne| |].
  - unfold localModelId. rewrite !length_app.
    pose proof (numberToString_length (now env) Hnow).
    change (length (JS.lit "local_")) with 6%nat.
    change (length (JS.lit "_")) with 1%nat. lia.
  - unfold localModelId. repeat apply Forall_app_2.
    + apply (bool_decide_unpack _). vm_compute. exact I.
    + eapply Forall_impl; [apply numberToString_chars|].
      intros c. unfold isDigitOrMinus, isIdChar, isWordChar, isAlphaNumeric.
      intros H. apply orb_prop in H as [->| ->]; [reflexivity|].
      apply orb_true_r.
    + apply (bool_decide_unpack _). vm_compute. exact I.
    + eapply Forall_impl; [exact Hsuffix|].
      intros c. unfold isBase36Digit, isIdChar, isWordChar, isAlphaNumeric.
      intros H. apply orb_prop in H as [->| ->]; [reflexivity|].
      rewrite !orb_true_r. reflexivity.
Qed.

Lemma find_app_fresh {A : Type} (f : A -> bool) (l : list A) (x : A) :
  List.find f l = None -> f x = true -> List.find f (l ++ [x]) = Some x.
Proof.
  induction l as [|y l IH]; simpl; intros Hl Hx.
  - rewrite Hx. reflexivity.
  - destruct (f y); [discriminate|]. apply IH; assumption.
Qed.



Example cloneVoice_offline_id :
  returned (cloneVoice Sample.offline VoiceTable.empty (JS.lit "Mom")
              Sample.threeSamples)
  = Ok (JS.lit "local_1730000000000_k3j9x0q2a").
Proof. vm_compute. reflexivity. Qed.


(** ** The model lifecycle *)

Section ManagerProperties.

Import Manager.

Lemma initialize_settled (s : State) :
  initialize (snd (initialize s)) = (fst (initialize s), snd (initialize s)).
Proof.
  unfold initialize at 2 3 4.
  destruct (isInitialized s) eqn:Hinit.
  - cbn [fst snd]. unfold initialize. rewrite Hinit. reflexivity.
  - destruct (initPromise s) as [p|] eqn:Hp.
    + cbn [fst snd]. unfold initialize. rewrite Hinit, Hp. reflexivity.
    + cbn [fst snd doInitialize]. unfold initialize.
      cbn [isInitialized initPromise notifyProgress]. rewrite Hinit. reflexivity.
Qed.

Lemma run_subscribe (cbs : list nat) :
  run fresh (map Subscribe cbs)
  = {| engine := None; isInitialized := false; initPromise := None;
       progressCallbacks := cbs; operations := [];
       delivered := []; dispatched := []; unloading := 0 |}.
Proof.
  unfold run. rewrite <- (app_nil_l cbs) at 2.
  change fresh with {| engine := None; isInitialized := false; initPromise := None;
                       progressCallbacks := []; operations := [];
                       delivered := []; dispatched := []; unloading := 0 |}.
  generalize (@nil nat) as seen.
  induction cbs as [|cb cbs IH]; intros seen; simpl.
  - rewrite app_nil_r. reflexivity.
  - unfold onProgress at 1. cbn. rewrite IH, <- app_assoc. reflexivity.
Qed.

Lemma run_reports (p : nat) (qs : list Q) (s : State) (st : OpStatus) :
  operations s !! p = Some {| status := st; loadRunning := true |} ->
  run s (map (Report p) qs)
  = {| engine := engine s; isInitialized := isInitialized s;
       initPromise := initPromise s;
       progressCallbacks := progressCallbacks s;
       operations := operations s;
       delivered := delivered s
                    ++ broadcasts (progressCallbacks s) (map progressReport qs);
       dispatched := dispatched s ++ map progressReport qs;
       unloading := unloading s |}.
Proof.
  revert s. induction qs as [|q qs IH]; intros s Hop.
  - destruct s. cbn. rewrite !app_nil_r. reflexivity.
  - cbn [map run fold_left step]. rewrite Hop. cbn [loadRunning].
    change (fold_left step (map (Report p) qs) (initProgressCallback q s))
      with (run (initProgressCallback q s) (map (Report p) qs)).
    rewrite IH by exact Hop.
    unfold initProgressCallback, notifyProgress, broadcasts. cbn.
    rewrite <- !app_assoc. reflexivity.
Qed.

(** C4. [initialize()] is idempotent and de-duplicating. On an initialized
    manager it returns at once and changes nothing; with an initialization in
    flight it hands out that operation and changes nothing; so a second call
    right after a first one is invisible to everything that follows. Two
    calls on a new manager followed by any progress reports and the load's
    success start one load and broadcast one sequence of events, ending with
    one 'ready' event, and the manager is ready. *)
Theorem initialize_idempotent (s : State) (cbs : list nat) (qs : list Q)
    (handle : nat) (later : list Event) :
  (isInitialized s = true -> initialize s = (Immediate, s))
  /\ (forall p, isInitialized s = false -> initPromise s = Some p ->
                initialize s = (Follows p, s))
  /\ initialize (snd (initialize s)) = (fst (initialize s), snd (initialize s))
  /\ run s (CallInitialize :: CallInitialize :: later)
     = run s (CallInitialize :: later)
  /\ let final := run (run fresh (map Subscribe cbs))
                    (CallInitialize :: CallInitialize
                     :: map (Report 0) qs ++ [LoadResolved 0 handle]) in
     loadsStarted final = 1%nat
     /\ dispatched final
        = initializingEvent :: map progressReport qs ++ [readyEvent]
     /\ delivered final
        = broadcasts cbs (initializingEvent :: map progressReport qs ++ [readyEvent])
     /\ countStage ready (dispatched final) = 1%nat
     /\ isReady final = true.
Proof.
  split; [|split; [|split; [|split]]].
  - intros H. unfold initialize. rewrite H. reflexivity.
  - intros p H Hp. unfold initialize. rewrite H, Hp. reflexivity.
  - apply initialize_settled.
  - cbn [run fold_left step]. rewrite initialize_settled. reflexivity.
  - cbv zeta. rewrite run_subscribe.
    cbn [run fold_left step]. rewrite initialize_settled. cbn [snd].
    unfold initialize, doInitialize, notifyProgress.
    cbn [isInitialized initPromise snd engine progressCallbacks operations
         delivered dispatched length app].
    rewrite fold_left_app.
    match goal with
    | |- context [fold_left step (map (Report 0) qs) ?s0] =>
        change (fold_left step (map (Report 0) qs) s0)
          with (run s0 (map (Report 0) qs));
        rewrite (run_reports 0 qs s0 Racing) by reflexivity
    end.
    cbn [fold_left step operations lookup list_lookup raceResolved setOperation
         notifyProgress engine isInitialized initPromise progressCallbacks
         delivered dispatched app list_insert].
    unfold loadsStarted, isReady, countStage.
    cbn [operations dispatched delivered isInitialized engine length andb].
    split; [reflexivity|]. split; [reflexivity|].
    split.
    { unfold broadcasts. cbn [flat_map]. rewrite flat_map_app. cbn [flat_map].
      rewrite app_nil_r, <- !app_assoc. reflexivity. }
    split; [|reflexivity].
    rewrite filter_cons_False by (cbn; discriminate).
    rewrite filter_app, length_app.
    replace (length (filter (fun p => stage p = ready) (map progressReport qs)))
      with 0%nat; [reflexivity|].
    symmetry. apply length_zero_iff_nil.
    induction qs as [|q qs IH]; [reflexivity|]. cbn [map].
    rewrite filter_cons_False; [exact IH|].
    unfold progressReport. cbn. destruct (Qltb q (8 # 10)); discriminate.
Qed.

Lemma lookup_snoc {A : Type} (l : list A) (x : A) : (l ++ [x]) !! length l = Some x.
Proof. rewrite lookup_app_r by lia. rewrite Nat.sub_diag. reflexivity. Qed.

Lemma insert_snoc {A : Type} (l : list A) (x y : A) :
  <[length l := y]> (l ++ [x]) = l ++ [y].
Proof. rewrite insert_app_r_alt by lia. rewrite Nat.sub_diag. reflexivity. Qed.

Lemma run_timeout (s : State) (qs : list Q) :
  isInitialized s = false ->
  initPromise s = None ->
  run s (CallInitialize :: map (Report (length (operations s))) qs
         ++ [TimeoutFired (length (operations s))])
  = {| engine := engine s; isInitialized := false;
       initPromise := Some (length (operations s));
       progressCallbacks := progressCallbacks s;
       operations := operations s
                     ++ [ {| status := Rejected (Some timeoutMessage);
                             loadRunning := true |} ];
       delivered := delivered s
                    ++ broadcasts (progressCallbacks s)
                         (initializingEvent :: map progressReport qs
                          ++ [errorEvent (Some timeoutMessage)]);
       dispatched := dispatched s
                     ++ initializingEvent :: map progressReport qs
                        ++ [errorEvent (Some timeoutMessage)];
       unloading := unloading s |}.
Proof.
  intros Hinit Hp.
  cbn [run fold_left step]. unfold initialize. rewrite Hinit, Hp.
  unfold doInitialize, notifyProgress.
  cbn [isInitialized initPromise snd engine progressCallbacks operations
       delivered dispatched].
  rewrite fold_left_app.
  match goal with
  | |- context [fold_left step (map (Report ?p) qs) ?s0] =>
      change (fold_left step (map (Report p) qs) s0)
        with (run s0 (map (Report p) qs));
      rewrite (run_reports p qs s0 Racing) by apply lookup_snoc
  end.
  cbn [fold_left step operations engine isInitialized initPromise
       progressCallbacks delivered dispatched].
  rewrite lookup_snoc. cbn [status].
  unfold raceRejected, setOperation, notifyProgress.
  cbn [operations engine isInitialized initPromise progressCallbacks delivered
       dispatched loadRunning].
  rewrite insert_snoc.
  f_equal.
  - exact Hinit.
  - unfold broadcasts. cbn [flat_map]. rewrite flat_map_app. cbn [flat_map].
    rewrite app_nil_r, <- !app_assoc. reflexivity.
  - rewrite <- !app_assoc. reflexivity.
Qed.

(** C3, as the code has it. When the 120-second timer wins the race of a
    load started on a manager with nothing in flight, the operation is
    rejected with the error "AI initialization timed out", an error-stage
    progress event is broadcast and [isInitialized] stays false; but
    [initPromise] is not cleared: it still holds the rejected operation, and
    a later [initialize()] hands out that same operation without starting a
    load. *)
Theorem timeout_keeps_operation (s : State) (qs : list Q) :
  isInitialized s = false ->
  initPromise s = None ->
  let p := length (operations s) in
  let timedOut := run s (CallInitialize :: map (Report p) qs ++ [TimeoutFired p]) in
  operations timedOut !! p
  = Some {| status := Rejected (Some timeoutMessage); loadRunning := true |}
  /\ dispatched timedOut
     = dispatched s ++ initializingEvent :: map progressReport qs
                       ++ [errorEvent (Some timeoutMessage)]
  /\ stage (errorEvent (Some timeoutMessage)) = error
  /\ isInitialized timedOut = false
  /\ initPromise timedOut = Some p
  /\ initialize timedOut = (Follows p, timedOut)
  /\ loadsStarted (snd (initialize timedOut)) = S (loadsStarted s).
Proof.
  intros Hinit Hp. cbv zeta. rewrite (run_timeout s qs Hinit Hp).
  unfold initialize, loadsStarted.
  cbn [operations dispatched isInitialized initPromise snd].
  split; [apply lookup_snoc|]. do 5 (split; [reflexivity|]).
  rewrite length_app. cbn [length]. lia.
Qed.

Lemma timeout_keeps_operation_witness :
  operations (run fresh [CallInitialize; Report 0 (1 # 4); TimeoutFired 0]) !! 0%nat
  = Some {| status := Rejected (Some timeoutMessage); loadRunning := true |}
  /\ dispatched (run fresh [CallInitialize; Report 0 (1 # 4); TimeoutFired 0])
     = dispatched fresh ++ initializingEvent :: map progressReport [1 # 4]
                           ++ [errorEvent (Some timeoutMessage)]
  /\ stage (errorEvent (Some timeoutMessage)) = error
  /\ isInitialized (run fresh [CallInitialize; Report 0 (1 # 4); TimeoutFired 0])
     = false
  /\ initPromise (run fresh [CallInitialize; Report 0 (1 # 4); TimeoutFired 0])
     = Some 0%nat
  /\ initialize (run fresh [CallInitialize; Report 0 (1 # 4); TimeoutFired 0])
     = (Follows 0, run fresh [CallInitialize; Report 0 (1 # 4); TimeoutFired 0])
  /\ loadsStarted
       (snd (initialize (run fresh [CallInitialize; Report 0 (1 # 4); TimeoutFired 0])))
     = S (loadsStarted fresh).
Proof.
  apply (timeout_keeps_operation fresh [1 # 4]); reflexivity.
Defined.

(** C3 fails as stated: after the timeout has won, [initPromise] still holds
    the rejected operation, a further [initialize()] returns that operation,
    and the number of loads started stays at one. *)
Lemma timeout_not_retried :
  initPromise (run fresh [CallInitialize; TimeoutFired 0]) = Some 0%nat
  /\ operations (run fresh [CallInitialize; TimeoutFired 0])
     = [ {| status := Rejected (Some (JS.lit "AI initialization timed out"));
            loadRunning := true |} ]
  /\ fst (initialize (run fresh [CallInitialize; TimeoutFired 0])) = Follows 0
  /\ loadsStarted (run fresh [CallInitialize; TimeoutFired 0; CallInitialize])
     = 1%nat
  /\ dispatched (run fresh [CallInitialize; TimeoutFired 0; CallInitialize])
     = [ initializingEvent;
         {| progress := 0; text := JS.lit "AI unavailable"; stage := error |} ].
Proof. repeat split. Qed.

End ManagerProperties.

(** ** Text encoding *)

Section EncodingProperties.

Import Encoding.

Local Open Scope Z_scope.

Ltac boolean_facts :=
  repeat match goal with
         | H : (_ && _)%bool = true |- _ => apply andb_prop in H as [? ?]
         | H : (_ && _)%bool = false |- _ => apply andb_false_iff in H as [?|?]
         | H : negb _ = true |- _ => apply negb_true_iff in H
         | H : negb _ = false |- _ => apply negb_false_iff in H
         | H : (_ <=? _) = true |- _ => apply Z.leb_le in H
         | H : (_ <=? _) = false |- _ => apply Z.leb_gt in H
         | H : (_ <? _) = true |- _ => apply Z.ltb_lt in H
         | H : (_ <? _) = false |- _ => apply Z.ltb_ge in H
         | H : (_ =? _) = true |- _ => apply Z.eqb_eq in H
         | H : (_ =? _) = false |- _ => apply Z.eqb_neq in H
         end.

Ltac arith := boolean_facts; Z.to_euclidean_division_equations; lia.

(** Decides the test of the outermost conditional from the arithmetic
    facts at hand. *)
Ltac settle :=
  match goal with
  | |- context [if ?b then _ else _] =>
      first
        [ let v := eval vm_compute in b in
          match v with
          | true => change b with true
          | false => change b with false
          end; cbv iota
        | let E := fresh "E" in
          destruct b eqn:E; [try (exfalso; arith)|try (exfalso; arith)] ]
  end.

Lemma utf8Lead_ascii (b : Z) : 0 <= b <= 127 -> utf8Lead b = (utf8Initial, [b]).
Proof. intros H. unfold utf8Lead. settle. reflexivity. Qed.

(** The decoder reads back the bytes the encoder writes for a scalar
    value. *)
Lemma utf8Decode_two (b0 b1 : Z) (rest : list Z) :
  194 <= b0 <= 223 -> 128 <= b1 <= 191 ->
  utf8Decode utf8Initial (b0 :: b1 :: rest)
  = (64 * (b0 - 192) + (b1 - 128)) :: utf8Decode utf8Initial rest.
Proof.
  intros H0 H1.
  cbn [utf8Decode]. unfold utf8Handler at 1. settle.
  unfold utf8Lead. settle. settle. cbv iota. cbn [app].
  unfold utf8Handler.
  cbn [bytesNeeded lowerBoundary upperBoundary codePoint bytesSeen].
  settle. settle. settle. reflexivity.
Qed.

Lemma utf8Decode_three (b0 b1 b2 : Z) (rest : list Z) :
  224 <= b0 <= 239 -> 128 <= b1 <= 191 -> 128 <= b2 <= 191 ->
  (b0 = 224 -> 160 <= b1) -> (b0 = 237 -> b1 <= 159) ->
  utf8Decode utf8Initial (b0 :: b1 :: b2 :: rest)
  = (64 * (64 * (b0 - 224) + (b1 - 128)) + (b2 - 128))
    :: utf8Decode utf8Initial rest.
Proof.
  intros H0 H1 H2 Hlo Hhi.
  cbn [utf8Decode]. unfold utf8Handler at 1. settle.
  unfold utf8Lead. settle. settle. settle. cbv iota. cbn [app].
  unfold utf8Handler at 1.
  cbn [bytesNeeded lowerBoundary upperBoundary codePoint bytesSeen].
  settle.
  assert (Hin : ((if b0 =? 224 then 160 else 128) <=? b1)
                && (b1 <=? (if b0 =? 237 then 159 else 191)) = true).
  { apply andb_true_intro. split; apply Z.leb_le.
    - destruct (Z.eqb_spec b0 224); [apply Hlo; assumption|lia].
    - destruct (Z.eqb_spec b0 237); [apply Hhi; assumption|lia]. }
  rewrite Hin. cbn [negb]. cbv iota. settle. cbn [app].
  unfold utf8Handler.
  cbn [bytesNeeded lowerBoundary upperBoundary codePoint bytesSeen].
  settle. settle. settle. reflexivity.
Qed.

Lemma utf8Decode_four (b0 b1 b2 b3 : Z) (rest : list Z) :
  240 <= b0 <= 244 -> 128 <= b1 <= 191 -> 128 <= b2 <= 191 -> 128 <= b3 <= 191 ->
  (b0 = 240 -> 144 <= b1) -> (b0 = 244 -> b1 <= 143) ->
  utf8Decode utf8Initial (b0 :: b1 :: b2 :: b3 :: rest)
  = (64 * (64 * (64 * (b0 - 240) + (b1 - 128)) + (b2 - 128)) + (b3 - 128))
    :: utf8Decode utf8Initial rest.
Proof.
  intros H0 H1 H2 H3 Hlo Hhi.
  cbn [utf8Decode]. unfold utf8Handler at 1. settle.
  unfold utf8Lead. settle. settle. settle. settle. cbv iota. cbn [app].
  unfold utf8Handler at 1.
  cbn [bytesNeeded lowerBoundary upperBoundary codePoint bytesSeen].
  settle.
  assert (Hin : ((if b0 =? 240 then 144 else 128) <=? b1)
                && (b1 <=? (if b0 =? 244 then 143 else 191)) = true).
  { apply andb_true_intro. split; apply Z.leb_le.
    - destruct (Z.eqb_spec b0 240); [apply Hlo; assumption|lia].
    - destruct (Z.eqb_spec b0 244); [apply Hhi; assumption|lia]. }
  rewrite Hin. cbn [negb]. cbv iota. settle. cbn [app].
  unfold utf8Handler at 1.
  cbn [bytesNeeded lowerBoundary upperBoundary codePoint bytesSeen].
  settle. settle. settle. cbn [app].
  unfold utf8Handler.
  cbn [bytesNeeded lowerBoundary upperBoundary codePoint bytesSeen].
  settle. settle. settle. reflexivity.
Qed.

Lemma utf8Decode_encode (c : Z) (rest : list Z) :
  isScalar c ->
  utf8Decode utf8Initial (utf8EncodeScalar c ++ rest)
  = c :: utf8Decode utf8Initial rest.
Proof.
  intros Hc. unfold isScalar in Hc. unfold utf8EncodeScalar.
  destruct (Z.leb_spec c 127).
  { cbn [app utf8Decode]. unfold utf8Handler. settle.
    rewrite utf8Lead_ascii by lia. reflexivity. }
  destruct (Z.leb_spec c 2047).
  { cbn [app]. rewrite utf8Decode_two by arith. f_equal. arith. }
  destruct (Z.leb_spec c 65535).
  { cbn [app]. rewrite utf8Decode_three by arith. f_equal. arith. }
  cbn [app]. rewrite utf8Decode_four by arith. f_equal. arith.
Qed.

Lemma utf8Decode_encode_all (cps : list Z) :
  Forall isScalar cps ->
  utf8Decode utf8Initial (flat_map utf8EncodeScalar cps) = cps.
Proof.
  induction 1 as [|c cps Hc Hcps IH]; [reflexivity|].
  cbn [flat_map]. rewrite utf8Decode_encode by exact Hc. rewrite IH. reflexivity.
Qed.

(** Well-formed strings are built from single code units that are not
    surrogates and from surrogate pairs. *)
Lemma isWellFormed_ind (Q : jsstring -> Prop) :
  Q [] ->
  (forall c t, isHighSurrogate c = false -> isLowSurrogate c = false ->
               0 <= c < 65536 -> isWellFormed t = true -> Q t -> Q (c :: t)) ->
  (forall c d t, isHighSurrogate c = true -> isLowSurrogate d = true ->
                 isWellFormed t = true -> Q t -> Q (c :: d :: t)) ->
  forall s, isWellFormed s = true -> Q s.
Proof.
  intros Hnil Hone Hpair s.
  remember (length s) as n eqn:Hn. revert s Hn.
  induction n as [n IH] using lt_wf_ind. intros s Hn Hwf.
  destruct s as [|c t]; [exact Hnil|].
  cbn [isWellFormed] in Hwf.
  destruct (isHighSurrogate c) eqn:Hhigh.
  - destruct t as [|d t']; [discriminate|].
    apply andb_prop in Hwf as [Hlow Hwf].
    apply Hpair; try assumption.
    apply (IH (length t')); [cbn [length] in Hn; lia|reflexivity|exact Hwf].
  - apply andb_prop in Hwf as [Hwf Ht]. apply andb_prop in Hwf as [Hwf Hhi].
    apply andb_prop in Hwf as [Hlow Hlo].
    apply negb_true_iff in Hlow.
    apply Hone; try assumption; [arith|].
    apply (IH (length t)); [cbn [length] in Hn; lia|reflexivity|exact Ht].
Qed.

Lemma toScalarValues_scalar (s : jsstring) :
  isWellFormed s = true -> Forall isScalar (toScalarValues s).
Proof.
  apply (isWellFormed_ind (fun s => Forall isScalar (toScalarValues s))).
  - constructor.
  - intros c t Hhigh Hlow Hc Ht IH. cbn [toScalarValues].
    rewrite Hhigh, Hlow. constructor; [|exact IH].
    unfold isScalar, isHighSurrogate, isLowSurrogate in *. arith.
  - intros c d t Hhigh Hlow Ht IH. cbn [toScalarValues].
    rewrite Hhigh, Hlow. constructor; [|exact IH].
    unfold isScalar, isHighSurrogate, isLowSurrogate in *. arith.
Qed.

Lemma fromScalarValue_toScalarValues (s : jsstring) :
  isWellFormed s = true -> flat_map fromScalarValue (toScalarValues s) = s.
Proof.
  apply (isWellFormed_ind
           (fun s => flat_map fromScalarValue (toScalarValues s) = s)).
  - reflexivity.
  - intros c t Hhigh Hlow Hc Ht IH. cbn [toScalarValues].
    rewrite Hhigh, Hlow. cbn [flat_map]. rewrite IH.
    unfold fromScalarValue. destruct (Z.ltb_spec c 65536); [reflexivity|lia].
  - intros c d t Hhigh Hlow Ht IH. cbn [toScalarValues].
    rewrite Hhigh, Hlow. cbn [flat_map]. rewrite IH.
    unfold fromScalarValue, isHighSurrogate, isLowSurrogate in *.
    destruct (Z.ltb_spec (65536 + (c - 55296) * 1024 + (d - 56320)) 65536);
      [arith|].
    cbn [app]. f_equal; [arith|]. f_equal. arith.
Qed.

(** The first code point of a well-formed string is U+FEFF only when its
    first code unit is. *)
Lemma toScalarValues_head (s : jsstring) :
  isWellFormed s = true -> head s <> Some BOM ->
  head (toScalarValues s) <> Some BOM.
Proof.
  destruct s as [|c t]; [intros _ H; exact H|].
  intros Hwf Hhead. cbn [isWellFormed toScalarValues] in *.
  destruct (isHighSurrogate c) eqn:Hhigh.
  - destruct t as [|d t']; [discriminate|].
    apply andb_prop in Hwf as [Hlow _]. rewrite Hlow. cbn [head].
    unfold isHighSurrogate, isLowSurrogate, BOM in *. intros [= E]. arith.
  - apply andb_prop in Hwf as [Hwf _]. apply andb_prop in Hwf as [Hwf _].
    apply andb_prop in Hwf as [Hlow _]. apply negb_true_iff in Hlow.
    rewrite Hlow. exact Hhead.
Qed.

(** Decoding what the encoder wrote gives the string back, for a
    well-formed string that does not begin with U+FEFF. *)
Lemma TextDecoder_TextEncoder (s : jsstring) :
  isWellFormed s = true -> head s <> Some BOM ->
  TextDecoder_decode (TextEncoder_encode s) = s.
Proof.
  intros Hwf Hhead. unfold TextDecoder_decode, TextEncoder_encode.
  rewrite utf8Decode_encode_all by (apply toScalarValues_scalar; exact Hwf).
  pose proof (toScalarValues_head s Hwf Hhead) as Hcp.
  rewrite <- (fromScalarValue_toScalarValues s Hwf) at 2.
  destruct (toScalarValues s) as [|c cps]; [reflexivity|].
  destruct (Z.eqb_spec c BOM) as [->|_]; [|reflexivity].
  exfalso. apply Hcp. reflexivity.
Qed.

End EncodingProperties.

(** ** At-rest encryption *)

Lemma trim_truthy (s : jsstring) : JS.truthy (JS.trim s) = true -> JS.truthy s = true.
Proof. destruct s; [discriminate|reflexivity]. Qed.

Lemma trim_cons_truthy (c : Z) (s : jsstring) :
  JS.isWhiteSpace c = false -> JS.truthy (JS.trim (c :: s)) = true.
Proof.
  intros Hc. unfold JS.trim, JS.trimEnd. cbn [JS.trimStart]. rewrite Hc.
  cbn [rev].
  assert (H : forall l, JS.trimStart (l ++ [c]) <> []).
  { induction l as [|d l IH]; cbn [app JS.trimStart].
    - rewrite Hc. discriminate.
    - destruct (JS.isWhiteSpace d); [exact IH|discriminate]. }
  specialize (H (rev s)).
  destruct (JS.trimStart (rev s ++ [c])) as [|d l] eqn:E; [contradiction|].
  cbn [rev]. destruct (rev l); reflexivity.
Qed.

Lemma Reference_laws : PlatformLaws Reference.platform.
Proof.
  split; cbn [aesGcmEncrypt aesGcmDecrypt btoa atob JSON_stringify JSON_parse
              Reference.platform].
  - intros key iv data. unfold Reference.sealDecrypt, Reference.sealEncrypt.
    rewrite take_app_length, drop_app_length.
    rewrite bool_decide_eq_true_2 by reflexivity. reflexivity.
  - reflexivity.
  - intros bytes H. exact H.
  - intros [e s i]. unfold Reference.stringify, Reference.parse.
    cbn [encryptedData salt iv]. rewrite !Nat2Z.id.
    rewrite take_app_length, drop_app_length, take_app_length.
    rewrite drop_app_add', drop_app_length by reflexivity. reflexivity.
  - intros b. unfold Reference.stringify. apply trim_cons_truthy. reflexivity.
Qed.

Lemma Reference_authentic : Authentic Reference.platform.
Proof.
  intros key key' iv data Hne.
  cbn [aesGcmEncrypt aesGcmDecrypt Reference.platform].
  unfold Reference.sealDecrypt, Reference.sealEncrypt.
  rewrite bool_decide_eq_false_2; [reflexivity|].
  intros H. apply Hne.
  unfold Reference.sealWith in H. cbn [length app] in H.
  rewrite firstn_cons in H. injection H as Hlen Htake.
  apply Nat2Z.inj in Hlen.
  rewrite length_app, <- Hlen in Htake.
  rewrite <- !app_assoc in Htake.
  rewrite take_app_add' in Htake by reflexivity.
  apply app_inj_1 in Htake as [Hk _]; [exact Hk|exact Hlen].
Qed.

Section EncryptionProperties.

Variable P : Platform.
Hypothesis laws : PlatformLaws P.

Lemma encrypt_passwordless (content : jsstring) (w : World) :
  quotaExceeded w = false ->
  encrypt P content None w = (Ok (blobOf P content w), afterEncrypt P w).
Proof.
  intros Hq. unfold encrypt, bind, getRandomValues, generateKey, storeKey,
    setItem, ret, given, arrayBufferToBase64.
  cbn [localStorage quotaExceeded entropy drawn].
  unfold getRandomValues. cbn [localStorage quotaExceeded entropy drawn].
  unfold afterEncrypt. rewrite Hq. reflexivity.
Qed.


Lemma nextKey_length (w : World) : length (nextKey w) = 32%nat.
Proof. unfold nextKey. rewrite length_map, length_seq. reflexivity. Qed.

Lemma retrieveKey_slot (key : list Z) (w : World) :
  localStorage w !! CAPSULE_KEY = Some (btoa P key) ->
  length key = 32%nat ->
  retrieveKey P w = (Ok key, w).
Proof.
  intros Hslot Hlen.
  unfold retrieveKey, bind, getItem. rewrite Hslot.
  assert (Hne : btoa P key <> []).
  { apply (btoa_truthy P laws). intros ->. discriminate. }
  destruct (btoa P key) as [|c t] eqn:E; [contradiction|].
  cbn [JS.truthy negb]. rewrite <- E.
  unfold bind, base64ToArrayBuffer. rewrite (atob_btoa P laws).
  unfold ret, importKey. rewrite Hlen.
  rewrite bool_decide_eq_true_2
    by (apply list_elem_of_further, list_elem_of_further, list_elem_of_here).
  reflexivity.
Qed.

(** Passwordless [decrypt] of base64 texts in a world whose key slot holds
    the base64 text of a 256-bit key. *)
Lemma decrypt_passwordless (key bytes s i : list Z) (w : World) :
  localStorage w !! CAPSULE_KEY = Some (btoa P key) ->
  length key = 32%nat ->
  decrypt P (btoa P bytes) (btoa P s) (btoa P i) None w
  = match aesGcmDecrypt P key i bytes with
    | Some data => (Ok (Encoding.TextDecoder_decode data), w)
    | None => (Throw (JS.lit "OperationError"), w)
    end.
Proof.
  intros Hslot Hlen.
  unfold decrypt, bind, base64ToArrayBuffer, given.
  rewrite !(atob_btoa P laws). unfold ret.
  rewrite (retrieveKey_slot key w Hslot Hlen).
  destruct (aesGcmDecrypt P key i bytes); reflexivity.
Qed.

Lemma afterEncrypt_slot (w : World) :
  localStorage (afterEncrypt P w) !! CAPSULE_KEY = Some (btoa P (nextKey w)).
Proof. unfold afterEncrypt. cbn [localStorage]. apply lookup_insert_eq. Qed.

(** What passwordless decryption makes of the blob of [x], right after the
    encryption that produced it. *)
Lemma decrypt_after_encrypt (x : jsstring) (w : World) :
  decrypt P (encryptedData (blobOf P x w)) (salt (blobOf P x w))
    (iv (blobOf P x w)) None (afterEncrypt P w)
  = (Ok (Encoding.TextDecoder_decode (Encoding.TextEncoder_encode x)),
     afterEncrypt P w).
Proof.
  unfold blobOf. cbn [encryptedData salt iv].
  rewrite (decrypt_passwordless (nextKey w))
    by (apply afterEncrypt_slot || apply nextKey_length).
  rewrite (gcm_correct P laws). reflexivity.
Qed.

(** C2, as the code has it. For every non-empty string [x] that is
    well-formed UTF-16 and does not begin with U+FEFF (newlines and Unicode
    punctuation included), passwordless [decrypt] of the triple that
    [encrypt(x)] returned, with the key that call stored, resolves with [x]. *)
Theorem decrypt_encrypt_roundtrip (x : jsstring) (w : World) :
  quotaExceeded w = false ->
  x <> [] ->
  Encoding.isWellFormed x = true ->
  head x <> Some Encoding.BOM ->
  exists blob w',
    encrypt P x None w = (Ok blob, w')
    /\ decrypt P (encryptedData blob) (salt blob) (iv blob) None w' = (Ok x, w').
Proof.
  intros Hq _ Hwf Hhead.
  exists (blobOf P x w), (afterEncrypt P w).
  split; [apply encrypt_passwordless; exact Hq|].
  rewrite decrypt_after_encrypt.
  rewrite TextDecoder_TextEncoder by assumption. reflexivity.
Qed.

(** C10. A passwordless [encrypt] stores a freshly drawn key in the one key
    slot, over whatever was there. So after [encrypt(x)] and then
    [encrypt(y)], the slot holds the key of the second call; if that key
    differs from the first and AES-GCM rejects a ciphertext under a wrong
    key, passwordless decryption of the blob of [x] fails, and
    [getCapsuleContent] answers with the sentinel instead of [x]. *)
Theorem second_encrypt_locks_first (x y : jsstring) (w : World)
    (capsule : Capsule.TimeCapsule) :
  Authentic P ->
  quotaExceeded w = false ->
  nextKey w <> nextKey (afterEncrypt P w) ->
  Capsule.isEncrypted capsule = true ->
  Capsule.encryptedContent capsule = Some (JSON_stringify P (blobOf P x w)) ->
  let w1 := afterEncrypt P w in
  let w2 := afterEncrypt P w1 in
  encrypt P x None w = (Ok (blobOf P x w), w1)
  /\ encrypt P y None w1 = (Ok (blobOf P y w1), w2)
  /\ localStorage w1 !! CAPSULE_KEY = Some (btoa P (nextKey w))
  /\ localStorage w2 !! CAPSULE_KEY = Some (btoa P (nextKey w1))
  /\ decrypt P (encryptedData (blobOf P x w)) (salt (blobOf P x w))
       (iv (blobOf P x w)) None w2
     = (Throw (JS.lit "OperationError"), w2)
  /\ Capsule.getCapsuleContent P (Some capsule) w2
     = (Ok Capsule.SENTINEL_UNABLE, w2).
Proof.
  intros Hauth Hq Hfresh Henc Hcontent. cbv zeta.
  assert (Hdec : decrypt P (encryptedData (blobOf P x w)) (salt (blobOf P x w))
                   (iv (blobOf P x w)) None (afterEncrypt P (afterEncrypt P w))
                 = (Throw (JS.lit "OperationError"),
                    afterEncrypt P (afterEncrypt P w))).
  { unfold blobOf at 1 2 3. cbn [encryptedData salt iv].
    rewrite (decrypt_passwordless (nextKey (afterEncrypt P w)))
      by (apply afterEncrypt_slot || apply nextKey_length).
    rewrite Hauth by exact Hfresh. reflexivity. }
  split; [apply encrypt_passwordless; exact Hq|].
  split; [apply encrypt_passwordless; exact Hq|].
  split; [apply afterEncrypt_slot|]. split; [apply afterEncrypt_slot|].
  split; [exact Hdec|].
  unfold Capsule.getCapsuleContent. rewrite Henc, Hcontent.
  pose proof (stringify_not_blank P laws (blobOf P x w)) as Hblank.
  cbn [negb orb Capsule.falsy default from_option]. unfold Datatypes.id.
  rewrite (trim_truthy _ Hblank), Hblank. cbn [negb].
  rewrite (parse_stringify P laws).
  destruct (negb (JS.truthy (encryptedData (blobOf P x w)))
            || negb (JS.truthy (salt (blobOf P x w)))
            || negb (JS.truthy (iv (blobOf P x w)))); [reflexivity|].
  unfold Capsule.catching. rewrite Hdec. reflexivity.
Qed.

End EncryptionProperties.

Lemma decrypt_encrypt_roundtrip_witness :
  exists blob w',
    encrypt Reference.platform [72; 105; 10; 8212; 55357; 56832]%Z
      None Reference.world = (Ok blob, w')
    /\ decrypt Reference.platform (encryptedData blob) (salt blob) (iv blob)
         None w'
       = (Ok [72; 105; 10; 8212; 55357; 56832]%Z, w').
Proof.
  apply (decrypt_encrypt_roundtrip Reference.platform Reference_laws
           [72; 105; 10; 8212; 55357; 56832]%Z Reference.world).
  - reflexivity.
  - discriminate.
  - reflexivity.
  - discriminate.
Defined.

(** C2 fails as stated. A leading U+FEFF does not survive the round trip
    (the decoder drops it as a byte order mark), and an unpaired surrogate
    comes back as U+FFFD: for the non-empty strings U+FEFF "Hi" and U+D83D
    the decrypted texts are "Hi" and U+FFFD. *)
Lemma decrypt_encrypt_not_identity :
  (exists blob w',
      encrypt Reference.platform [65279; 72; 105]%Z None Reference.world
      = (Ok blob, w')
      /\ decrypt Reference.platform (encryptedData blob) (salt blob) (iv blob)
           None w' = (Ok [72; 105]%Z, w'))
  /\ (exists blob w',
         encrypt Reference.platform [55357]%Z None Reference.world
         = (Ok blob, w')
         /\ decrypt Reference.platform (encryptedData blob) (salt blob) (iv blob)
              None w' = (Ok [65533]%Z, w')).
Proof.
  split.
  - exists (blobOf Reference.platform [65279; 72; 105]%Z Reference.world),
      (afterEncrypt Reference.platform Reference.world).
    split; [apply encrypt_passwordless; reflexivity|].
    rewrite (decrypt_after_encrypt Reference.platform Reference_laws).
    reflexivity.
  - exists (blobOf Reference.platform [55357]%Z Reference.world),
      (afterEncrypt Reference.platform Reference.world).
    split; [apply encrypt_passwordless; reflexivity|].
    rewrite (decrypt_after_encrypt Reference.platform Reference_laws).
    reflexivity.
Qed.

(** The same on every platform that keeps its contracts. *)
Lemma decrypt_encrypt_byte_order_mark (P : Platform) (w : World) :
  PlatformLaws P -> quotaExceeded w = false ->
  exists blob w',
    encrypt P [65279; 72; 105]%Z None w = (Ok blob, w')
    /\ decrypt P (encryptedData blob) (salt blob) (iv blob) None w'
       = (Ok [72; 105]%Z, w').
Proof.
  intros laws Hq.
  exists (blobOf P [65279; 72; 105]%Z w), (afterEncrypt P w).
  split; [apply encrypt_passwordless; exact Hq|].
  rewrite (decrypt_after_encrypt P laws). reflexivity.
Qed.

Lemma second_encrypt_locks_first_witness :
  let P := Reference.platform in
  let w := Reference.world in
  let x := JS.lit "The key is under the oak" in
  let y := JS.lit "Second letter" in
  let capsule :=
    Capsule.setContent Capsule.ENCRYPTED_MARKER
      (Some (JSON_stringify P (blobOf P x w))) Sample.secretCapsule in
  let w1 := afterEncrypt P w in
  let w2 := afterEncrypt P w1 in
  encrypt P x None w = (Ok (blobOf P x w), w1)
  /\ encrypt P y None w1 = (Ok (blobOf P y w1), w2)
  /\ localStorage w1 !! CAPSULE_KEY = Some (btoa P (nextKey w))
  /\ localStorage w2 !! CAPSULE_KEY = Some (btoa P (nextKey w1))
  /\ decrypt P (encryptedData (blobOf P x w)) (salt (blobOf P x w))
       (iv (blobOf P x w)) None w2
     = (Throw (JS.lit "OperationError"), w2)
  /\ Capsule.getCapsuleContent P (Some capsule) w2
     = (Ok Capsule.SENTINEL_UNABLE, w2).
Proof.
  cbv zeta.
  apply (second_encrypt_locks_first Reference.platform Reference_laws
           (JS.lit "The key is under the oak") (JS.lit "Second letter")
           Reference.world
           (Capsule.setContent Capsule.ENCRYPTED_MARKER
              (Some (JSON_stringify Reference.platform
                       (blobOf Reference.platform
                          (JS.lit "The key is under the oak") Reference.world)))
              Sample.secretCapsule)).
  - exact Reference_authentic.
  - reflexivity.
  - intros H. vm_compute in H. discriminate H.
  - reflexivity.
  - reflexivity.
Defined.

(** ** Capsules at rest *)

Lemma trimStart_shape (s : jsstring) :
  JS.trimStart s = []
  \/ exists c r, JS.trimStart s = c :: r /\ JS.isWhiteSpace c = false.
Proof.
  induction s as [|c t IH]; [left; reflexivity|].
  cbn [JS.trimStart]. destruct (JS.isWhiteSpace c) eqn:E; [exact IH|].
  right. exists c, t. split; [reflexivity|exact E].
Qed.

Lemma trimStart_snoc (l : jsstring) (d : Z) :
  JS.isWhiteSpace d = false -> exists l', JS.trimStart (l ++ [d]) = l' ++ [d].
Proof.
  intros Hd. induction l as [|c l IH]; cbn [app JS.trimStart].
  - rewrite Hd. exists []. reflexivity.
  - destruct (JS.isWhiteSpace c); [exact IH|]. exists (c :: l). reflexivity.
Qed.

(** A trimmed string is left as it is by [trim]. *)
Lemma trim_idempotent (s : jsstring) : JS.trim (JS.trim s) = JS.trim s.
Proof.
  unfold JS.trim at 2 3. unfold JS.trimEnd.
  destruct (trimStart_shape s) as [E|(d & u & E & Hd)]; rewrite E; [reflexivity|].
  cbn [rev].
  destruct (trimStart_snoc (rev u) d Hd) as [l' El].
  destruct (trimStart_shape (rev u ++ [d])) as [E2|(c & r & E2 & Hc)].
  { rewrite El in E2. destruct l'; discriminate. }
  rewrite El, rev_app_distr. cbn [rev app].
  unfold JS.trim, JS.trimEnd. cbn [JS.trimStart]. rewrite Hd.
  change (d :: rev l') with ([d] ++ rev l').
  rewrite rev_app_distr, rev_involutive. cbn [rev app].
  rewrite <- El, E2. cbn [JS.trimStart]. rewrite Hc.
  rewrite <- E2, El, rev_app_distr. reflexivity.
Qed.

Section CapsuleProperties.

Import Capsule.

Variable P : Platform.

Lemma sanitizeText_trimmed (input : jsstring) :
  JS.trim (sanitizeText input) = sanitizeText input.
Proof.
  unfold sanitizeText. destruct (negb (JS.truthy input)); [reflexivity|].
  apply trim_idempotent.
Qed.

Lemma encryptCapsuleContent_settles (capsule : TimeCapsule) (w : World) :
  content capsule <> [] ->
  JS.trim (content capsule) = content capsule ->
  encryptCapsuleContent P capsule w
  = match encrypt P (content capsule) None w with
    | (Ok blob, w') =>
        (Ok (setContent ENCRYPTED_MARKER (Some (JSON_stringify P blob)) capsule), w')
    | (Throw _, w') => (Ok capsule, w')
    end.
Proof.
  intros Hne Htrim. unfold encryptCapsuleContent. rewrite Htrim.
  destruct (content capsule) as [|c t] eqn:E; [contradiction|].
  cbn [JS.truthy andb negb orb length Nat.eqb].
  unfold catching, bind.
  destruct (encrypt P (c :: t) None w) as [[blob|e] w']; reflexivity.
Qed.

Lemma sanitized_content (obj : TimeCapsule) :
  validateTimeCapsule (sanitizeTimeCapsule obj) = true ->
  content (sanitizeTimeCapsule obj) <> []
  /\ JS.trim (content (sanitizeTimeCapsule obj)) = content (sanitizeTimeCapsule obj).
Proof.
  intros Hvalid. split.
  - unfold validateTimeCapsule in Hvalid.
    do 5 (apply andb_prop in Hvalid as [Hvalid _]).
    apply andb_prop in Hvalid as [_ Hvalid].
    apply Nat.leb_le in Hvalid.
    destruct (content (sanitizeTimeCapsule obj)); [cbn [length] in Hvalid; lia|].
    discriminate.
  - apply sanitizeText_trimmed.
Qed.

(** With encryption requested for a valid capsule, the ['creating'] hook
    returns the promise of [encryptCapsuleContent] on the sanitized object. *)
Lemma creatingHook_requested (obj : TimeCapsule) :
  isEncrypted obj = true ->
  falsy (encryptedContent obj) = true ->
  validateTimeCapsule (sanitizeTimeCapsule obj) = true ->
  creatingHook P obj
  = Ok (sanitizeTimeCapsule obj,
        Promise (encryptCapsuleContent P (sanitizeTimeCapsule obj))).
Proof.
  intros Henc Hnone Hvalid.
  destruct (sanitized_content obj Hvalid) as [Hne _].
  unfold creatingHook. rewrite Hvalid. cbn [negb].
  change (isEncrypted (sanitizeTimeCapsule obj)) with (isEncrypted obj).
  change (encryptedContent (sanitizeTimeCapsule obj)) with (encryptedContent obj).
  rewrite Henc, Hnone.
  destruct (content (sanitizeTimeCapsule obj)); [contradiction|reflexivity].
Qed.


(** The ['updating'] hook sanitizes the modifications in place and, for an
    encrypted capsule and a content that is not empty once sanitized,
    returns the promise of [encryptCapsuleContent] on a temporary copy: the
    modifications keep the sanitized plaintext. *)
Lemma updatingHook_keeps_plaintext (content' : jsstring) (obj : TimeCapsule) :
  fst (updatingHook P (Some content') obj) = Some (sanitizeText content')
  /\ (isEncrypted obj = true -> sanitizeText content' <> [] ->
      snd (updatingHook P (Some content') obj)
      = Promise (encryptCapsuleContent P
                   (setContent (sanitizeText content') (encryptedContent obj) obj))).
Proof.
  unfold updatingHook. cbn [fmap option_fmap option_map].
  split.
  - destruct (JS.truthy (sanitizeText content') && isEncrypted obj); reflexivity.
  - intros -> Hne. destruct (sanitizeText content'); [contradiction|reflexivity].
Qed.

(** What [add] does without a request for encryption, and [update] with a
    content that differs from the stored one. *)
Lemma add_without_request (obj : TimeCapsule) (tbl : CapsuleTable.t) :
  validateTimeCapsule (sanitizeTimeCapsule obj) = true ->
  isEncrypted obj && falsy (encryptedContent obj) = false ->
  CapsuleTable.add P true obj tbl
  = (Ok (CapsuleTable.nextId tbl),
     {| CapsuleTable.rows :=
          <[CapsuleTable.nextId tbl := sanitizeTimeCapsule obj]> (CapsuleTable.rows tbl);
        CapsuleTable.nextId := S (CapsuleTable.nextId tbl) |},
     Undefined).
Proof.
  intros Hvalid Hreq. unfold CapsuleTable.add, creatingHook.
  rewrite Hvalid. cbn [negb].
  change (isEncrypted (sanitizeTimeCapsule obj)) with (isEncrypted obj).
  change (encryptedContent (sanitizeTimeCapsule obj)) with (encryptedContent obj).
  replace (isEncrypted obj && JS.truthy (content (sanitizeTimeCapsule obj))
           && falsy (encryptedContent obj)) with false; [reflexivity|].
  destruct (isEncrypted obj), (falsy (encryptedContent obj));
    try discriminate Hreq; rewrite ?andb_false_r; reflexivity.
Qed.

Lemma update_changed (key : nat) (y : jsstring) (obj : TimeCapsule)
    (tbl : CapsuleTable.t) :
  CapsuleTable.rows tbl !! key = Some obj ->
  content obj <> y ->
  CapsuleTable.update P true key y tbl
  = (Ok 1%nat,
     {| CapsuleTable.rows :=
          <[key := setContent y (encryptedContent obj) obj]> (CapsuleTable.rows tbl);
        CapsuleTable.nextId := CapsuleTable.nextId tbl |},
     snd (updatingHook P (Some y) obj)).
Proof.
  intros Hrow Hne. unfold CapsuleTable.update. rewrite Hrow.
  rewrite bool_decide_eq_false_2 by exact Hne. reflexivity.
Qed.

End CapsuleProperties.



(** * Further properties

    Properties of the embedded code beyond the specification's claims: of
    the manager under arbitrary event sequences, of the two generation
    tiers, of the sanitizers and validators, of cloning, synthesis, removal
    and upkeep of voice models, of reading capsules back, and of the retry
    accounting. *)

(** ** The manager under arbitrary events *)

Section ManagerRuns.

Import Manager.

Lemma countStage_app (st : Stage) (l k : list AILoadingProgress) :
  countStage st (l ++ k) = (countStage st l + countStage st k)%nat.
Proof. unfold countStage. rewrite filter_app, length_app. reflexivity. Qed.

Lemma countStage_progressReport (q : Q) :
  countStage ready [progressReport q] = 0%nat.
Proof.
  unfold countStage, progressReport.
  rewrite filter_cons_False; [reflexivity|].
  cbn. destruct (Qltb q (8 # 10)); discriminate.
Qed.

Lemma failedOnce_step (s : State) (e : Event) : failedOnce s -> failedOnce (step s e).
Proof.
  intros (He & Hi & Hp & (reason & r & Hops) & Hc & Hu).
  assert (Hkeep : forall s', engine s' = engine s -> isInitialized s' = isInitialized s ->
            initPromise s' = initPromise s ->
            (exists r', operations s'
               = [ {| status := Rejected reason; loadRunning := r' |} ]) ->
            countStage ready (dispatched s') = 0%nat ->
            unloading s' = unloading s -> failedOnce s').
  { intros s' H1 H2 H3 [r' H4] H5 H6. unfold failedOnce.
    rewrite H1, H2, H3, H4, H6. repeat split; try assumption.
    exists reason, r'. reflexivity. }
  assert (Hsame : failedOnce s).
  { apply Hkeep; try reflexivity; [exists r; exact Hops|exact Hc]. }
  destruct e as [|cb|cb|p q|p handle|p reason'|p|p| |resolved]; cbn [step].
  - unfold initialize. rewrite Hi, Hp. exact Hsame.
  - apply Hkeep; try reflexivity; [exists r; exact Hops|exact Hc].
  - apply Hkeep; try reflexivity; [exists r; exact Hops|exact Hc].
  - rewrite Hops. destruct p as [|p]; cbn [lookup list_lookup].
    + cbn [loadRunning]. destruct r; [|exact Hsame].
      apply Hkeep; try reflexivity; [exists true; exact Hops|].
      unfold initProgressCallback, notifyProgress. cbn [dispatched].
      rewrite countStage_app, Hc, countStage_progressReport. reflexivity.
    + exact Hsame.
  - rewrite Hops. destruct p as [|p]; cbn [lookup list_lookup].
    + destruct r; [|exact Hsame].
      apply Hkeep; try reflexivity; [|exact Hc].
      exists false. unfold setOperation. cbn [operations]. rewrite Hops. reflexivity.
    + exact Hsame.
  - rewrite Hops. destruct p as [|p]; cbn [lookup list_lookup].
    + destruct r; [|exact Hsame].
      apply Hkeep; try reflexivity; [|exact Hc].
      exists false. unfold setOperation. cbn [operations]. rewrite Hops. reflexivity.
    + exact Hsame.
  - rewrite Hops. destruct p as [|p]; cbn [lookup list_lookup].
    + cbn [status]. exact Hsame.
    + exact Hsame.
  - rewrite Hops. destruct p as [|p]; cbn [lookup list_lookup].
    + exact Hsame.
    + exact Hsame.
  - unfold unload. rewrite He. exact Hsame.
  - unfold unloadSettled. rewrite Hu. exact Hsame.
Qed.

Lemma failedOnce_run (es : list Event) (s : State) :
  failedOnce s -> failedOnce (run s es).
Proof.
  revert s. induction es as [|e es IH]; intros s H; [exact H|].
  cbn [run fold_left]. apply (IH (step s e)). apply failedOnce_step. exact H.
Qed.

Lemma countStage_reports (qs : list Q) :
  countStage ready (map progressReport qs) = 0%nat.
Proof.
  induction qs as [|q qs IH]; [reflexivity|].
  cbn [map]. change (progressReport q :: map progressReport qs)
    with ([progressReport q] ++ map progressReport qs).
  rewrite countStage_app, countStage_progressReport, IH. reflexivity.
Qed.

Lemma run_app (s : State) (es fs : list Event) :
  run s (es ++ fs) = run (run s es) fs.
Proof. unfold run. apply fold_left_app. Qed.

Lemma failedOnce_first (qs : list Q) (f : option (option jsstring)) :
  failedOnce (run fresh (CallInitialize :: map (Report 0) qs ++ [loadFailure f])).
Proof.
  change (CallInitialize :: map (Report 0) qs ++ [loadFailure f])
    with ([CallInitialize] ++ map (Report 0) qs ++ [loadFailure f]).
  rewrite !run_app.
  change (run fresh [CallInitialize])
    with {| engine := None; isInitialized := false; initPromise := Some 0%nat;
            progressCallbacks := [];
            operations := [ {| status := Racing; loadRunning := true |} ];
            delivered := []; dispatched := [initializingEvent];
            unloading := 0 |}.
  rewrite (run_reports 0 qs _ Racing) by reflexivity.
  cbn [engine isInitialized initPromise progressCallbacks operations delivered
       dispatched unloading].
  destruct f as [reason|]; cbn [loadFailure run fold_left step operations lookup
                                 list_lookup status];
    unfold raceRejected, setOperation, notifyProgress, failedOnce;
    cbn [engine isInitialized initPromise progressCallbacks operations delivered
         dispatched loadRunning list_insert unloading];
    (split; [reflexivity|]; split; [reflexivity|]; split; [reflexivity|];
     split; [eexists; eexists; reflexivity|]; split; [|reflexivity]);
    change (initializingEvent :: map progressReport qs)
      with ([initializingEvent] ++ map progressReport qs);
    rewrite !countStage_app, countStage_reports; reflexivity.
Qed.

(** X1. A failed first initialization is permanent. Once the first load of a
    new manager has failed, because the timer won the race or because
    [CreateMLCEngine] rejected, no later sequence of calls and events
    (further [initialize()] calls, [unload()], subscriptions, progress
    reports, the load settling late) makes the manager ready, starts a second
    load or broadcasts a 'ready' event: [initPromise] keeps the rejected
    operation and [initialize()] hands it out again. *)
Theorem failed_initialization_is_permanent (qs : list Q)
    (f : option (option jsstring)) (later : list Event) :
  let failed := run fresh (CallInitialize :: map (Report 0) qs ++ [loadFailure f]) in
  let final := run failed later in
  isReady final = false
  /\ initPromise final = Some 0%nat
  /\ initialize final = (Follows 0, final)
  /\ loadsStarted final = 1%nat
  /\ countStage ready (dispatched final) = 0%nat.
Proof.
  cbv zeta.
  destruct (failedOnce_run later _ (failedOnce_first qs f))
    as (He & Hi & Hp & (reason & r & Hops) & Hc & _).
  unfold isReady, initialize, loadsStarted. rewrite Hi, Hp, Hops.
  split; [reflexivity|]. split; [reflexivity|]. split; [reflexivity|].
  split; [reflexivity|exact Hc].
Qed.


Lemma broadcasts_nil (cbs : list nat) : broadcasts cbs [] = [].
Proof. reflexivity. Qed.

Lemma broadcasts_app (cbs : list nat) (a b : list AILoadingProgress) :
  broadcasts cbs (a ++ b) = broadcasts cbs a ++ broadcasts cbs b.
Proof. unfold broadcasts. apply flat_map_app. Qed.

Lemma notifyProgress_delivers (ev : AILoadingProgress) (s : State) :
  dispatched (notifyProgress ev s) = dispatched s ++ [ev]
  /\ delivered (notifyProgress ev s)
     = delivered s ++ broadcasts (progressCallbacks s) [ev]
  /\ progressCallbacks (notifyProgress ev s) = progressCallbacks s.
Proof.
  unfold notifyProgress, broadcasts. cbn. rewrite app_nil_r. auto.
Qed.

Lemma step_delivers (s : State) (e : Event) :
  exists evs,
    dispatched (step s e) = dispatched s ++ evs
    /\ delivered (step s e) = delivered s ++ broadcasts (progressCallbacks s) evs
    /\ progressCallbacks (step s e)
       = match e with
         | Subscribe cb => progressCallbacks s ++ [cb]
         | Unsubscribe cb => filter (fun c => c <> cb) (progressCallbacks s)
         | _ => progressCallbacks s
         end.
Proof.
  assert (Hnone : exists evs,
             dispatched s = dispatched s ++ evs
             /\ delivered s = delivered s ++ broadcasts (progressCallbacks s) evs
             /\ progressCallbacks s = progressCallbacks s).
  { exists []. rewrite broadcasts_nil, !app_nil_r. auto. }
  assert (Hone : forall ev s', dispatched s' = dispatched (notifyProgress ev s) ->
             delivered s' = delivered (notifyProgress ev s) ->
             progressCallbacks s' = progressCallbacks s ->
             exists evs,
               dispatched s' = dispatched s ++ evs
               /\ delivered s' = delivered s ++ broadcasts (progressCallbacks s) evs
               /\ progressCallbacks s' = progressCallbacks s).
  { intros ev s' H1 H2 H3. exists [ev]. rewrite H1, H2, H3.
    destruct (notifyProgress_delivers ev s) as (-> & -> & _). auto. }
  destruct e as [|cb|cb|p q|p handle|p reason|p|p| |resolved]; cbn [step].
  - unfold initialize. destruct (isInitialized s); [exact Hnone|].
    destruct (initPromise s); [exact Hnone|].
    apply (Hone initializingEvent); reflexivity.
  - exists []. rewrite broadcasts_nil, !app_nil_r. auto.
  - exists []. rewrite broadcasts_nil, !app_nil_r. auto.
  - destruct (operations s !! p) as [[st r]|]; [|exact Hnone].
    cbn [loadRunning]. destruct r; [|exact Hnone].
    apply (Hone (progressReport q)); reflexivity.
  - destruct (operations s !! p) as [[st r]|]; [|exact Hnone].
    destruct st, r; try exact Hnone;
      first [ apply (Hone readyEvent); reflexivity
            | exists []; rewrite broadcasts_nil, !app_nil_r; auto ].
  - destruct (operations s !! p) as [[st r]|]; [|exact Hnone].
    destruct st, r; try exact Hnone;
      first [ apply (Hone (errorEvent reason)); reflexivity
            | exists []; rewrite broadcasts_nil, !app_nil_r; auto ].
  - destruct (operations s !! p) as [[st r]|]; [|exact Hnone].
    cbn [status]. destruct st; try exact Hnone.
    apply (Hone (errorEvent (Some timeoutMessage))); reflexivity.
  - destruct (operations s !! p) as [[st r]|]; [|exact Hnone].
    destruct st; exact Hnone.
  - unfold unload. destruct (engine s); [|exact Hnone].
    exists []. rewrite broadcasts_nil, !app_nil_r. auto.
  - unfold unloadSettled. destruct (unloading s); [exact Hnone|].
    destruct resolved; exists []; rewrite broadcasts_nil, !app_nil_r; auto.
Qed.

(** X2. While no callback subscribes or unsubscribes, every notification
    reaches the window and each subscribed callback alike: the callback
    invocations added by a sequence of events are the events it dispatched
    as 'ai-progress', each delivered to every subscriber in subscription
    order, and the list of subscribers is unchanged. *)
Theorem subscribers_receive_every_event (s : State) (es : list Event) :
  forallb (fun e => negb (subscriptionEvent e)) es = true ->
  exists evs,
    dispatched (run s es) = dispatched s ++ evs
    /\ delivered (run s es) = delivered s ++ broadcasts (progressCallbacks s) evs
    /\ progressCallbacks (run s es) = progressCallbacks s.
Proof.
  revert s. induction es as [|e es IH]; intros s Hes.
  - exists []. cbn [run fold_left]. rewrite broadcasts_nil, !app_nil_r. auto.
  - cbn [forallb] in Hes. apply andb_prop in Hes as [He Hes].
    destruct (step_delivers s e) as (evs1 & H1 & H2 & H3).
    assert (H3' : progressCallbacks (step s e) = progressCallbacks s).
    { destruct e; try exact H3; discriminate He. }
    destruct (IH (step s e) Hes) as (evs2 & K1 & K2 & K3).
    exists (evs1 ++ evs2). cbn [run fold_left].
    change (fold_left step es (step s e)) with (run (step s e) es).
    rewrite K1, K2, K3, H1, H2, H3', broadcasts_app, <- !app_assoc. auto.
Qed.

Lemma subscribers_receive_every_event_witness :
  exists evs,
    dispatched (run (run fresh [Subscribe 1; Subscribe 2])
                  [CallInitialize; Report 0 (1 # 2); LoadResolved 0 7])
    = dispatched (run fresh [Subscribe 1; Subscribe 2]) ++ evs
    /\ delivered (run (run fresh [Subscribe 1; Subscribe 2])
                    [CallInitialize; Report 0 (1 # 2); LoadResolved 0 7])
       = delivered (run fresh [Subscribe 1; Subscribe 2])
         ++ broadcasts (progressCallbacks (run fresh [Subscribe 1; Subscribe 2])) evs
    /\ progressCallbacks (run (run fresh [Subscribe 1; Subscribe 2])
                            [CallInitialize; Report 0 (1 # 2); LoadResolved 0 7])
       = progressCallbacks (run fresh [Subscribe 1; Subscribe 2]).
Proof.
  apply (subscribers_receive_every_event (run fresh [Subscribe 1; Subscribe 2])
           [CallInitialize; Report 0 (1 # 2); LoadResolved 0 7]).
  reflexivity.
Defined.

Lemma filter_broadcasts_absent (cb : nat) (cbs : list nat)
    (evs : list AILoadingProgress) :
  cb ∉ cbs ->
  filter (fun d : nat * AILoadingProgress => fst d = cb) (broadcasts cbs evs) = [].
Proof.
  intros Hcb. unfold broadcasts.
  induction evs as [|ev evs IH]; [reflexivity|].
  cbn [flat_map]. rewrite filter_app, IH, app_nil_r.
  clear IH. induction cbs as [|c cbs IH]; [reflexivity|].
  cbn [map]. rewrite filter_cons_False.
  - apply IH. intros H. apply Hcb. right. exact H.
  - cbn. intros ->. apply Hcb. left.
Qed.

Lemma unsubscribed_stays (cb : nat) (later : list Event) (s : State) :
  cb ∉ progressCallbacks s ->
  forallb (fun e => negb (subscribes cb e)) later = true ->
  filter (fun d : nat * AILoadingProgress => fst d = cb) (delivered (run s later))
  = filter (fun d : nat * AILoadingProgress => fst d = cb) (delivered s).
Proof.
  revert s. induction later as [|e es IH]; intros s Hcb Hes; [reflexivity|].
  cbn [forallb] in Hes. apply andb_prop in Hes as [He Hes].
  destruct (step_delivers s e) as (evs & H1 & H2 & H3).
  cbn [run fold_left]. change (fold_left step es (step s e)) with (run (step s e) es).
  rewrite IH; [| |exact Hes].
  - rewrite H2, filter_app, filter_broadcasts_absent by exact Hcb.
    apply app_nil_r.
  - rewrite H3. destruct e as [|c|c| | | | | | |]; try exact Hcb.
    + cbn [subscribes] in He. apply negb_true_iff, bool_decide_eq_false in He.
      intros Hin. apply elem_of_app in Hin as [Hin|Hin]; [exact (Hcb Hin)|].
      apply list_elem_of_singleton in Hin. congruence.
    + intros Hin. apply list_elem_of_filter in Hin as [_ Hin]. exact (Hcb Hin).
Qed.

(** X3. Once the unsubscribe closure of a callback has run, the callback is
    not invoked again, whatever events follow, as long as it is not
    subscribed anew: its invocations stay those it had received. *)
Theorem unsubscribe_stops_delivery (cb : nat) (s : State) (later : list Event) :
  forallb (fun e => negb (subscribes cb e)) later = true ->
  filter (fun d : nat * AILoadingProgress => fst d = cb)
    (delivered (run (unsubscribe cb s) later))
  = filter (fun d : nat * AILoadingProgress => fst d = cb) (delivered s).
Proof.
  intros Hlater. rewrite unsubscribed_stays; [reflexivity| |exact Hlater].
  unfold unsubscribe. cbn [progressCallbacks].
  intros Hin. apply list_elem_of_filter in Hin as [Hne _]. apply Hne. reflexivity.
Qed.

Lemma unsubscribe_stops_delivery_witness :
  filter (fun d : nat * AILoadingProgress => fst d = 1%nat)
    (delivered (run (unsubscribe 1 (run fresh [Subscribe 1; Subscribe 2; CallInitialize]))
                  [Report 0 (1 # 2); Subscribe 3; LoadResolved 0 7]))
  = filter (fun d : nat * AILoadingProgress => fst d = 1%nat)
      (delivered (run fresh [Subscribe 1; Subscribe 2; CallInitialize])).
Proof.
  apply (unsubscribe_stops_delivery 1
           (run fresh [Subscribe 1; Subscribe 2; CallInitialize])
           [Report 0 (1 # 2); Subscribe 3; LoadResolved 0 7]).
  reflexivity.
Defined.


Lemma racingCount_app (l k : list Operation) :
  racingCount (l ++ k) = (racingCount l + racingCount k)%nat.
Proof. unfold racingCount. rewrite List.filter_app, length_app. reflexivity. Qed.

Lemma racingCount_insert (l : list Operation) (p : nat) (o o' : Operation) :
  l !! p = Some o ->
  (racingCount (<[p := o']> l) + (if isRacing o then 1 else 0)
   = racingCount l + (if isRacing o' then 1 else 0))%nat.
Proof.
  revert p. induction l as [|x l IH]; intros p Hp; [discriminate|].
  destruct p as [|p]; cbn [lookup list_lookup] in Hp.
  - injection Hp as ->. unfold racingCount. simpl.
    destruct (isRacing o), (isRacing o'); simpl; lia.
  - specialize (IH p Hp). unfold racingCount in *. simpl.
    destruct (isRacing x); simpl; lia.
Qed.

Lemma consistent_fresh : consistent fresh.
Proof.
  unfold consistent, fresh. cbn.
  split; [split; [discriminate|congruence]|].
  split; [discriminate|]. reflexivity.
Qed.

Lemma orderly_fresh : orderly fresh.
Proof.
  unfold orderly, fresh. cbn.
  split; [lia|]. split; [discriminate|]. split; [discriminate|]. discriminate.
Qed.

Lemma consistent_notify (ev : AILoadingProgress) (s : State) :
  stage ev <> ready -> consistent s -> consistent (notifyProgress ev s).
Proof.
  intros Hev (Ha & Hb & He).
  unfold consistent, notifyProgress.
  cbn [engine isInitialized initPromise operations dispatched].
  split; [exact Ha|]. split; [exact Hb|].
  rewrite countStage_app. unfold countStage at 2.
  rewrite filter_cons_False by exact Hev. cbn [filter length].
  change (length (filter (fun p => stage p = ready) [])) with 0%nat. lia.
Qed.

Lemma consistent_setOperation (s : State) (p : nat) (o o' : Operation) :
  operations s !! p = Some o ->
  isRacing o' = false ->
  consistent s -> consistent (setOperation p o' s).
Proof.
  intros Hp Ho' (Ha & Hb & He).
  unfold consistent, setOperation.
  cbn [engine isInitialized initPromise operations dispatched].
  split; [exact Ha|]. split; [intros q Hq; rewrite length_insert; apply Hb, Hq|].
  rewrite length_insert.
  pose proof (racingCount_insert _ p o o' Hp) as Hcount. rewrite Ho' in Hcount.
  destruct (isRacing o); lia.
Qed.

Lemma consistent_step (s : State) (e : Event) : consistent s -> consistent (step s e).
Proof.
  intros Hs. pose proof Hs as (Ha & Hb & He).
  destruct e as [|cb|cb|p q|p handle|p reason|p|p| |resolved]; cbn [step].
  - unfold initialize. destruct (isInitialized s) eqn:Hi; [exact Hs|].
    destruct (initPromise s) as [p|] eqn:Hp; [exact Hs|].
    unfold doInitialize, notifyProgress, consistent.
    cbn [snd engine isInitialized initPromise operations dispatched].
    rewrite Hi.
    split; [exact Ha|]. split.
    + intros p [= <-]. rewrite length_app. cbn [length]. lia.
    + rewrite countStage_app, racingCount_app, length_app.
      unfold countStage at 2. rewrite filter_cons_False by (cbn; discriminate).
      cbn. change (racingCount [ {| status := Racing; loadRunning := true |} ])
             with 1%nat.
      change (length (filter (fun p => stage p = ready) [])) with 0%nat. lia.
  - exact Hs.
  - exact Hs.
  - destruct (operations s !! p) as [[st r]|]; [|exact Hs].
    cbn [loadRunning]. destruct r; [|exact Hs].
    apply consistent_notify; [|exact Hs].
    unfold progressReport. cbn. destruct (Qltb q (8 # 10)); discriminate.
  - destruct (operations s !! p) as [[st r]|] eqn:Hlook; [|exact Hs].
    destruct st, r; try exact Hs;
      try (apply (consistent_setOperation s p _ _ Hlook); [reflexivity|exact Hs]).
    unfold raceResolved, setOperation, notifyProgress, consistent.
    cbn [engine isInitialized initPromise operations dispatched].
    split; [split; [discriminate|reflexivity]|].
    split; [intros q Hq; rewrite length_insert; apply Hb, Hq|].
    rewrite length_insert, countStage_app.
    pose proof (racingCount_insert _ p _ {| status := WarmingUp; loadRunning := false |}
                  Hlook) as Hcount.
    cbn in Hcount. change (countStage ready [readyEvent]) with 1%nat. lia.
  - destruct (operations s !! p) as [[st r]|] eqn:Hlook; [|exact Hs].
    destruct st, r; try exact Hs;
      try (apply (consistent_setOperation s p _ _ Hlook); [reflexivity|exact Hs]).
    unfold raceRejected.
    apply (consistent_setOperation (notifyProgress (errorEvent reason) s) p _ _ Hlook);
      [reflexivity|].
    apply consistent_notify; [discriminate|exact Hs].
  - destruct (operations s !! p) as [[st r]|] eqn:Hlook; [|exact Hs].
    cbn [status]. destruct st; try exact Hs.
    unfold raceRejected.
    apply (consistent_setOperation
             (notifyProgress (errorEvent (Some timeoutMessage)) s) p _ _ Hlook);
      [reflexivity|].
    apply consistent_notify; [discriminate|exact Hs].
  - destruct (operations s !! p) as [[st r]|] eqn:Hlook; [|exact Hs].
    destruct st; try exact Hs.
    apply (consistent_setOperation s p _ _ Hlook); [reflexivity|exact Hs].
  - unfold unload. destruct (engine s) as [h|] eqn:Heng; [|exact Hs].
    unfold consistent. cbn [engine isInitialized initPromise operations dispatched].
    split; [exact Ha|]. split; [exact Hb|exact He].
  - unfold unloadSettled. destruct (unloading s) as [|suspended]; [exact Hs|].
    destruct resolved; [|exact Hs].
    unfold consistent. cbn [engine isInitialized initPromise operations dispatched].
    split; [split; [discriminate|congruence]|].
    split; [discriminate|exact He].
Qed.

Lemma consistent_run (es : list Event) (s : State) :
  consistent s -> consistent (run s es).
Proof.
  revert s. induction es as [|e es IH]; intros s H; [exact H|].
  cbn [run fold_left]. apply (IH (step s e)). apply consistent_step. exact H.
Qed.

Lemma orderly_setOperation (s : State) (p : nat) (o' : Operation) :
  isRacing o' = false -> orderly s -> orderly (setOperation p o' s).
Proof.
  intros Ho' (Ha & Hb & Hc & Hd).
  unfold orderly, setOperation.
  cbn [engine isInitialized initPromise operations unloading].
  split; [exact Ha|]. split; [exact Hb|]. split; [exact Hc|].
  intros q oq Hq Hr. apply list_lookup_insert_Some in Hq as [(_ & <- & _)|[_ Hq]].
  - congruence.
  - apply (Hd q oq Hq Hr).
Qed.

Lemma orderly_step (s : State) (e : Event) :
  consistent s -> orderly s -> (unloading (step s e) <= 1)%nat ->
  orderly (step s e).
Proof.
  intros (Ka & _ & _) Hs. pose proof Hs as (Ha & Hb & Hc & Hd).
  destruct e as [|cb|cb|p q|p handle|p reason|p|p| |resolved]; cbn [step]; intros Hle.
  - unfold initialize. destruct (isInitialized s) eqn:Hi; [exact Hs|].
    destruct (initPromise s) as [p|] eqn:Hp; [exact Hs|].
    unfold doInitialize, notifyProgress, orderly.
    cbn [snd engine isInitialized initPromise operations unloading].
    rewrite Hi.
    split; [exact Ha|]. split; [exact Hb|]. split; [discriminate|].
    intros p o Hlook Hr. apply lookup_snoc_Some in Hlook as [[_ Hlook]|[-> _]].
    + destruct (Hd p o Hlook Hr) as [Hcontra _]. discriminate.
    + split; reflexivity.
  - exact Hs.
  - exact Hs.
  - destruct (operations s !! p) as [[st r]|]; [|exact Hs].
    cbn [loadRunning]. destruct r; exact Hs.
  - destruct (operations s !! p) as [[st r]|] eqn:Hlook; [|exact Hs].
    destruct st, r; try exact Hs;
      try (apply orderly_setOperation; [reflexivity|exact Hs]).
    destruct (Hd p _ Hlook eq_refl) as [Hp Hi].
    unfold raceResolved, setOperation, notifyProgress, orderly.
    cbn [engine isInitialized initPromise operations unloading].
    split; [exact Ha|]. split; [reflexivity|].
    split; [rewrite Hp; discriminate|].
    intros q oq Hq Hr. apply list_lookup_insert_Some in Hq as [(_ & <- & _)|[Hne Hq]].
    + discriminate.
    + destruct (Hd q oq Hq Hr) as [Hq' _]. congruence.
  - destruct (operations s !! p) as [[st r]|] eqn:Hlook; [|exact Hs].
    destruct st, r; try exact Hs;
      apply orderly_setOperation; first [reflexivity|exact Hs].
  - destruct (operations s !! p) as [[st r]|] eqn:Hlook; [|exact Hs].
    cbn [status]. destruct st; try exact Hs.
    unfold raceRejected.
    apply (orderly_setOperation (notifyProgress (errorEvent (Some timeoutMessage)) s));
      [reflexivity|exact Hs].
  - destruct (operations s !! p) as [[st r]|] eqn:Hlook; [|exact Hs].
    destruct st; try exact Hs.
    apply orderly_setOperation; [reflexivity|exact Hs].
  - revert Hle. unfold unload. destruct (engine s) as [h|] eqn:Heng; [|intros _; exact Hs].
    cbn [unloading]. intros Hle.
    unfold orderly. cbn [engine isInitialized initPromise operations unloading].
    split; [exact Hle|]. split; [|split; [exact Hc|exact Hd]].
    intros _. apply Ka. discriminate.
  - unfold unloadSettled. destruct (unloading s) as [|suspended] eqn:Hu; [exact Hs|].
    assert (Hz : suspended = 0%nat) by lia. subst suspended.
    specialize (Hb eq_refl).
    destruct resolved; unfold orderly;
      cbn [engine isInitialized initPromise operations unloading].
    + split; [lia|]. split; [discriminate|]. split; [discriminate|].
      intros q oq Hq Hr. destruct (Hd q oq Hq Hr) as [_ Hcontra]. congruence.
    + split; [lia|]. split; [discriminate|]. split; [exact Hc|exact Hd].
Qed.

Lemma orderly_run (es : list Event) (s : State) :
  consistent s -> orderly s -> unloadsInTurn s es = true -> orderly (run s es).
Proof.
  revert s. induction es as [|e es IH]; intros s Hc Ho Hes; [exact Ho|].
  cbn [unloadsInTurn] in Hes. apply andb_prop in Hes as [Hle Hes].
  apply Nat.leb_le in Hle.
  cbn [run fold_left]. apply (IH (step s e)).
  - apply consistent_step. exact Hc.
  - apply orderly_step; assumption.
  - exact Hes.
Qed.

Lemma loadsStarted_step (s : State) (e : Event) :
  (loadsStarted (step s e)
   <= loadsStarted s + (if isCallInitialize e then 1 else 0))%nat.
Proof.
  unfold loadsStarted.
  destruct e as [|cb|cb|p q|p handle|p reason|p|p| |resolved];
    cbn [step isCallInitialize].
  - unfold initialize. destruct (isInitialized s); [cbn [snd]; lia|].
    destruct (initPromise s); [cbn [snd]; lia|].
    cbn [snd doInitialize operations notifyProgress]. rewrite length_app. cbn. lia.
  - cbn. lia.
  - cbn. lia.
  - destruct (operations s !! p) as [[st r]|]; [|lia].
    cbn [loadRunning]. destruct r; cbn; lia.
  - destruct (operations s !! p) as [[st r]|]; [|lia].
    destruct st, r; cbn [raceResolved setOperation operations notifyProgress];
      rewrite ?length_insert; lia.
  - destruct (operations s !! p) as [[st r]|]; [|lia].
    destruct st, r; cbn [raceRejected setOperation operations notifyProgress];
      rewrite ?length_insert; lia.
  - destruct (operations s !! p) as [[st r]|]; [|lia].
    cbn [status]. destruct st;
      cbn [raceRejected setOperation operations notifyProgress];
      rewrite ?length_insert; lia.
  - destruct (operations s !! p) as [[st r]|]; [|lia].
    destruct st; cbn [setOperation operations]; rewrite ?length_insert; lia.
  - unfold unload. destruct (engine s); cbn; lia.
  - unfold unloadSettled. destruct (unloading s); [lia|]. destruct resolved; cbn; lia.
Qed.

Lemma loadsStarted_run (es : list Event) (s : State) :
  (loadsStarted (run s es)
   <= loadsStarted s + length (List.filter isCallInitialize es))%nat.
Proof.
  revert s. induction es as [|e es IH]; intros s; [cbn; lia|].
  cbn [run fold_left List.filter].
  change (fold_left step es (step s e)) with (run (step s e) es).
  specialize (IH (step s e)). pose proof (loadsStarted_step s e).
  destruct (isCallInitialize e); cbn [length]; lia.
Qed.

(** X4. After any sequence of events on a new manager: [isReady()] agrees
    with [isInitialized]; [initPromise] refers to a load that was started;
    no more 'ready' events have been dispatched than loads were started, and
    no more loads were started than [initialize()] was called. As long as
    no [unload()] is called while another one awaits [engine.unload()], a
    load that is still racing is the one [initPromise] holds, and the
    manager is not initialized while it races. *)
Theorem manager_stays_consistent (es : list Event) :
  let s := run fresh es in
  isReady s = isInitialized s
  /\ (forall p, initPromise s = Some p -> (p < loadsStarted s)%nat)
  /\ (countStage ready (dispatched s) <= loadsStarted s)%nat
  /\ (loadsStarted s <= length (List.filter isCallInitialize es))%nat
  /\ (unloadsInTurn fresh es = true ->
      forall p o, operations s !! p = Some o -> status o = Racing ->
        initPromise s = Some p /\ isInitialized s = false).
Proof.
  cbv zeta.
  destruct (consistent_run es fresh consistent_fresh) as (Ha & Hb & He).
  split; [|split; [exact Hb|split; [|split]]].
  - unfold isReady. destruct (isInitialized (run fresh es)) eqn:Hi; [|reflexivity].
    cbn [andb]. apply bool_decide_eq_true. apply Ha. reflexivity.
  - unfold loadsStarted. lia.
  - apply (loadsStarted_run es fresh).
  - intros Hturn p o Hlook Hst.
    destruct (orderly_run es fresh consistent_fresh orderly_fresh Hturn)
      as (_ & _ & _ & Hd).
    apply (Hd p o Hlook). unfold isRacing. rewrite Hst. reflexivity.
Qed.

(** The condition on [unload()] is needed. [unload()] resets the fields
    after its [await], whatever they hold by then: with two calls suspended
    at once, an [initialize()] between their resumptions starts a load whose
    [initPromise] the second resumption clears, and the next [initialize()]
    starts another load while that one still races. A single [unload()] that
    is awaited takes its turn. *)
Example overlapping_unloads_race_twice :
  let es := [ CallInitialize; LoadResolved 0 7; CallUnload; CallUnload;
              UnloadSettled true; CallInitialize; UnloadSettled true;
              CallInitialize ] in
  unloadsInTurn fresh es = false
  /\ map status (operations (run fresh es)) = [WarmingUp; Racing; Racing]
  /\ initPromise (run fresh es) = Some 2%nat
  /\ unloadsInTurn fresh
       [ CallInitialize; LoadResolved 0 7; CallUnload; UnloadSettled true;
         CallInitialize ] = true.
Proof. repeat split. Qed.

End ManagerRuns.

(** ** Trimming, titles and the fallback letter *)

(** General facts on trimming *)

Lemma trimStart_split (s : jsstring) :
  exists pre, s = pre ++ JS.trimStart s.
Proof.
  induction s as [|c t [pre IH]]; [exists []; reflexivity|].
  cbn [JS.trimStart]. destruct (JS.isWhiteSpace c).
  - exists (c :: pre). cbn [app]. f_equal. exact IH.
  - exists []. reflexivity.
Qed.

Lemma trim_split (s : jsstring) :
  exists pre post, s = pre ++ JS.trim s ++ post.
Proof.
  destruct (trimStart_split s) as [pre Hpre].
  destruct (trimStart_split (rev (JS.trimStart s))) as [post Hpost].
  exists pre, (rev post). unfold JS.trim, JS.trimEnd.
  rewrite <- rev_app_distr, <- Hpost, rev_involutive. exact Hpre.
Qed.

Lemma Forall_trim (Q : Z -> Prop) (s : jsstring) :
  Forall Q s -> Forall Q (JS.trim s).
Proof.
  intros H. destruct (trim_split s) as (pre & post & E). rewrite E in H.
  apply Forall_app in H as [_ H]. apply Forall_app in H as [H _]. exact H.
Qed.

Lemma length_trim (s : jsstring) : (length (JS.trim s) <= length s)%nat.
Proof.
  destruct (trim_split s) as (pre & post & E). rewrite E at 2.
  rewrite !length_app. lia.
Qed.

(** parseGeneratedContent *)

Lemma lazyToLineEnd_spec (s g after : jsstring) :
  lazyToLineEnd s = Some (g, after) ->
  Forall (fun c => JS.isLineTerminator c = false) g
  /\ (length g + length after <= length s)%nat.
Proof.
  revert g after. induction s as [|c t IH]; intros g after; cbn [lazyToLineEnd].
  - intros [= <- <-]. split; [constructor|reflexivity].
  - destruct (c =? 10)%Z.
    + intros [= <- <-]. split; [constructor|cbn; lia].
    + destruct (JS.isLineTerminator c) eqn:Hc; [discriminate|].
      destruct (lazyToLineEnd t) as [[g' after']|]; [|discriminate].
      intros [= <- <-]. destruct (IH g' after' eq_refl) as [H1 H2].
      split; [constructor; assumption|cbn [length]; lia].
Qed.

Lemma matchGroup_spec (s g after : jsstring) :
  matchGroup s = Some (g, after) ->
  Forall (fun c => JS.isLineTerminator c = false) g
  /\ (length g + length after <= length s)%nat.
Proof.
  destruct s as [|c t]; cbn [matchGroup]; [discriminate|].
  destruct (JS.isLineTerminator c) eqn:Hc; [discriminate|].
  destruct (lazyToLineEnd t) as [[g' after']|] eqn:E; [|discriminate].
  intros [= <- <-]. destruct (lazyToLineEnd_spec t g' after' E) as [H1 H2].
  split; [constructor; assumption|cbn [length]; lia].
Qed.

Lemma matchAfterColon_spec (s g after : jsstring) :
  matchAfterColon s = Some (g, after) ->
  Forall (fun c => JS.isLineTerminator c = false) g
  /\ (length g + length after <= length s)%nat.
Proof.
  revert g after. induction s as [|c t IH]; intros g after.
  - cbn [matchAfterColon]. apply matchGroup_spec.
  - cbn [matchAfterColon]. destruct (JS.isWhiteSpace c).
    + destruct (matchAfterColon t) as [[g' after']|].
      * intros [= <- <-]. destruct (IH g' after' eq_refl) as [H1 H2].
        split; [exact H1|cbn [length]; lia].
      * apply matchGroup_spec.
    + apply matchGroup_spec.
Qed.

Lemma matchTitleWord_length (s rest : jsstring) :
  matchTitleWord s = Some rest -> length s = (6 + length rest)%nat.
Proof.
  unfold matchTitleWord.
  destruct s as [|c1 [|c2 [|c3 [|c4 [|c5 [|c6 r]]]]]]; try discriminate.
  destruct (_ && _); [|discriminate]. intros [= <-]. reflexivity.
Qed.

Lemma matchTitle_spec (s before g after : jsstring) :
  matchTitle s = Some (before, g, after) ->
  Forall (fun c => JS.isLineTerminator c = false) g
  /\ (length (before ++ after) <= length s)%nat.
Proof.
  revert before g after. induction s as [|c t IH]; intros before g after.
  - cbn. discriminate.
  - cbn [matchTitle]. unfold matchTitleHere.
    destruct (matchTitleWord (c :: t)) as [rest|] eqn:Hw.
    + destruct (matchAfterColon rest) as [[g' after']|] eqn:Ha.
      * intros [= <- <- <-]. destruct (matchAfterColon_spec _ _ _ Ha) as [H1 H2].
        apply matchTitleWord_length in Hw. split; [exact H1|].
        rewrite Hw. cbn [app]. lia.
      * destruct (matchTitle t) as [[[b' g'] a']|]; [|discriminate].
        intros [= <- <- <-]. destruct (IH b' g' a' eq_refl) as [H1 H2].
        split; [exact H1|cbn [app length]; lia].
    + destruct (matchTitle t) as [[[b' g'] a']|]; [|discriminate].
      intros [= <- <- <-]. destruct (IH b' g' a' eq_refl) as [H1 H2].
      split; [exact H1|cbn [app length]; lia].
Qed.

(** X5. The title [parseGeneratedContent] returns is a single line: it
    holds no line terminator. Title and content are both trimmed, and the
    content is no longer than the response it was cut from. *)
Theorem parsed_title_single_line (fullResponse : jsstring) :
  Forall (fun c => JS.isLineTerminator c = false)
    (snd (parseGeneratedContent fullResponse))
  /\ JS.trim (snd (parseGeneratedContent fullResponse))
     = snd (parseGeneratedContent fullResponse)
  /\ JS.trim (fst (parseGeneratedContent fullResponse))
     = fst (parseGeneratedContent fullResponse)
  /\ (length (fst (parseGeneratedContent fullResponse)) <= length fullResponse)%nat.
Proof.
  unfold parseGeneratedContent.
  destruct (matchTitle fullResponse) as [[[before g] after]|] eqn:E; cbn [fst snd].
  - destruct (matchTitle_spec _ _ _ _ E) as [H1 H2].
    split; [apply Forall_trim; exact H1|].
    split; [apply trim_idempotent|]. split; [apply trim_idempotent|].
    pose proof (length_trim (before ++ after)). lia.
  - split; [|split; [|split]].
    + apply (bool_decide_unpack _). vm_compute. exact I.
    + vm_compute. reflexivity.
    + apply trim_idempotent.
    + apply length_trim.
Qed.

(** includes *)

Lemma includes_unfold (s p : jsstring) :
  JS.includes s p
  = JS.startsWith s p || match s with [] => false | _ :: t => JS.includes t p end.
Proof. destruct s; reflexivity. Qed.

Lemma includes_app (a p b : jsstring) : JS.includes (a ++ p ++ b) p = true.
Proof.
  induction a as [|c a IH].
  - cbn [app]. rewrite includes_unfold, startsWith_app. reflexivity.
  - cbn [app]. rewrite includes_unfold. cbn iota. rewrite IH. apply orb_true_r.
Qed.

Section FallbackLetter.

Variable toLowerCase : jsstring -> jsstring.

Lemma fallbackSentence_answer (question answer : jsstring) :
  exists pre, fallbackSentence toLowerCase question answer
              = pre ++ JS.trim answer ++ twoNewlines.
Proof.
  unfold fallbackSentence.
  repeat match goal with
         | |- context [if ?b then _ else _] => destruct b
         end;
    first [ eexists; rewrite <- app_assoc; reflexivity
          | exists []; reflexivity
          | eexists; reflexivity ].
Qed.

Lemma fallbackBody_grows (responseEntries : list (jsstring * jsstring))
    (content : jsstring) :
  exists tail, fallbackBody toLowerCase responseEntries content = content ++ tail.
Proof.
  revert content. induction responseEntries as [|[q a] rest IH]; intros content.
  - exists []. cbn. rewrite app_nil_r. reflexivity.
  - cbn [fallbackBody]. destruct (JS.truthy a && JS.truthy (JS.trim a)).
    + destruct (IH (content ++ fallbackSentence toLowerCase q a)) as [tail E].
      exists (fallbackSentence toLowerCase q a ++ tail).
      rewrite E, <- app_assoc. reflexivity.
    + apply IH.
Qed.

Lemma fallbackBody_answer (responseEntries : list (jsstring * jsstring))
    (content question answer : jsstring) :
  (question, answer) ∈ responseEntries ->
  JS.trim answer <> [] ->
  exists pre post,
    fallbackBody toLowerCase responseEntries content
    = pre ++ JS.trim answer ++ post.
Proof.
  intros Hin Hanswer. revert content.
  induction responseEntries as [|[q a] rest IH]; intros content.
  - apply elem_of_nil in Hin. destruct Hin.
  - cbn [fallbackBody]. apply elem_of_cons in Hin as [[= <- <-]|Hin].
    + assert (Ht : JS.truthy (JS.trim answer) = true).
      { destruct (JS.trim answer); [congruence|reflexivity]. }
      rewrite Ht, (trim_truthy answer Ht). cbn [andb].
      destruct (fallbackSentence_answer question answer) as [pre Es].
      destruct (fallbackBody_grows rest
                  (content ++ fallbackSentence toLowerCase question answer))
        as [tail Eb].
      exists (content ++ pre), (twoNewlines ++ tail).
      rewrite Eb, Es, <- !app_assoc. reflexivity.
    + destruct (JS.truthy a && JS.truthy (JS.trim a)); apply IH; exact Hin.
Qed.

(** X6. When the completion call rejects, [generateTimeCapsuleContent]
    resolves with the letter of [getFallbackContent], and that letter holds
    every answer that is not blank, trimmed, between the fixed opening and
    the fixed closing. *)
Theorem fallback_letter_keeps_answers (responses : list (jsstring * jsstring))
    (tone question answer reason : jsstring) :
  (question, answer) ∈ responses ->
  JS.trim answer <> [] ->
  let letter := cc_content (getFallbackContent toLowerCase responses tone) in
  generateTimeCapsuleContent toLowerCase (CreateRejected reason) responses tone
  = Ok (getFallbackContent toLowerCase responses tone)
  /\ JS.includes letter (JS.trim answer) = true
  /\ JS.startsWith letter letterOpening = true
  /\ JS.endsWith letter letterClosing = true.
Proof.
  intros Hin Hanswer. cbv zeta.
  split.
  { unfold generateTimeCapsuleContent, generateTimeCapsuleContent_try.
    repeat match goal with
           | |- context [if ?b then _ else _] => destruct b
           end; reflexivity. }
  unfold getFallbackContent.
  destruct responses as [|entry rest] eqn:E.
  { apply elem_of_nil in Hin. destruct Hin. }
  rewrite <- E in *. cbn [cc_content].
  destruct (fallbackBody_answer responses letterOpening question answer Hin Hanswer)
    as (pre & post & Ea).
  destruct (fallbackBody_grows responses letterOpening) as [tail Eg].
  split; [|split].
  - rewrite Ea, <- !app_assoc. apply includes_app.
  - rewrite Eg, <- app_assoc. apply startsWith_app.
  - apply endsWith_app.
Qed.

End FallbackLetter.

Lemma fallback_letter_keeps_answers_witness :
  generateTimeCapsuleContent asciiToLowerCase (CreateRejected (JS.lit "out of memory"))
    [(JS.lit "What is a moment you treasure?", JS.lit "  The lake at dawn ");
     (JS.lit "Anything else?", JS.lit "   ")]
    (JS.lit "heartfelt")
  = Ok (getFallbackContent asciiToLowerCase
          [(JS.lit "What is a moment you treasure?", JS.lit "  The lake at dawn ");
           (JS.lit "Anything else?", JS.lit "   ")]
          (JS.lit "heartfelt"))
  /\ JS.includes
       (cc_content
          (getFallbackContent asciiToLowerCase
             [(JS.lit "What is a moment you treasure?", JS.lit "  The lake at dawn ");
              (JS.lit "Anything else?", JS.lit "   ")]
             (JS.lit "heartfelt")))
       (JS.trim (JS.lit "  The lake at dawn ")) = true
  /\ JS.startsWith
       (cc_content
          (getFallbackContent asciiToLowerCase
             [(JS.lit "What is a moment you treasure?", JS.lit "  The lake at dawn ");
              (JS.lit "Anything else?", JS.lit "   ")]
             (JS.lit "heartfelt")))
       letterOpening = true
  /\ JS.endsWith
       (cc_content
          (getFallbackContent asciiToLowerCase
             [(JS.lit "What is a moment you treasure?", JS.lit "  The lake at dawn ");
              (JS.lit "Anything else?", JS.lit "   ")]
             (JS.lit "heartfelt")))
       letterClosing = true.
Proof.
  apply (fallback_letter_keeps_answers asciiToLowerCase
           [(JS.lit "What is a moment you treasure?", JS.lit "  The lake at dawn ");
            (JS.lit "Anything else?", JS.lit "   ")]
           (JS.lit "heartfelt") (JS.lit "What is a moment you treasure?")
           (JS.lit "  The lake at dawn ") (JS.lit "out of memory")).
  - left.
  - vm_compute. discriminate.
Defined.

Lemma generateInterviewQuestion_try_meta (outcome : EngineOutcome)
    (emotionalState questionCategory : jsstring) (r : AIResponse) :
  generateInterviewQuestion_try outcome emotionalState questionCategory = Ok r ->
  confidence r = 8 # 10
  /\ emotionalTone r = emotionalState
  /\ suggestions r = Some (generateFollowUpSuggestions emotionalState)
  /\ emotionalState <> [] /\ questionCategory <> []
  /\ exists rawContent, outcome = Answered (Some rawContent).
Proof.
  unfold generateInterviewQuestion_try.
  destruct outcome as [reason| |reason|[rawContent|]]; try discriminate;
    destruct (negb (JS.truthy emotionalState) || negb (JS.truthy questionCategory))
      eqn:Hparams; try discriminate.
  destruct (negb (JS.truthy rawContent) || _); [discriminate|].
  destruct (length _ <? 10)%nat; [discriminate|].
  apply orb_false_iff in Hparams as [H1 H2].
  apply negb_false_iff in H1, H2.
  intros [= <-].
  split; [reflexivity|]. split; [reflexivity|]. split; [reflexivity|].
  split; [intros ->; discriminate|]. split; [intros ->; discriminate|].
  eexists. reflexivity.
Qed.

(** X7. [generateInterviewQuestion] answers from one of two tiers, and the
    confidence tells which: 0.8 with a text of 10 to 300 code units and at
    most one follow-up suggestion, which happens only when both parameters
    are non-empty and the engine answered with a string; otherwise 0.3 with
    what [getFallbackQuestion] draws and no suggestions. The emotional tone
    returned is the emotional state given. *)
Theorem generateInterviewQuestion_tiers (toUpperCase : jsstring -> jsstring)
    (outcome : EngineOutcome) (random : Q)
    (emotionalState questionCategory : jsstring) :
  let r := generateInterviewQuestion toUpperCase outcome random
             emotionalState questionCategory in
  emotionalTone r = emotionalState
  /\ ((confidence r = 8 # 10
       /\ (exists text, content r = Some text
                        /\ (10 <= length text <= 300)%nat)
       /\ (exists l, suggestions r = Some l /\ (length l <= 1)%nat)
       /\ emotionalState <> [] /\ questionCategory <> []
       /\ exists rawContent, outcome = Answered (Some rawContent))
      \/ (confidence r = 3 # 10
          /\ suggestions r = None
          /\ content r = getFallbackQuestion toUpperCase random questionCategory)).
Proof.
  cbv zeta. unfold generateInterviewQuestion.
  destruct (generateInterviewQuestion_try outcome emotionalState questionCategory)
    as [r|message] eqn:E; [|split; [reflexivity|right; repeat split]].
  destruct (generateInterviewQuestion_try_meta _ _ _ _ E)
    as (Hc & Ht & Hs & He & Hq & Hraw).
  destruct (generateInterviewQuestion_try_ok _ _ _ _ E) as (cleaned & _ & Hlen & Hcontent).
  split; [exact Ht|]. left. split; [exact Hc|].
  split; [|split; [|split; [exact He|split; [exact Hq|exact Hraw]]]].
  - rewrite Hcontent. destruct (300 <? length cleaned)%nat eqn:Hbig.
    + eexists. split; [reflexivity|]. apply Nat.ltb_lt in Hbig.
      unfold JS.substring0. rewrite length_app, length_take.
      change (length (JS.lit "...")) with 3%nat. lia.
    + eexists. split; [reflexivity|]. apply Nat.ltb_ge in Hbig. lia.
  - rewrite Hs. eexists. split; [reflexivity|]. unfold generateFollowUpSuggestions.
    destruct (property _ _) as [f|]; [destruct (JS.truthy f)|]; cbn; lia.
Qed.

(** ** The emotion heuristic of the hook *)

Lemma dominant_spec (table : list (jsstring * list jsstring)) (lowerText : jsstring)
    (maxScore : nat) (dominantEmotion : jsstring) :
  (UseAI.dominant table lowerText maxScore dominantEmotion = dominantEmotion
   /\ Forall (fun entry => (UseAI.score lowerText (snd entry) <= maxScore)%nat) table)
  \/ exists earlier keywords later,
       table = earlier ++ (UseAI.dominant table lowerText maxScore dominantEmotion,
                           keywords) :: later
       /\ (maxScore < UseAI.score lowerText keywords)%nat
       /\ Forall (fun entry => (UseAI.score lowerText (snd entry)
                                < UseAI.score lowerText keywords)%nat) earlier
       /\ Forall (fun entry => (UseAI.score lowerText (snd entry)
                                <= UseAI.score lowerText keywords)%nat) later.
Proof.
  revert maxScore dominantEmotion.
  induction table as [|[emotion keywords] rest IH]; intros maxScore dominantEmotion.
  - left. split; [reflexivity|constructor].
  - cbn [UseAI.dominant].
    destruct (maxScore <? UseAI.score lowerText keywords)%nat eqn:Hlt.
    + apply Nat.ltb_lt in Hlt. right.
      destruct (IH (UseAI.score lowerText keywords) emotion)
        as [[E Hall]|(earlier & kws & later & E & Hm & He & Hl)].
      * exists [], keywords, rest. rewrite E. cbn [app].
        split; [reflexivity|]. split; [exact Hlt|]. split; [constructor|exact Hall].
      * exists ((emotion, keywords) :: earlier), kws, later. cbn [app].
        split; [f_equal; exact E|]. split; [lia|].
        split; [constructor; [exact Hm|exact He]|exact Hl].
    + apply Nat.ltb_ge in Hlt.
      destruct (IH maxScore dominantEmotion)
        as [[E Hall]|(earlier & kws & later & E & Hm & He & Hl)].
      * left. split; [exact E|]. constructor; [exact Hlt|exact Hall].
      * right. exists ((emotion, keywords) :: earlier), kws, later. cbn [app].
        split; [f_equal; exact E|]. split; [exact Hm|].
        split; [constructor; [cbn [snd]; lia|exact He]|exact Hl].
Qed.

Lemma useAI_labels_valid :
  Forall (fun e => e ∈ validEmotions)
    (reflective :: map fst emotionKeywords ++ map fst UseAI.emotionKeywords).
Proof. apply (bool_decide_unpack _). vm_compute. exact I. Qed.

(** X8. [analyzeEmotion] of the hook always answers with an allowed label,
    ready or not. Its keyword heuristic answers 'reflective' when every
    emotion of its table scores 0, and otherwise with the first emotion
    that reaches the highest score: it scores more than every emotion
    before it in the table and at least as much as every one after it. *)
Theorem useAI_analyzeEmotion_dominant (toLowerCase : jsstring -> jsstring)
    (ready : bool) (outcome : EngineOutcome) (text : jsstring) :
  let lowerText := toLowerCase text in
  let emotion := UseAI.analyzeEmotionFallback toLowerCase text in
  UseAI.analyzeEmotion toLowerCase ready outcome text ∈ validEmotions
  /\ ((emotion = reflective
       /\ Forall (fun entry => UseAI.score lowerText (snd entry) = 0%nat)
            UseAI.emotionKeywords)
      \/ exists earlier keywords later,
           UseAI.emotionKeywords = earlier ++ (emotion, keywords) :: later
           /\ (0 < UseAI.score lowerText keywords)%nat
           /\ Forall (fun entry => (UseAI.score lowerText (snd entry)
                                    < UseAI.score lowerText keywords)%nat) earlier
           /\ Forall (fun entry => (UseAI.score lowerText (snd entry)
                                    <= UseAI.score lowerText keywords)%nat) later).
Proof.
  cbv zeta.
  assert (Hspec := dominant_spec UseAI.emotionKeywords (toLowerCase text) 0 reflective).
  fold (UseAI.analyzeEmotionFallback toLowerCase text) in Hspec.
  pose proof (proj1 (Forall_forall _ _) useAI_labels_valid) as Hvalid.
  split.
  - unfold UseAI.analyzeEmotion. destruct ready; cbn [negb].
    + destruct outcome as [reason| |reason|answer]; cbn [analyzeEmotionalState];
        try apply validateEmotion_valid;
        (apply Hvalid;
         pose proof (firstKeywordMatch_range emotionKeywords (toLowerCase text)) as Hr;
         apply elem_of_cons in Hr as [Hr|Hr];
         [ unfold analyzeEmotionFallback; rewrite Hr; left
         | right; apply elem_of_app; left; exact Hr ]).
    + apply Hvalid. destruct Hspec as [[E _]|(earlier & kws & later & E & _)].
      * rewrite E. left.
      * right. apply elem_of_app. right.
        rewrite E, map_app. apply elem_of_app. right. left.
  - destruct Hspec as [[E Hall]|Hspec]; [left|right; exact Hspec].
    split; [exact E|]. eapply Forall_impl; [exact Hall|]. cbn. intros. lia.
Qed.

(** ** Sanitizers *)

Lemma Forall_collapseWhiteSpace (Q : Z -> Prop) (s : jsstring) :
  Q 32%Z -> Forall Q s -> Forall Q (collapseWhiteSpace s).
Proof.
  intros Hsp. induction s as [|c t IH]; intros H; [constructor|].
  apply Forall_cons in H as [Hc Ht]. cbn [collapseWhiteSpace].
  destruct (JS.isWhiteSpace c).
  - destruct t as [|d t']; [repeat constructor; exact Hsp|].
    destruct (JS.isWhiteSpace d); [apply IH, Ht|].
    constructor; [exact Hsp|apply IH, Ht].
  - constructor; [exact Hc|apply IH, Ht].
Qed.

Lemma length_collapseWhiteSpace (s : jsstring) :
  (length (collapseWhiteSpace s) <= length s)%nat.
Proof.
  induction s as [|c t IH]; [reflexivity|]. cbn [collapseWhiteSpace].
  destruct (JS.isWhiteSpace c).
  - destruct t as [|d t']; [reflexivity|].
    destruct (JS.isWhiteSpace d); cbn [length] in *; lia.
  - cbn [length]. lia.
Qed.

Lemma collapseWhiteSpace_singleSpaced (s : jsstring) :
  singleSpaced (collapseWhiteSpace s) = true.
Proof.
  induction s as [|c t IH]; [reflexivity|]. cbn [collapseWhiteSpace].
  destruct (JS.isWhiteSpace c) eqn:Hc.
  - destruct t as [|d t']; [reflexivity|].
    destruct (JS.isWhiteSpace d) eqn:Hd; [exact IH|].
    cbn [singleSpaced]. rewrite IH.
    cbn [collapseWhiteSpace]. rewrite Hd. cbn. rewrite Hd. reflexivity.
  - cbn [singleSpaced]. rewrite Hc, IH. reflexivity.
Qed.

Lemma singleSpaced_app_r (a b : jsstring) :
  singleSpaced (a ++ b) = true -> singleSpaced b = true.
Proof.
  induction a as [|c a IH]; [auto|]. cbn [app singleSpaced].
  intros H. apply andb_prop in H as [_ H]. apply IH, H.
Qed.

Lemma singleSpaced_app_l (a b : jsstring) :
  singleSpaced (a ++ b) = true -> singleSpaced a = true.
Proof.
  induction a as [|c a IH]; [reflexivity|]. cbn [app singleSpaced].
  intros H. apply andb_prop in H as [Hc H]. rewrite (IH H), andb_true_r.
  apply orb_prop in Hc as [Hc|Hc]; [rewrite Hc; reflexivity|].
  apply andb_prop in Hc as [Hc Hd]. rewrite Hc. cbn [andb].
  destruct a as [|d a]; [apply orb_true_r|]. cbn [app] in Hd. rewrite Hd.
  apply orb_true_r.
Qed.

Lemma singleSpaced_trim (s : jsstring) :
  singleSpaced s = true -> singleSpaced (JS.trim s) = true.
Proof.
  intros H. destruct (trim_split s) as (pre & post & E). rewrite E in H.
  apply singleSpaced_app_r in H. apply singleSpaced_app_l in H. exact H.
Qed.

Lemma singleSpaced_take (n : nat) (s : jsstring) :
  singleSpaced s = true -> singleSpaced (take n s) = true.
Proof.
  intros H. rewrite <- (take_drop n s) in H. apply singleSpaced_app_l in H. exact H.
Qed.

Lemma Forall_take_jsstring (Q : Z -> Prop) (n : nat) (s : jsstring) :
  Forall Q s -> Forall Q (take n s).
Proof.
  intros H. rewrite <- (take_drop n s) in H. apply Forall_app in H as [H _]. exact H.
Qed.

Lemma Forall_filter_keeps (f : Z -> bool) (s : jsstring) :
  Forall (fun c => f c = true) (List.filter f s).
Proof.
  induction s as [|c t IH]; [constructor|]. cbn [List.filter].
  destruct (f c) eqn:E; [constructor; assumption|exact IH].
Qed.

Lemma Forall_forallb_true (f : Z -> bool) (s : jsstring) :
  Forall (fun c => f c = true) s -> forallb f s = true.
Proof.
  induction 1 as [|c t Hc _ IH]; [reflexivity|]. cbn [forallb]. rewrite Hc. exact IH.
Qed.

Lemma trimStart_blank (s : jsstring) :
  JS.trimStart s = [] -> Forall (fun c => JS.isWhiteSpace c = true) s.
Proof.
  induction s as [|c t IH]; [constructor|]. cbn [JS.trimStart].
  destruct (JS.isWhiteSpace c) eqn:E; [|discriminate].
  intros H. constructor; [exact E|apply IH, H].
Qed.

Lemma trim_blank (s : jsstring) :
  JS.trim s = [] -> Forall (fun c => JS.isWhiteSpace c = true) s.
Proof.
  unfold JS.trim, JS.trimEnd. intros H.
  destruct (trimStart_shape s) as [E|(d & u & E & Hd)].
  - apply trimStart_blank, E.
  - rewrite E in H. cbn [rev] in H.
    destruct (trimStart_snoc (rev u) d Hd) as [l' El]. rewrite El in H.
    rewrite rev_app_distr in H. discriminate.
Qed.

Lemma singleSpaced_not_blank (s : jsstring) :
  singleSpaced s = true -> (2 <= length s)%nat -> JS.trim s <> [].
Proof.
  intros Hs Hlen Hblank. apply trim_blank in Hblank.
  destruct s as [|c [|d r]]; cbn [length] in Hlen; try lia.
  apply Forall_cons in Hblank as [Hc Hrest]. apply Forall_cons in Hrest as [Hd _].
  cbn [singleSpaced] in Hs. apply andb_prop in Hs as [Hs _].
  rewrite Hc, Hd in Hs. cbn in Hs. rewrite andb_false_r in Hs. discriminate.
Qed.

Lemma sanitizeName_shape (input : jsstring) :
  (length (sanitizeName input) <= 100)%nat
  /\ Forall (fun c => isWordChar c || (c =? 32)%Z || (c =? 39)%Z || (c =? 45)%Z = true)
       (sanitizeName input)
  /\ singleSpaced (sanitizeName input) = true.
Proof.
  unfold sanitizeName. destruct (negb (JS.truthy input)).
  { split; [cbn; lia|]. split; [constructor|reflexivity]. }
  unfold JS.substring0. split; [rewrite length_take; lia|]. split.
  - apply Forall_take_jsstring.
    pose proof (collapseWhiteSpace_singleSpaced
                  (List.filter
                     (fun c => isWordChar c || JS.isWhiteSpace c
                               || (c =? 39)%Z || (c =? 45)%Z) (JS.trim input))) as Hs.
    pose proof (Forall_collapseWhiteSpace
                  (fun c => isWordChar c || JS.isWhiteSpace c
                            || (c =? 39)%Z || (c =? 45)%Z = true)
                  _ eq_refl (Forall_filter_keeps _ (JS.trim input))) as Hf.
    revert Hs Hf. generalize (collapseWhiteSpace
       (List.filter (fun c => isWordChar c || JS.isWhiteSpace c
                              || (c =? 39)%Z || (c =? 45)%Z) (JS.trim input))).
    intros l. induction l as [|c t IH]; intros Hs Hf; [constructor|].
    cbn [singleSpaced] in Hs. apply andb_prop in Hs as [Hc Hs].
    apply Forall_cons in Hf as [Hfc Hf].
    constructor; [|apply IH; assumption].
    apply orb_prop in Hc as [Hc|Hc].
    + apply negb_true_iff in Hc. rewrite Hc, orb_false_r in Hfc.
      apply orb_prop in Hfc as [Hfc| ->]; [|apply orb_true_r].
      apply orb_prop in Hfc as [ -> | -> ]; [reflexivity|].
      rewrite orb_true_r. reflexivity.
    + apply andb_prop in Hc as [-> _]. rewrite orb_true_r. reflexivity.
  - apply singleSpaced_take, collapseWhiteSpace_singleSpaced.
Qed.

(** X9. What [sanitizeName] returns has at most 100 code units, each a word
    character, a space, an apostrophe or a hyphen; its only white space is
    single spaces; and from two code units on it is not blank. *)
Theorem sanitizeName_output (input : jsstring) :
  (length (sanitizeName input) <= 100)%nat
  /\ Forall (fun c => isWordChar c || (c =? 32)%Z || (c =? 39)%Z || (c =? 45)%Z = true)
       (sanitizeName input)
  /\ singleSpaced (sanitizeName input) = true
  /\ ((2 <= length (sanitizeName input))%nat -> JS.trim (sanitizeName input) <> []).
Proof.
  destruct (sanitizeName_shape input) as (H1 & H2 & H3).
  split; [exact H1|]. split; [exact H2|]. split; [exact H3|].
  apply singleSpaced_not_blank, H3.
Qed.

Section SanitizeText.

Import Capsule.

Lemma htmlEntity_plain (c : Z) :
  Forall (fun d => isMarkup d = false \/ d = 38%Z) (htmlEntity c)
  /\ (length (htmlEntity c) <= 6)%nat.
Proof.
  unfold htmlEntity.
  destruct (c =? 38)%Z eqn:E1;
    [split; [apply (bool_decide_unpack _); vm_compute; exact I|vm_compute; lia]|].
  destruct (c =? 60)%Z eqn:E2;
    [split; [apply (bool_decide_unpack _); vm_compute; exact I|vm_compute; lia]|].
  destruct (c =? 62)%Z eqn:E3;
    [split; [apply (bool_decide_unpack _); vm_compute; exact I|vm_compute; lia]|].
  destruct (c =? 34)%Z eqn:E4;
    [split; [apply (bool_decide_unpack _); vm_compute; exact I|vm_compute; lia]|].
  destruct (c =? 39)%Z eqn:E5;
    [split; [apply (bool_decide_unpack _); vm_compute; exact I|vm_compute; lia]|].
  destruct (c =? 47)%Z eqn:E6;
    [split; [apply (bool_decide_unpack _); vm_compute; exact I|vm_compute; lia]|].
  split; [|cbn; lia]. constructor; [left|constructor].
  unfold isMarkup. rewrite E1, E2, E3, E4, E5, E6. reflexivity.
Qed.

Lemma flat_map_htmlEntity (s : jsstring) :
  Forall (fun d => isMarkup d = false \/ d = 38%Z) (flat_map htmlEntity s)
  /\ (length (flat_map htmlEntity s) <= 6 * length s)%nat.
Proof.
  induction s as [|c t [IH1 IH2]]; [split; [constructor|reflexivity]|].
  cbn [flat_map]. destruct (htmlEntity_plain c) as [H1 H2].
  split; [apply Forall_app; split; assumption|].
  rewrite length_app. cbn [length]. lia.
Qed.

(** X10. What [sanitizeText] returns holds no angle bracket, no
    double quote, no apostrophe and no slash; its only white space is single spaces; it is
    trimmed; and it is at most six times as long as the input. *)
Theorem sanitizeText_output (input : jsstring) :
  Forall (fun c => c <> 60%Z /\ c <> 62%Z /\ c <> 34%Z /\ c <> 39%Z /\ c <> 47%Z)
    (sanitizeText input)
  /\ singleSpaced (sanitizeText input) = true
  /\ JS.trim (sanitizeText input) = sanitizeText input
  /\ (length (sanitizeText input) <= 6 * length input)%nat.
Proof.
  split; [|split; [|split; [apply sanitizeText_trimmed|]]].
  - unfold sanitizeText. destruct (negb (JS.truthy input)); [constructor|].
    apply Forall_trim, Forall_collapseWhiteSpace; [repeat split; discriminate|].
    eapply Forall_impl; [apply (proj1 (flat_map_htmlEntity input))|].
    cbn. intros d [Hd| ->]; [|repeat split; discriminate].
    unfold isMarkup in Hd.
    repeat match type of Hd with
           | (_ || _) = false => apply orb_false_iff in Hd as [Hd ?]
           end.
    repeat match goal with
           | H : (_ =? _)%Z = false |- _ => apply Z.eqb_neq in H
           end.
    repeat split; assumption.
  - unfold sanitizeText. destruct (negb (JS.truthy input)); [reflexivity|].
    apply singleSpaced_trim, collapseWhiteSpace_singleSpaced.
  - unfold sanitizeText. destruct (negb (JS.truthy input)); [cbn; lia|].
    pose proof (length_trim (collapseWhiteSpace (flat_map htmlEntity input))).
    pose proof (length_collapseWhiteSpace (flat_map htmlEntity input)).
    pose proof (proj2 (flat_map_htmlEntity input)). lia.
Qed.

End SanitizeText.

(** X11. A name that went through [sanitizeVoiceName] passes
    [validateVoiceName] exactly when it has at least two code units: length
    bound and character rule of the schema hold of every sanitized name. *)
Theorem sanitizeVoiceName_validates (input : jsstring) :
  validateVoiceName (sanitizeVoiceName input)
  = (2 <=? length (sanitizeVoiceName input))%nat
  /\ singleSpaced (sanitizeVoiceName input) = true.
Proof.
  unfold sanitizeVoiceName. destruct (negb (JS.truthy input)); [split; reflexivity|].
  split; [|apply singleSpaced_take, collapseWhiteSpace_singleSpaced].
  set (out := JS.substring0 50 _).
  assert (Hlen : (length out <= 50)%nat).
  { subst out. unfold JS.substring0. rewrite length_take. lia. }
  assert (Hchars : forallb (fun c => isAlphaNumeric c || JS.isWhiteSpace c
                                     || (c =? 39)%Z || (c =? 45)%Z) out = true).
  { apply Forall_forallb_true.
    subst out. unfold JS.substring0. apply Forall_take_jsstring.
    apply Forall_collapseWhiteSpace; [reflexivity|apply Forall_filter_keeps]. }
  unfold validateVoiceName. rewrite Hchars, andb_true_r.
  apply Nat.leb_le in Hlen. rewrite Hlen, andb_true_r.
  destruct out as [|c out']; [reflexivity|]. cbn [JS.truthy]. apply andb_true_r.
Qed.

(** ** Form validators *)

Lemma trim_head (s : jsstring) (c : Z) (r : jsstring) :
  JS.trim s = c :: r -> JS.isWhiteSpace c = false.
Proof.
  unfold JS.trim, JS.trimEnd.
  destruct (trimStart_shape s) as [E|(d & u & E & Hd)]; rewrite E; [discriminate|].
  cbn [rev]. destruct (trimStart_snoc (rev u) d Hd) as [l' El].
  rewrite El, rev_app_distr. cbn [rev app]. intros [= <- _]. exact Hd.
Qed.

Lemma collapseWhiteSpace_nonempty (s : jsstring) :
  s <> [] -> collapseWhiteSpace s <> [].
Proof.
  induction s as [|c t IH]; [congruence|]. intros _. cbn [collapseWhiteSpace].
  destruct (JS.isWhiteSpace c); [|discriminate].
  destruct t as [|d t']; [discriminate|].
  destruct (JS.isWhiteSpace d); [apply IH; discriminate|discriminate].
Qed.

Lemma collapseWhiteSpace_cons (c : Z) (t : jsstring) :
  JS.isWhiteSpace c = false -> collapseWhiteSpace (c :: t) = c :: collapseWhiteSpace t.
Proof. intros H. cbn [collapseWhiteSpace]. rewrite H. reflexivity. Qed.

Lemma forallb_Forall_true (f : Z -> bool) (s : jsstring) :
  forallb f s = true -> Forall (fun c => f c = true) s.
Proof.
  induction s as [|c t IH]; [constructor|]. cbn [forallb]. intros H.
  apply andb_prop in H as [Hc Ht]. constructor; [exact Hc|apply IH, Ht].
Qed.

Section ValidationProperties.

Import Validation.

(** X12. A name that [Validators.voiceName] accepts is accepted further
    down: it passes the name check of [cloneVoice] and, once trimmed and
    sanitized by the table's hook, the name rule of the voice-model schema.
    The validator then reports no error. *)
Theorem Validators_voiceName_accepted (name : jsstring) :
  isValid (voiceName name) = true ->
  acceptedVoiceName name = true /\ errors (voiceName name) = [].
Proof.
  unfold voiceName, validate. cbn [List.filter rule_validate required validVoiceName isValid errors].
  destruct (0 <? length (JS.trim name))%nat eqn:Hreq; cbn [negb]; [|discriminate].
  destruct (JS.truthy name) eqn:Htruthy; cbn [negb]; [|discriminate].
  cbv zeta.
  destruct ((2 <=? length (JS.trim name))%nat && (length (JS.trim name) <=? 50)%nat
            && (JS.truthy (JS.trim name) && forallb _ (JS.trim name))) eqn:Hrule;
    cbn [negb]; [|discriminate].
  intros _. split; [|reflexivity].
  apply andb_prop in Hrule as [Hlen Hchars].
  apply andb_prop in Hlen as [Hmin Hmax].
  apply andb_prop in Hchars as [Hne Hchars].
  apply Nat.leb_le in Hmin, Hmax.
  unfold acceptedVoiceName. rewrite Htruthy, Hreq. cbn [andb]. cbv zeta.
  set (t := JS.trim name) in *.
  assert (Hsan : sanitizeName t = collapseWhiteSpace t).
  { unfold sanitizeName. rewrite Hne. cbn [negb]. subst t.
    rewrite trim_idempotent. set (t := JS.trim name) in *.
    rewrite filter_id.
    - unfold JS.substring0. apply take_ge.
      pose proof (length_collapseWhiteSpace t). lia.
    - eapply Forall_impl; [apply forallb_Forall_true, Hchars|].
      cbn. intros c Hc. unfold isWordChar.
      apply orb_prop in Hc as [Hc| ->]; [|apply orb_true_r].
      apply orb_prop in Hc as [Hc| ->]; [|rewrite orb_true_r; reflexivity].
      apply orb_prop in Hc as [ -> | -> ]; [reflexivity|].
      rewrite orb_true_r. reflexivity. }
  rewrite Hsan.
  assert (Hlen2 : (2 <= length (collapseWhiteSpace t))%nat).
  { destruct t as [|c [|d t']] eqn:Et; cbn [length] in Hmin; try lia.
    pose proof (trim_head name c (d :: t') Et) as Hc.
    rewrite (collapseWhiteSpace_cons c (d :: t') Hc).
    pose proof (collapseWhiteSpace_nonempty (d :: t') ltac:(discriminate)) as Hn.
    destruct (collapseWhiteSpace (d :: t')); [contradiction|]. cbn [length]. lia. }
  pose proof (length_collapseWhiteSpace t) as Hlen3.
  apply Nat.leb_le in Hlen2. rewrite Hlen2. cbn [andb].
  assert (Hmax' : (length (collapseWhiteSpace t) <=? 50)%nat = true)
    by (apply Nat.leb_le; lia).
  rewrite Hmax'. cbn [andb].
  apply Forall_forallb_true, Forall_collapseWhiteSpace; [reflexivity|].
  apply forallb_Forall_true, Hchars.
Qed.

Lemma Validators_voiceName_accepted_witness :
  acceptedVoiceName (JS.lit "Mom's Voice") = true
  /\ errors (voiceName (JS.lit "Mom's Voice")) = [].
Proof.
  apply (Validators_voiceName_accepted (JS.lit "Mom's Voice")).
  vm_compute. reflexivity.
Defined.

Lemma voiceSamplesFrom_spec (i : nat) (samples : list Blob) :
  (Forall (fun b => validatedSample b = true) samples
   /\ voiceSamplesFrom i samples = {| isValid := true; errors := [] |})
  \/ (~ Forall (fun b => validatedSample b = true) samples
      /\ exists message,
           voiceSamplesFrom i samples = {| isValid := false; errors := [message] |}).
Proof.
  revert i. induction samples as [|b rest IH]; intros i.
  - left. split; [constructor|reflexivity].
  - cbn [voiceSamplesFrom]. unfold validate.
    cbn [List.filter rule_validate validAudioBlob isValid errors rule_message].
    fold (validatedSample b).
    destruct (validatedSample b) eqn:Hb; cbn [negb map length Nat.eqb].
    + destruct (IH (S i)) as [[Hall E]|[Hnot [message E]]].
      * left. split; [constructor; assumption|exact E].
      * right. split; [|exists message; exact E].
        intros H. apply Forall_cons in H as [_ H]. exact (Hnot H).
    + right. split; [|eexists; reflexivity].
      intros H. apply Forall_cons in H as [H _]. congruence.
Qed.

Lemma validatedSample_accepted (b : Blob) :
  validatedSample b = true -> acceptedSample b = true.
Proof.
  unfold validatedSample, acceptedSample. intros H.
  apply andb_prop in H as [Hlo Hhi]. apply Z.ltb_lt in Hlo, Hhi.
  apply andb_true_intro. split; apply Z.leb_le; lia.
Qed.

(** X13. [Validators.voiceSamples] accepts exactly the sets of at least
    three samples that are each larger than 1000 bytes and smaller than
    10 MB. What it accepts passes the count check and the sample loop of
    [cloneVoice] under the default configuration; what it rejects is
    reported with exactly one error. *)
Theorem Validators_voiceSamples_accepts (samples : list Blob) :
  (isValid (voiceSamples samples) = true
   <-> (3 <= length samples)%nat
       /\ Forall (fun b => validatedSample b = true) samples)
  /\ (isValid (voiceSamples samples) = true ->
      errors (voiceSamples samples) = []
      /\ (requiredSamples defaultVoiceConfig <= length samples)%nat
      /\ validateSamples defaultVoiceConfig 0 samples = Ok tt)
  /\ (isValid (voiceSamples samples) = false ->
      exists message, errors (voiceSamples samples) = [message]).
Proof.
  unfold voiceSamples, validate.
  cbn [List.filter rule_validate minArrayLength isValid errors rule_message].
  destruct (3 <=? length samples)%nat eqn:Hcount; cbn [negb map length Nat.eqb].
  - apply Nat.leb_le in Hcount.
    destruct (voiceSamplesFrom_spec 0 samples) as [[Hall E]|[Hnot [message E]]];
      rewrite E; cbn [isValid errors].
    + split; [split; [intros _; split; assumption|reflexivity]|].
      split; [|discriminate]. intros _. split; [reflexivity|].
      split; [exact Hcount|]. apply validateSamples_accepted.
      eapply Forall_impl; [exact Hall|]. apply validatedSample_accepted.
    + split; [split; [discriminate|intros [_ H]; destruct (Hnot H)]|].
      split; [discriminate|]. intros _. exists message. reflexivity.
  - apply Nat.leb_gt in Hcount.
    split; [split; [discriminate|intros [H _]; lia]|].
    split; [discriminate|]. intros _. eexists. reflexivity.
Qed.

End ValidationProperties.

Section TitleProperties.

Import Validation.

(** X14. [Validators.heirloomTitle] accepts exactly the titles of 3 to 100
    code units once trimmed, [Validators.recipientName] the names of 2 to
    50. A blank title is reported as required and as too short, in this
    order, and a result is valid exactly when it lists no error. *)
Theorem Validators_titles (text : jsstring) :
  isValid (heirloomTitle text)
  = ((3 <=? length (JS.trim text))%nat && (length (JS.trim text) <=? 100)%nat)
  /\ isValid (recipientName text)
     = ((2 <=? length (JS.trim text))%nat && (length (JS.trim text) <=? 50)%nat)
  /\ (JS.trim text = [] ->
      errors (heirloomTitle text)
      = [ JS.lit "Heirloom title is required";
          JS.lit "Title must be at least 3 characters" ]
      /\ getFirstError (recipientName text)
         = Some (JS.lit "Recipient name is required"))
  /\ (isValid (heirloomTitle text) = true <-> errors (heirloomTitle text) = []).
Proof.
  unfold heirloomTitle, recipientName, validate, getFirstError.
  cbn [List.filter rule_validate required minLength maxLength isValid errors].
  split; [|split; [|split]].
  - destruct (Nat.ltb_spec 0 (length (JS.trim text)));
      destruct (Nat.leb_spec 3 (length (JS.trim text)));
      destruct (Nat.leb_spec (length (JS.trim text)) 100);
      cbn [negb map length Nat.eqb andb]; try reflexivity; lia.
  - destruct (Nat.ltb_spec 0 (length (JS.trim text)));
      destruct (Nat.leb_spec 2 (length (JS.trim text)));
      destruct (Nat.leb_spec (length (JS.trim text)) 50);
      cbn [negb map length Nat.eqb andb]; try reflexivity; lia.
  - intros ->. cbn. split; reflexivity.
  - destruct (0 <? length (JS.trim text))%nat;
      destruct (3 <=? length (JS.trim text))%nat;
      destruct (length (JS.trim text) <=? 100)%nat;
      cbn [negb map length Nat.eqb rule_message required minLength maxLength];
      split; try discriminate; reflexivity.
Qed.

End TitleProperties.

(** ** Voice models: cloning, synthesis, removal *)

Lemma validateVoiceModel_id (m : VoiceModel) (k : option nat) :
  validateVoiceModel
    {| id := k; modelId := modelId m; name := name m; samples := samples m;
       sampleBlobs := sampleBlobs m; createdAt := createdAt m;
       isActive := isActive m; isElevenLabsModel := isElevenLabsModel m;
       quality := quality m |}
  = validateVoiceModel m.
Proof. reflexivity. Qed.

(** [db.voiceModels.add]: a rejection leaves the table as it was; otherwise
    the sanitized object is appended under the next key. *)
Lemma VoiceTable_add_cases (accepts : bool) (obj : VoiceModel) (tbl : VoiceTable.t) :
  (exists message, VoiceTable.add accepts obj tbl = (Throw message, tbl))
  \/ (validateVoiceModel (sanitizeVoiceModel obj) = true
      /\ VoiceTable.add accepts obj tbl
         = (Ok (VoiceTable.nextId tbl),
            {| VoiceTable.rows :=
                 VoiceTable.rows tbl
                 ++ [ {| id := Some (VoiceTable.nextId tbl);
                         modelId := sanitizeName (modelId obj);
                         name := sanitizeName (name obj);
                         samples := samples obj; sampleBlobs := sampleBlobs obj;
                         createdAt := createdAt obj; isActive := isActive obj;
                         isElevenLabsModel := isElevenLabsModel obj;
                         quality := quality obj |} ];
               VoiceTable.nextId := S (VoiceTable.nextId tbl) |})).
Proof.
  unfold VoiceTable.add, VoiceTable.creatingHook.
  destruct (validateVoiceModel (sanitizeVoiceModel obj)) eqn:Hv.
  - destruct accepts; [right|left; eexists; reflexivity].
    split; reflexivity.
  - left. eexists. reflexivity.
Qed.

Lemma cloneVoice_outcome (env : VoiceEnv) (tbl : VoiceTable.t)
    (voiceName : jsstring) (blobs : list Blob) :
  let result := cloneVoice env tbl voiceName blobs in
  match returned result with
  | Throw _ => table result = tbl
  | Ok identifier =>
      exists remote,
        table result
        = {| VoiceTable.rows :=
               VoiceTable.rows tbl
               ++ [clonedRow env tbl voiceName blobs identifier remote];
             VoiceTable.nextId := S (VoiceTable.nextId tbl) |}
        /\ validateVoiceModel (clonedRow env tbl voiceName blobs identifier remote)
           = true
        /\ (requiredSamples (voiceConfig env) <= length blobs)%nat
        /\ validateSamples (voiceConfig env) 0 blobs = Ok tt
        /\ match fst (ElevenLabs.cloneVoice (apiKey env) (cloneFetch env)) with
           | Ok voice_id => remote = true /\ voice_id = Some identifier
           | Throw _ => remote = false /\ identifier = localModelId env
           end
  end.
Proof.
  cbv zeta. unfold cloneVoice.
  destruct (negb (JS.truthy voiceName) || _); [reflexivity|].
  destruct (length blobs =? 0)%nat; [reflexivity|].
  destruct (length blobs <? requiredSamples (voiceConfig env))%nat eqn:Hcount;
    [reflexivity|].
  apply Nat.ltb_ge in Hcount.
  destruct (validateSamples (voiceConfig env) 0 blobs) as [[]|message] eqn:Hsamples;
    [|reflexivity].
  destruct (ElevenLabs.cloneVoice (apiKey env) (cloneFetch env))
    as [remote requests].
  cbn [fst].
  destruct remote as [[voice_id|]|reason]; try reflexivity.
  - match goal with
    | |- context [VoiceTable.add ?a ?r tbl] =>
        destruct (VoiceTable_add_cases a r tbl) as [[message E]|[Hv E]]; rewrite E
    end.
    + reflexivity.
    + cbn [returned table]. exists true.
      split; [reflexivity|]. split; [exact Hv|]. split; [exact Hcount|].
      split; [reflexivity|]. split; reflexivity.
  - match goal with
    | |- context [VoiceTable.add ?a ?r tbl] =>
        destruct (VoiceTable_add_cases a r tbl) as [[message E]|[Hv E]]; rewrite E
    end.
    + reflexivity.
    + cbn [returned table]. exists false.
      split; [reflexivity|]. split; [exact Hv|]. split; [exact Hcount|].
      split; [reflexivity|]. split; reflexivity.
Qed.

(** X15. [cloneVoice] contacts the remote service at most once, at the
    clone endpoint, and only after all its checks have passed: the name is
    not blank, the samples are as many as required and each passes the
    sample loop, and an API key is configured. Without an API key it
    requests nothing. *)
Theorem cloneVoice_requests (env : VoiceEnv) (tbl : VoiceTable.t)
    (voiceName : jsstring) (blobs : list Blob) :
  let result := cloneVoice env tbl voiceName blobs in
  (requested result = []
   \/ (requested result = [ElevenLabs.baseUrl ++ JS.lit "/voices/add"]
       /\ apiKey env <> []
       /\ JS.trim voiceName <> []
       /\ (requiredSamples (voiceConfig env) <= length blobs)%nat
       /\ validateSamples (voiceConfig env) 0 blobs = Ok tt))
  /\ (apiKey env = [] -> requested result = []).
Proof.
  cbv zeta. unfold cloneVoice.
  destruct (negb (JS.truthy voiceName) || _) eqn:Hname;
    [split; [left; reflexivity|reflexivity]|].
  destruct (length blobs =? 0)%nat; [split; [left; reflexivity|reflexivity]|].
  destruct (length blobs <? requiredSamples (voiceConfig env))%nat eqn:Hcount;
    [split; [left; reflexivity|reflexivity]|].
  apply Nat.ltb_ge in Hcount.
  destruct (validateSamples (voiceConfig env) 0 blobs) as [[]|message] eqn:Hsamples;
    [|split; [left; reflexivity|reflexivity]].
  assert (Htrim : JS.trim voiceName <> []).
  { apply orb_false_iff in Hname as [_ Hname]. apply Nat.eqb_neq in Hname.
    intros E. rewrite E in Hname. apply Hname. reflexivity. }
  assert (Hreq : forall r : CloneResult,
            requested r = snd (ElevenLabs.cloneVoice (apiKey env) (cloneFetch env)) ->
            (requested r = []
             \/ (requested r = [ElevenLabs.baseUrl ++ JS.lit "/voices/add"]
                 /\ apiKey env <> [] /\ JS.trim voiceName <> []
                 /\ (requiredSamples (voiceConfig env) <= length blobs)%nat
                 /\ Ok tt = Ok tt))
            /\ (apiKey env = [] -> requested r = [])).
  { intros r ->. unfold ElevenLabs.cloneVoice.
    destruct (apiKey env) as [|c key]; cbn [JS.truthy negb snd].
    - split; [left; reflexivity|reflexivity].
    - split; [|discriminate]. right.
      destruct (cloneFetch env) as [reason|ok statusText voice_id];
        [|destruct ok]; cbn [negb snd];
        (split; [reflexivity|]; split; [discriminate|]; split; [exact Htrim|];
         split; [exact Hcount|reflexivity]). }
  destruct (ElevenLabs.cloneVoice (apiKey env) (cloneFetch env))
    as [remote requests] eqn:Hremote.
  cbn [snd] in Hreq.
  destruct remote as [[voice_id|]|reason];
    try (apply Hreq; reflexivity);
    match goal with
    | |- context [VoiceTable.add ?a ?r tbl] =>
        destruct (VoiceTable.add a r tbl) as [[k|m] tbl']
    end; apply Hreq; reflexivity.
Qed.

(** The exact result of a clone that is stored. *)
Lemma cloneVoice_stored (env : VoiceEnv) (tbl : VoiceTable.t)
    (voiceName : jsstring) (blobs : list Blob) (identifier : jsstring) :
  voiceConfig env = defaultVoiceConfig ->
  acceptedVoiceName voiceName = true ->
  (3 <= length blobs)%nat ->
  Forall (fun b => acceptedSample b = true) blobs ->
  storageAccepts env = true ->
  sanitizeName identifier = identifier ->
  identifier <> [] ->
  match fst (ElevenLabs.cloneVoice (apiKey env) (cloneFetch env)) with
  | Ok voice_id => voice_id = Some identifier
  | Throw _ => identifier = localModelId env
  end ->
  cloneVoice env tbl voiceName blobs
  = {| returned := Ok identifier;
       table :=
         {| VoiceTable.rows :=
              VoiceTable.rows tbl
              ++ [clonedRow env tbl voiceName blobs identifier
                    (match fst (ElevenLabs.cloneVoice (apiKey env) (cloneFetch env))
                     with Ok _ => true | Throw _ => false end)];
            VoiceTable.nextId := S (VoiceTable.nextId tbl) |};
       requested := snd (ElevenLabs.cloneVoice (apiKey env) (cloneFetch env)) |}.
Proof.
  intros Hcfg Hname Hcount Hsamples Hstore Hid Hne Hremote.
  unfold acceptedVoiceName in Hname.
  apply andb_prop in Hname as [Hname Hschema].
  apply andb_prop in Hname as [Htruthy Htrim].
  cbv zeta in Hschema.
  apply andb_prop in Hschema as [Hschema Hchars].
  apply andb_prop in Hschema as [Hmin Hmax].
  unfold cloneVoice.
  rewrite Htruthy. apply Nat.ltb_lt in Htrim.
  destruct (Nat.eqb_spec (length (JS.trim voiceName)) 0) as [E|_]; [lia|].
  destruct (Nat.eqb_spec (length blobs) 0) as [E|_]; [lia|].
  rewrite Hcfg. cbn [negb orb requiredSamples defaultVoiceConfig].
  destruct (Nat.ltb_spec (length blobs) 3) as [E|_]; [lia|].
  rewrite (validateSamples_accepted 0 blobs Hsamples).
  destruct (ElevenLabs.cloneVoice (apiKey env) (cloneFetch env))
    as [remote requests].
  cbn [fst snd] in *.
  assert (Hvalid : forall flag q,
            validateVoiceModel
              (sanitizeVoiceModel
                 {| id := None; modelId := identifier; name := JS.trim voiceName;
                    samples := sampleFileNames blobs; sampleBlobs := Some blobs;
                    createdAt := now env; isActive := true;
                    isElevenLabsModel := flag; quality := q |}) = true).
  { intros flag q. unfold validateVoiceModel, sanitizeVoiceModel.
    cbn [modelId name samples sampleBlobs].
    rewrite Hid, Hmin, Hmax, Hchars.
    unfold sampleFileNames. rewrite length_imap.
    destruct identifier as [|c ident]; [contradiction|].
    destruct blobs as [|s1 [|s2 [|s3 rest]]]; simpl in Hcount; try lia.
    replace (forallb BlobSchema (s1 :: s2 :: s3 :: rest)) with true.
    - reflexivity.
    - symmetry. apply forallb_forall. intros b Hb.
      apply acceptedSample_BlobSchema.
      apply (proj1 (Forall_forall _ _) Hsamples).
      apply list_elem_of_In. exact Hb. }
  destruct remote as [voice_id|reason]; subst.
  - unfold VoiceTable.add, VoiceTable.creatingHook.
    rewrite Hvalid, Hstore. unfold clonedRow. reflexivity.
  - unfold VoiceTable.add, VoiceTable.creatingHook.
    rewrite Hvalid, Hstore. unfold clonedRow. reflexivity.
Qed.

Lemma wellKeyed_empty : wellKeyed VoiceTable.empty.
Proof. split; constructor. Qed.

Lemma wellKeyed_snoc (tbl : VoiceTable.t) (m : VoiceModel) :
  wellKeyed tbl ->
  validateVoiceModel m = true ->
  id m = Some (VoiceTable.nextId tbl) ->
  wellKeyed {| VoiceTable.rows := VoiceTable.rows tbl ++ [m];
               VoiceTable.nextId := S (VoiceTable.nextId tbl) |}.
Proof.
  intros [Hrows Hdup] Hv Hid. unfold wellKeyed. cbn [VoiceTable.rows VoiceTable.nextId].
  split.
  - apply Forall_app. split.
    + eapply Forall_impl; [exact Hrows|]. cbn. intros r [Hr (k & Hk & Hlt)].
      split; [exact Hr|]. exists k. split; [exact Hk|lia].
    + constructor; [|constructor]. split; [exact Hv|].
      exists (VoiceTable.nextId tbl). split; [exact Hid|lia].
  - rewrite map_app. cbn [map]. apply NoDup_app. split; [exact Hdup|].
    split; [|apply NoDup_singleton].
    intros k Hk Hin. apply list_elem_of_singleton in Hin. subst k.
    apply list_elem_of_fmap in Hk as (r & Hr & Hin).
    apply (proj1 (Forall_forall _ _) Hrows) in Hin as [_ (k & Hk & Hlt)].
    rewrite Hid in Hr. rewrite <- Hr in Hk. injection Hk as <-. lia.
Qed.

(** X16. [cloneVoice] changes the table only by success. When it rejects,
    the table is as it was. When it resolves with an id, exactly one row has
    been appended under the next primary key: active, passing the schema,
    of remote origin with the id the service returned or of local origin
    with the generated id; the count check and the sample loop had passed.
    In both cases rows that passed the schema under distinct keys still do. *)
Theorem cloneVoice_frame (env : VoiceEnv) (tbl : VoiceTable.t)
    (voiceName : jsstring) (blobs : list Blob) :
  let result := cloneVoice env tbl voiceName blobs in
  match returned result with
  | Throw _ => table result = tbl
  | Ok identifier =>
      exists remote,
        table result
        = {| VoiceTable.rows :=
               VoiceTable.rows tbl
               ++ [clonedRow env tbl voiceName blobs identifier remote];
             VoiceTable.nextId := S (VoiceTable.nextId tbl) |}
        /\ validateVoiceModel (clonedRow env tbl voiceName blobs identifier remote)
           = true
        /\ (requiredSamples (voiceConfig env) <= length blobs)%nat
        /\ validateSamples (voiceConfig env) 0 blobs = Ok tt
        /\ match fst (ElevenLabs.cloneVoice (apiKey env) (cloneFetch env)) with
           | Ok voice_id => remote = true /\ voice_id = Some identifier
           | Throw _ => remote = false /\ identifier = localModelId env
           end
  end
  /\ (wellKeyed tbl -> wellKeyed (table result)).
Proof.
  cbv zeta. pose proof (cloneVoice_outcome env tbl voiceName blobs) as H.
  cbv zeta in H. split; [exact H|].
  intros Hw. destruct (returned (cloneVoice env tbl voiceName blobs)) as [identifier|m].
  - destruct H as (remote & -> & Hv & _). apply wellKeyed_snoc; [exact Hw|exact Hv|].
    reflexivity.
  - rewrite H. exact Hw.
Qed.

Lemma find_none_filter (key : jsstring) (rows : list VoiceModel) :
  List.find (fun m => JS.eqb (modelId m) key) rows = None ->
  List.filter (fun m => negb (JS.eqb (modelId m) key)) rows = rows.
Proof.
  induction rows as [|r rows IH]; [reflexivity|]. cbn [List.find List.filter].
  destruct (JS.eqb (modelId r) key); [discriminate|]. intros H. cbn [negb].
  rewrite (IH H). reflexivity.
Qed.

Lemma find_filter_removed (key : jsstring) (rows : list VoiceModel) :
  List.find (fun m => JS.eqb (modelId m) key)
    (List.filter (fun m => negb (JS.eqb (modelId m) key)) rows) = None.
Proof.
  induction rows as [|r rows IH]; [reflexivity|]. cbn [List.filter].
  destruct (JS.eqb (modelId r) key) eqn:E; cbn [negb]; [exact IH|].
  cbn [List.find]. rewrite E. exact IH.
Qed.

Lemma find_filter_other (key other : jsstring) (rows : list VoiceModel) :
  other <> key ->
  List.find (fun m => JS.eqb (modelId m) other)
    (List.filter (fun m => negb (JS.eqb (modelId m) key)) rows)
  = List.find (fun m => JS.eqb (modelId m) other) rows.
Proof.
  intros Hne. induction rows as [|r rows IH]; [reflexivity|]. cbn [List.filter List.find].
  destruct (JS.eqb (modelId r) key) eqn:E; cbn [negb].
  - destruct (JS.eqb (modelId r) other) eqn:E'; [|exact IH].
    unfold JS.eqb in E, E'. apply bool_decide_eq_true in E, E'. congruence.
  - cbn [List.find]. rewrite IH. reflexivity.
Qed.

Lemma wellKeyed_filter (f : VoiceModel -> bool) (tbl : VoiceTable.t) :
  wellKeyed tbl ->
  wellKeyed {| VoiceTable.rows := List.filter f (VoiceTable.rows tbl);
               VoiceTable.nextId := VoiceTable.nextId tbl |}.
Proof.
  intros [Hrows Hdup]. unfold wellKeyed. cbn [VoiceTable.rows VoiceTable.nextId].
  destruct tbl as [rows next]. cbn [VoiceTable.rows VoiceTable.nextId] in *.
  induction rows as [|r rows IH]; [split; constructor|].
  apply Forall_cons in Hrows as [Hr Hrows]. cbn [map] in Hdup.
  apply NoDup_cons in Hdup as [Hnotin Hdup].
  destruct (IH Hrows Hdup) as [IH1 IH2]. cbn [List.filter].
  destruct (f r); [|split; assumption].
  split; [constructor; assumption|]. cbn [map]. apply NoDup_cons. split; [|exact IH2].
  intros Hin. apply Hnotin. apply list_elem_of_fmap in Hin as (x & Hx & Hin).
  apply list_elem_of_fmap. exists x. split; [exact Hx|].
  apply list_elem_of_In. apply list_elem_of_In in Hin.
  apply List.filter_In in Hin as [Hin _]. exact Hin.
Qed.

(** X17. When [deleteVoiceModel] resolves, no row with the given model id
    is left, lookups of other ids give what they gave, keys are not reused
    and the table keeps its integrity; the model had been found. When it
    rejects, the table is as it was and the message starts with
    "Failed to delete voice model: ", a missing model being reported as
    "Voice model not found". *)
Theorem deleteVoiceModel_removes (storage : Try unit) (key : jsstring)
    (tbl : VoiceTable.t) :
  match deleteVoiceModel storage key tbl with
  | (Ok _, tbl') =>
      VoiceTable.firstByModelId key tbl' = None
      /\ (forall other, other <> key ->
            VoiceTable.firstByModelId other tbl' = VoiceTable.firstByModelId other tbl)
      /\ VoiceTable.nextId tbl' = VoiceTable.nextId tbl
      /\ (wellKeyed tbl -> wellKeyed tbl')
      /\ (exists model, VoiceTable.firstByModelId key tbl = Some model)
  | (Throw message, tbl') =>
      tbl' = tbl
      /\ JS.startsWith message (JS.lit "Failed to delete voice model: ") = true
      /\ (VoiceTable.firstByModelId key tbl = None ->
          message = JS.lit "Failed to delete voice model: Voice model not found")
  end.
Proof.
  unfold deleteVoiceModel.
  destruct (VoiceTable.firstByModelId key tbl) as [model|] eqn:Hfind.
  - destruct storage as [[]|message].
    + unfold VoiceTable.firstByModelId. cbn [VoiceTable.rows VoiceTable.nextId].
      split; [apply find_filter_removed|].
      split; [intros other Hne; apply find_filter_other; exact Hne|].
      split; [reflexivity|]. split; [apply wellKeyed_filter|].
      exists model. reflexivity.
    + split; [reflexivity|]. split; [apply startsWith_app|discriminate].
  - split; [reflexivity|]. split; [apply startsWith_app|]. intros _.
    vm_compute. reflexivity.
Qed.

(** X18. Cloning and then deleting gives the rows back: when [cloneVoice]
    resolves with an id that [sanitizeName] leaves as it is and that no
    earlier row carried, [deleteVoiceModel] of that id restores the rows of
    the table; only the next primary key has advanced. *)
Theorem clone_then_delete (env : VoiceEnv) (tbl : VoiceTable.t)
    (voiceName : jsstring) (blobs : list Blob) (identifier : jsstring) :
  returned (cloneVoice env tbl voiceName blobs) = Ok identifier ->
  sanitizeName identifier = identifier ->
  VoiceTable.firstByModelId identifier tbl = None ->
  deleteVoiceModel (Ok tt) identifier (table (cloneVoice env tbl voiceName blobs))
  = (Ok tt, {| VoiceTable.rows := VoiceTable.rows tbl;
               VoiceTable.nextId := S (VoiceTable.nextId tbl) |}).
Proof.
  intros Hret Hid Hfresh.
  pose proof (cloneVoice_outcome env tbl voiceName blobs) as H. cbv zeta in H.
  rewrite Hret in H. destruct H as (remote & -> & _).
  assert (Hrow : JS.eqb (modelId (clonedRow env tbl voiceName blobs identifier remote))
                   identifier = true).
  { cbn [clonedRow modelId]. rewrite Hid. unfold JS.eqb.
    apply bool_decide_eq_true. reflexivity. }
  unfold deleteVoiceModel, VoiceTable.firstByModelId.
  cbn [VoiceTable.rows VoiceTable.nextId].
  rewrite (find_app_fresh _ _ _ Hfresh Hrow).
  rewrite List.filter_app. cbn [List.filter]. rewrite Hrow. cbn [negb].
  rewrite app_nil_r, (find_none_filter _ _ Hfresh). reflexivity.
Qed.

Lemma clone_then_delete_witness :
  deleteVoiceModel (Ok tt) (localModelId Sample.offline)
    (table (cloneVoice Sample.offline VoiceTable.empty (JS.lit "Mom")
              Sample.threeSamples))
  = (Ok tt, {| VoiceTable.rows := VoiceTable.rows VoiceTable.empty;
               VoiceTable.nextId := S (VoiceTable.nextId VoiceTable.empty) |}).
Proof.
  apply (clone_then_delete Sample.offline VoiceTable.empty (JS.lit "Mom")
           Sample.threeSamples (localModelId Sample.offline)).
  - vm_compute. reflexivity.
  - vm_compute. reflexivity.
  - reflexivity.
Defined.

Lemma generateSpeech_found (env : VoiceEnv) (tbl : VoiceTable.t)
    (current : option VoiceModel) (text identifier : jsstring) (m : VoiceModel) :
  speechTextError text = None ->
  identifier <> [] ->
  VoiceTable.firstByModelId identifier tbl = Some m ->
  isActive m = true ->
  generateSpeech env tbl current text (Some identifier)
  = if isElevenLabsModel m
    then
      match ElevenLabs.generateSpeech (apiKey env) (speechFetch env) identifier with
      | (Ok audioBuffer, requests) =>
          if (length audioBuffer =? 0)%nat
          then {| audio := Throw (speechError
                            (JS.lit "Voice synthesis service is temporarily unavailable"));
                  speechRequested := requests |}
          else {| audio := Ok audioBuffer; speechRequested := requests |}
      | (Throw _, requests) =>
          {| audio := Throw (speechError
                       (JS.lit "Voice synthesis service is temporarily unavailable"));
             speechRequested := requests |}
      end
    else {| audio := Throw (speechError LOCAL_SYNTHESIS_UNSUPPORTED);
            speechRequested := [] |}.
Proof.
  intros Htext Hne Hfind Hactive. unfold generateSpeech. rewrite Htext.
  unfold targetVoiceId.
  destruct identifier as [|c ident]; [contradiction|]. cbn [JS.truthy negb].
  rewrite Hfind, Hactive. cbn [negb].
  destruct (isElevenLabsModel m); [|reflexivity].
  destruct (ElevenLabs.generateSpeech (apiKey env) (speechFetch env) (c :: ident))
    as [[audioBuffer|reason] requests]; reflexivity.
Qed.

(** X19. A voice cloned by the local fallback cannot speak. Under the
    conditions of the fallback (the remote clone call fails, name and
    samples are accepted, the storage takes the write, the id is new),
    [generateSpeech] of any valid text with the id [cloneVoice] returned is
    rejected as local synthesis being unavailable, without a request,
    whatever the service would answer. *)
Theorem local_clone_cannot_speak (env env' : VoiceEnv) (tbl : VoiceTable.t)
    (voiceName : jsstring) (blobs : list Blob) (reason : jsstring)
    (current : option VoiceModel) (text : jsstring) :
  fst (ElevenLabs.cloneVoice (apiKey env) (cloneFetch env)) = Throw reason ->
  voiceConfig env = defaultVoiceConfig ->
  acceptedVoiceName voiceName = true ->
  (3 <= length blobs)%nat ->
  Forall (fun b => acceptedSample b = true) blobs ->
  storageAccepts env = true ->
  (-8640000000000000 <= now env <= 8640000000000000)%Z ->
  Forall (fun c => isBase36Digit c = true) (randomSuffix env) ->
  (length (randomSuffix env) <= 9)%nat ->
  VoiceTable.firstByModelId (localModelId env) tbl = None ->
  speechTextError text = None ->
  let cloned := cloneVoice env tbl voiceName blobs in
  returned cloned = Ok (localModelId env)
  /\ generateSpeech env' (table cloned) current text (Some (localModelId env))
     = {| audio := Throw (speechError LOCAL_SYNTHESIS_UNSUPPORTED);
          speechRequested := [] |}.
Proof.
  intros Hremote Hcfg Hname Hcount Hsamples Hstore Hnow Hsuffix Hlen Hfresh Htext.
  destruct (localModelId_sanitized env Hnow Hsuffix Hlen) as [Hid Hne].
  cbv zeta.
  rewrite (cloneVoice_stored env tbl voiceName blobs (localModelId env)
             Hcfg Hname Hcount Hsamples Hstore Hid Hne)
    by (rewrite Hremote; reflexivity).
  rewrite Hremote. cbn [returned table]. split; [reflexivity|].
  rewrite (generateSpeech_found env' _ current text (localModelId env)
             (clonedRow env tbl voiceName blobs (localModelId env) false)
             Htext Hne); [reflexivity| |reflexivity].
  unfold VoiceTable.firstByModelId. cbn [VoiceTable.rows].
  apply find_app_fresh; [exact Hfresh|].
  cbn [clonedRow modelId]. rewrite Hid. unfold JS.eqb.
  apply bool_decide_eq_true. reflexivity.
Qed.

Lemma local_clone_cannot_speak_witness :
  returned (cloneVoice Sample.offline VoiceTable.empty (JS.lit "Mom")
              Sample.threeSamples)
  = Ok (localModelId Sample.offline)
  /\ generateSpeech Online.env
       (table (cloneVoice Sample.offline VoiceTable.empty (JS.lit "Mom")
                 Sample.threeSamples))
       None (JS.lit "Hello there") (Some (localModelId Sample.offline))
     = {| audio := Throw (speechError LOCAL_SYNTHESIS_UNSUPPORTED);
          speechRequested := [] |}.
Proof.
  apply (local_clone_cannot_speak Sample.offline Online.env VoiceTable.empty
           (JS.lit "Mom") Sample.threeSamples (JS.lit "Failed to fetch") None
           (JS.lit "Hello there")).
  - reflexivity.
  - reflexivity.
  - vm_compute. reflexivity.
  - simpl. lia.
  - repeat constructor.
  - reflexivity.
  - simpl. lia.
  - repeat constructor.
  - simpl. lia.
  - reflexivity.
  - vm_compute. reflexivity.
Defined.

(** X20. A voice cloned remotely can speak. When the service returns an id
    of word characters and hyphens for accepted inputs and the storage takes
    the write, [cloneVoice] resolves with that id after one request and
    stores a remote, high-quality, active model under it; [generateSpeech]
    of a valid text with that id then requests the synthesis endpoint of
    the id once and resolves with the audio the service returns, if it is
    not empty. *)
Theorem remote_clone_then_speech (env env' : VoiceEnv) (tbl : VoiceTable.t)
    (voiceName : jsstring) (blobs : list Blob)
    (statusText voice_id statusText' : jsstring) (body : list Z)
    (current : option VoiceModel) (text : jsstring) :
  voiceConfig env = defaultVoiceConfig ->
  acceptedVoiceName voiceName = true ->
  (3 <= length blobs)%nat ->
  Forall (fun b => acceptedSample b = true) blobs ->
  storageAccepts env = true ->
  apiKey env <> [] ->
  cloneFetch env = ElevenLabs.CloneResponse true statusText (Some voice_id) ->
  voice_id <> [] ->
  (length voice_id <= 100)%nat ->
  Forall (fun c => isIdChar c = true) voice_id ->
  VoiceTable.firstByModelId voice_id tbl = None ->
  speechTextError text = None ->
  apiKey env' <> [] ->
  speechFetch env' = ElevenLabs.SpeechResponse true statusText' body ->
  body <> [] ->
  let cloned := cloneVoice env tbl voiceName blobs in
  returned cloned = Ok voice_id
  /\ requested cloned = [ElevenLabs.baseUrl ++ JS.lit "/voices/add"]
  /\ (exists stored,
        VoiceTable.firstByModelId voice_id (table cloned) = Some stored
        /\ isElevenLabsModel stored = true /\ quality stored = high
        /\ isActive stored = true)
  /\ generateSpeech env' (table cloned) current text (Some voice_id)
     = {| audio := Ok body;
          speechRequested :=
            [ElevenLabs.baseUrl ++ JS.lit "/text-to-speech/" ++ voice_id] |}.
Proof.
  intros Hcfg Hname Hcount Hsamples Hstore Hkey Hfetch Hne Hlen Hchars Hfresh
         Htext Hkey' Hfetch' Hbody.
  pose proof (sanitizeName_id voice_id Hne Hlen Hchars) as Hid.
  assert (Hremote : ElevenLabs.cloneVoice (apiKey env) (cloneFetch env)
                    = (Ok (Some voice_id),
                       [ElevenLabs.baseUrl ++ JS.lit "/voices/add"])).
  { unfold ElevenLabs.cloneVoice. rewrite Hfetch.
    destruct (apiKey env); [contradiction|]. reflexivity. }
  cbv zeta.
  rewrite (cloneVoice_stored env tbl voiceName blobs voice_id
             Hcfg Hname Hcount Hsamples Hstore Hid Hne)
    by (rewrite Hremote; reflexivity).
  rewrite Hremote. cbn [returned table requested fst snd].
  assert (Hfind : VoiceTable.firstByModelId voice_id
                    {| VoiceTable.rows :=
                         VoiceTable.rows tbl
                         ++ [clonedRow env tbl voiceName blobs voice_id true];
                       VoiceTable.nextId := S (VoiceTable.nextId tbl) |}
                  = Some (clonedRow env tbl voiceName blobs voice_id true)).
  { unfold VoiceTable.firstByModelId. cbn [VoiceTable.rows].
    apply find_app_fresh; [exact Hfresh|].
    cbn [clonedRow modelId]. rewrite Hid. unfold JS.eqb.
    apply bool_decide_eq_true. reflexivity. }
  split; [reflexivity|]. split; [reflexivity|]. split.
  - eexists. split; [exact Hfind|]. split; [reflexivity|]. split; reflexivity.
  - rewrite (generateSpeech_found env' _ current text voice_id _ Htext Hne Hfind)
      by reflexivity.
    cbn [clonedRow isElevenLabsModel].
    unfold ElevenLabs.generateSpeech. rewrite Hfetch'.
    destruct (apiKey env'); [contradiction|]. cbn [JS.truthy negb].
    destruct body; [contradiction|]. reflexivity.
Qed.

Lemma remote_clone_then_speech_witness :
  returned (cloneVoice Online.env VoiceTable.empty (JS.lit "Mom") Sample.threeSamples)
  = Ok (JS.lit "pNInz6obpgDQGcFmaJgB")
  /\ requested (cloneVoice Online.env VoiceTable.empty (JS.lit "Mom")
                  Sample.threeSamples)
     = [ElevenLabs.baseUrl ++ JS.lit "/voices/add"]
  /\ (exists stored,
        VoiceTable.firstByModelId (JS.lit "pNInz6obpgDQGcFmaJgB")
          (table (cloneVoice Online.env VoiceTable.empty (JS.lit "Mom")
                    Sample.threeSamples)) = Some stored
        /\ isElevenLabsModel stored = true /\ quality stored = high
        /\ isActive stored = true)
  /\ generateSpeech Online.env
       (table (cloneVoice Online.env VoiceTable.empty (JS.lit "Mom")
                 Sample.threeSamples))
       None (JS.lit "Hello there") (Some (JS.lit "pNInz6obpgDQGcFmaJgB"))
     = {| audio := Ok [73; 68; 51; 4]%Z;
          speechRequested :=
            [ElevenLabs.baseUrl ++ JS.lit "/text-to-speech/"
             ++ JS.lit "pNInz6obpgDQGcFmaJgB"] |}.
Proof.
  apply (remote_clone_then_speech Online.env Online.env VoiceTable.empty
           (JS.lit "Mom") Sample.threeSamples (JS.lit "OK")
           (JS.lit "pNInz6obpgDQGcFmaJgB") (JS.lit "OK") [73; 68; 51; 4]%Z None
           (JS.lit "Hello there")).
  - reflexivity.
  - vm_compute. reflexivity.
  - simpl. lia.
  - repeat constructor.
  - reflexivity.
  - discriminate.
  - reflexivity.
  - discriminate.
  - vm_compute. lia.
  - apply (bool_decide_unpack _). vm_compute. exact I.
  - reflexivity.
  - vm_compute. reflexivity.
  - discriminate.
  - reflexivity.
  - discriminate.
Defined.

(** ** Voice models: upkeep *)

Section VoiceManagerProperties.

Import VoiceManager.

Lemma filter_existsb {A : Type} (f : A -> bool) (l : list A) :
  (0 <? length (List.filter f l))%nat = existsb f l.
Proof.
  induction l as [|x l IH]; [reflexivity|]. cbn [List.filter existsb].
  destruct (f x); [reflexivity|exact IH].
Qed.

Lemma validateModel_without_key (net : VoicesFetch) (m : VoiceModel)
    (tbl : VoiceTable.t) :
  VoiceTable.firstByModelId (modelId m) tbl = Some m ->
  (0 <? length (List.filter isCritical
                  (issues (validateModel [] net (modelId m) tbl))))%nat
  = negb (keptWithoutKey m).
Proof.
  intros Hfind. unfold validateModel. rewrite Hfind. cbn [issues].
  rewrite filter_existsb, existsb_app. unfold keptWithoutKey.
  destruct (isElevenLabsModel m); cbn [negb andb].
  - unfold serviceIssues, getVoices. cbn [JS.truthy negb existsb].
    replace (isCritical (JS.lit "ElevenLabs voice model no longer exists on the service"))
      with true by (vm_compute; reflexivity).
    cbn [existsb orb]. apply orb_true_r.
  - cbn [existsb]. rewrite orb_false_r, negb_involutive. reflexivity.
Qed.

Lemma find_unique_here (key : jsstring) (kept rest : list VoiceModel) (m : VoiceModel) :
  modelId m = key ->
  Forall (fun r => modelId r <> key) kept ->
  List.find (fun r => JS.eqb (modelId r) key) (kept ++ m :: rest) = Some m.
Proof.
  intros Hm Hkept. induction Hkept as [|r kept Hr _ IH]; cbn [app List.find].
  - unfold JS.eqb. rewrite bool_decide_eq_true_2 by exact Hm. reflexivity.
  - unfold JS.eqb at 1. rewrite bool_decide_eq_false_2 by exact Hr. exact IH.
Qed.

Lemma filter_unique_here (key : jsstring) (kept rest : list VoiceModel) (m : VoiceModel) :
  modelId m = key ->
  Forall (fun r => modelId r <> key) kept ->
  Forall (fun r => modelId r <> key) rest ->
  List.filter (fun r => negb (JS.eqb (modelId r) key)) (kept ++ m :: rest)
  = kept ++ rest.
Proof.
  intros Hm Hkept Hrest.
  assert (Hall : forall l, Forall (fun r => modelId r <> key) l ->
            List.filter (fun r => negb (JS.eqb (modelId r) key)) l = l).
  { intros l Hl. induction Hl as [|r l Hr _ IH]; [reflexivity|]. cbn [List.filter].
    unfold JS.eqb at 1. rewrite bool_decide_eq_false_2 by exact Hr. cbn [negb].
    rewrite IH. reflexivity. }
  rewrite List.filter_app. cbn [List.filter].
  unfold JS.eqb at 2. rewrite bool_decide_eq_true_2 by exact Hm. cbn [negb].
  rewrite (Hall kept Hkept), (Hall rest Hrest). reflexivity.
Qed.

Lemma cleanupFrom_without_key (net : nat -> VoicesFetch) (storage : nat -> Try unit)
    (models kept : list VoiceModel) (i next count : nat) (errors : list jsstring) :
  (forall j, storage j = Ok tt) ->
  NoDup (map modelId (kept ++ models)) ->
  cleanupFrom [] net storage i models
    {| VoiceTable.rows := kept ++ models; VoiceTable.nextId := next |} count errors
  = {| cleaned := count + (length models - length (List.filter keptWithoutKey models));
       cleanupErrors := errors;
       remaining := {| VoiceTable.rows := kept ++ List.filter keptWithoutKey models;
                       VoiceTable.nextId := next |} |}.
Proof.
  intros Hstorage. revert kept i count.
  induction models as [|m rest IH]; intros kept i count Hdup.
  - cbn. rewrite Nat.add_0_r. reflexivity.
  - cbn [cleanupFrom].
    rewrite map_app in Hdup. cbn [map] in Hdup.
    pose proof Hdup as Hdup'.
    apply NoDup_app in Hdup' as (Hk & Hdisj & Hrest).
    apply NoDup_cons in Hrest as [Hm Hrest].
    assert (Hkept : Forall (fun r => modelId r <> modelId m) kept).
    { apply Forall_forall. intros r Hr E. apply (Hdisj (modelId r)).
      - apply list_elem_of_fmap. exists r. split; [reflexivity|exact Hr].
      - rewrite E. left. }
    assert (Hrest' : Forall (fun r => modelId r <> modelId m) rest).
    { apply Forall_forall. intros r Hr E. apply Hm. rewrite <- E.
      apply list_elem_of_fmap. exists r. split; [reflexivity|exact Hr]. }
    assert (Hfind : VoiceTable.firstByModelId (modelId m)
                      {| VoiceTable.rows := kept ++ m :: rest;
                         VoiceTable.nextId := next |} = Some m).
    { unfold VoiceTable.firstByModelId. cbn [VoiceTable.rows].
      apply find_unique_here; [reflexivity|exact Hkept]. }
    rewrite (validateModel_without_key (net i) m _ Hfind).
    cbn [List.filter]. destruct (keptWithoutKey m) eqn:Hkeep; cbn [negb].
    + replace (kept ++ m :: rest) with ((kept ++ [m]) ++ rest)
        by (rewrite <- app_assoc; reflexivity).
      rewrite (IH (kept ++ [m]) (S i) count).
      * rewrite <- app_assoc. cbn [app length].
        pose proof (List.filter_length_le keptWithoutKey rest).
        first [reflexivity | f_equal; lia].
      * rewrite <- app_assoc. cbn [app]. rewrite map_app. cbn [map]. exact Hdup.
    + unfold deleteVoiceModel. rewrite Hfind, Hstorage.
      cbn [VoiceTable.rows VoiceTable.nextId].
      rewrite (filter_unique_here (modelId m) kept rest m eq_refl Hkept Hrest').
      rewrite (IH kept (S i) (S count)).
      * cbn [length]. pose proof (List.filter_length_le keptWithoutKey rest).
        first [reflexivity | f_equal; lia].
      * rewrite map_app. apply NoDup_app. split; [exact Hk|]. split; [|exact Hrest].
        intros x Hx Hin. apply (Hdisj x Hx). right. exact Hin.
Qed.

(** X21. Without an API key [cleanupModels] removes every ElevenLabs model.
    When model ids are distinct and the deletions succeed, the rows left are
    those of local origin whose records show no critical issue, in their
    order; none of remote origin is left; the count returned is the number
    of rows removed, no error is reported and keys are not reused. *)
Theorem cleanup_without_key_removes_remote_models (net : nat -> VoicesFetch)
    (storage : nat -> Try unit) (tbl : VoiceTable.t) :
  (forall i, storage i = Ok tt) ->
  NoDup (map modelId (VoiceTable.rows tbl)) ->
  let result := cleanupModels [] net storage tbl in
  VoiceTable.rows (remaining result) = List.filter keptWithoutKey (VoiceTable.rows tbl)
  /\ Forall (fun m => isElevenLabsModel m = false) (VoiceTable.rows (remaining result))
  /\ cleaned result
     = (length (VoiceTable.rows tbl) - length (VoiceTable.rows (remaining result)))%nat
  /\ cleanupErrors result = []
  /\ VoiceTable.nextId (remaining result) = VoiceTable.nextId tbl.
Proof.
  intros Hstorage Hdup. cbv zeta. unfold cleanupModels.
  destruct tbl as [rows next]. cbn [VoiceTable.rows VoiceTable.nextId] in *.
  pose proof (cleanupFrom_without_key net storage rows [] 0 next 0 [] Hstorage Hdup)
    as H.
  cbn [app] in H. rewrite H.
  cbn [remaining cleaned cleanupErrors VoiceTable.rows VoiceTable.nextId app].
  split; [reflexivity|]. split; [|repeat split].
  apply Forall_forall. intros m Hm. apply list_elem_of_In in Hm.
  apply List.filter_In in Hm as [_ Hm]. unfold keptWithoutKey in Hm.
  apply andb_prop in Hm as [Hm _]. apply negb_true_iff in Hm. exact Hm.
Qed.

End VoiceManagerProperties.

Lemma cleanup_without_key_removes_remote_models_witness :
  VoiceTable.rows
    (VoiceManager.remaining
       (VoiceManager.cleanupModels [] (fun _ => VoicesRejected (JS.lit "Failed to fetch"))
          (fun _ => Ok tt)
          (table (cloneVoice Online.env
                    (table (cloneVoice Sample.offline VoiceTable.empty (JS.lit "Mom")
                              Sample.threeSamples))
                    (JS.lit "Dad") Sample.threeSamples))))
  = List.filter keptWithoutKey
      (VoiceTable.rows
         (table (cloneVoice Online.env
                   (table (cloneVoice Sample.offline VoiceTable.empty (JS.lit "Mom")
                             Sample.threeSamples))
                   (JS.lit "Dad") Sample.threeSamples)))
  /\ Forall (fun m => isElevenLabsModel m = false)
       (VoiceTable.rows
          (VoiceManager.remaining
             (VoiceManager.cleanupModels []
                (fun _ => VoicesRejected (JS.lit "Failed to fetch")) (fun _ => Ok tt)
                (table (cloneVoice Online.env
                          (table (cloneVoice Sample.offline VoiceTable.empty
                                    (JS.lit "Mom") Sample.threeSamples))
                          (JS.lit "Dad") Sample.threeSamples)))))
  /\ VoiceManager.cleaned
       (VoiceManager.cleanupModels [] (fun _ => VoicesRejected (JS.lit "Failed to fetch"))
          (fun _ => Ok tt)
          (table (cloneVoice Online.env
                    (table (cloneVoice Sample.offline VoiceTable.empty (JS.lit "Mom")
                              Sample.threeSamples))
                    (JS.lit "Dad") Sample.threeSamples)))
     = (length (VoiceTable.rows
                  (table (cloneVoice Online.env
                            (table (cloneVoice Sample.offline VoiceTable.empty
                                      (JS.lit "Mom") Sample.threeSamples))
                            (JS.lit "Dad") Sample.threeSamples)))
        - length (VoiceTable.rows
                    (VoiceManager.remaining
                       (VoiceManager.cleanupModels []
                          (fun _ => VoicesRejected (JS.lit "Failed to fetch"))
                          (fun _ => Ok tt)
                          (table (cloneVoice Online.env
                                    (table (cloneVoice Sample.offline VoiceTable.empty
                                              (JS.lit "Mom") Sample.threeSamples))
                                    (JS.lit "Dad") Sample.threeSamples))))))%nat
  /\ VoiceManager.cleanupErrors
       (VoiceManager.cleanupModels [] (fun _ => VoicesRejected (JS.lit "Failed to fetch"))
          (fun _ => Ok tt)
          (table (cloneVoice Online.env
                    (table (cloneVoice Sample.offline VoiceTable.empty (JS.lit "Mom")
                              Sample.threeSamples))
                    (JS.lit "Dad") Sample.threeSamples))) = []
  /\ VoiceTable.nextId
       (VoiceManager.remaining
          (VoiceManager.cleanupModels []
             (fun _ => VoicesRejected (JS.lit "Failed to fetch")) (fun _ => Ok tt)
             (table (cloneVoice Online.env
                       (table (cloneVoice Sample.offline VoiceTable.empty
                                 (JS.lit "Mom") Sample.threeSamples))
                       (JS.lit "Dad") Sample.threeSamples))))
     = VoiceTable.nextId
         (table (cloneVoice Online.env
                   (table (cloneVoice Sample.offline VoiceTable.empty (JS.lit "Mom")
                             Sample.threeSamples))
                   (JS.lit "Dad") Sample.threeSamples)).
Proof.
  apply (cleanup_without_key_removes_remote_models
           (fun _ => VoicesRejected (JS.lit "Failed to fetch")) (fun _ => Ok tt)
           (table (cloneVoice Online.env
                     (table (cloneVoice Sample.offline VoiceTable.empty (JS.lit "Mom")
                               Sample.threeSamples))
                     (JS.lit "Dad") Sample.threeSamples))).
  - reflexivity.
  - apply (bool_decide_unpack _). vm_compute. exact I.
Defined.

Lemma sampleIssues_accepted (i : nat) (blobs : list Blob) :
  Forall (fun b => acceptedSample b = true) blobs ->
  VoiceManager.sampleIssues i blobs = [].
Proof.
  intros H. revert i. induction H as [|b rest Hb _ IH]; intros i; [reflexivity|].
  cbn [VoiceManager.sampleIssues]. unfold acceptedSample in Hb.
  apply andb_prop in Hb as [Hlo _]. apply Z.leb_le in Hlo.
  destruct (Z.eqb_spec (size b) 0); [lia|].
  destruct (Z.ltb_spec (size b) 1000); [lia|]. apply IH.
Qed.

(** X22. A model stored by the local fallback of [cloneVoice] is in good
    standing: [validateModel] finds it valid, with no issue, whatever the
    API key and the service, and it is among the rows [cleanupModels]
    keeps. *)
Theorem local_clone_passes_validateModel (env : VoiceEnv) (tbl : VoiceTable.t)
    (voiceName : jsstring) (blobs : list Blob) (reason serviceKey : jsstring)
    (net : VoicesFetch) :
  fst (ElevenLabs.cloneVoice (apiKey env) (cloneFetch env)) = Throw reason ->
  voiceConfig env = defaultVoiceConfig ->
  acceptedVoiceName voiceName = true ->
  (3 <= length blobs)%nat ->
  Forall (fun b => acceptedSample b = true) blobs ->
  storageAccepts env = true ->
  (-8640000000000000 <= now env <= 8640000000000000)%Z ->
  Forall (fun c => isBase36Digit c = true) (randomSuffix env) ->
  (length (randomSuffix env) <= 9)%nat ->
  VoiceTable.firstByModelId (localModelId env) tbl = None ->
  let cloned := cloneVoice env tbl voiceName blobs in
  VoiceManager.validateModel serviceKey net (localModelId env) (table cloned)
  = {| VoiceManager.isValid := true; VoiceManager.issues := [] |}
  /\ exists stored,
       VoiceTable.firstByModelId (localModelId env) (table cloned) = Some stored
       /\ keptWithoutKey stored = true.
Proof.
  intros Hremote Hcfg Hname Hcount Hsamples Hstore Hnow Hsuffix Hlen Hfresh.
  destruct (localModelId_sanitized env Hnow Hsuffix Hlen) as [Hid Hne].
  cbv zeta.
  rewrite (cloneVoice_stored env tbl voiceName blobs (localModelId env)
             Hcfg Hname Hcount Hsamples Hstore Hid Hne)
    by (rewrite Hremote; reflexivity).
  rewrite Hremote. cbn [table].
  set (row := clonedRow env tbl voiceName blobs (localModelId env) false).
  assert (Hfind : VoiceTable.firstByModelId (localModelId env)
                    {| VoiceTable.rows := VoiceTable.rows tbl ++ [row];
                       VoiceTable.nextId := S (VoiceTable.nextId tbl) |}
                  = Some row).
  { unfold VoiceTable.firstByModelId. cbn [VoiceTable.rows].
    apply find_app_fresh; [exact Hfresh|].
    subst row. cbn [clonedRow modelId]. rewrite Hid. unfold JS.eqb.
    apply bool_decide_eq_true. reflexivity. }
  assert (Hissues : VoiceManager.recordIssues row = []).
  { unfold VoiceManager.recordIssues. subst row.
    cbn [clonedRow name samples sampleBlobs].
    unfold acceptedVoiceName in Hname.
    apply andb_prop in Hname as [_ Hschema]. cbv zeta in Hschema.
    apply andb_prop in Hschema as [Hschema _].
    apply andb_prop in Hschema as [Hmin _]. apply Nat.leb_le in Hmin.
    pose proof (proj2 (proj2 (sanitizeName_shape (JS.trim voiceName)))) as Hspaced.
    pose proof (singleSpaced_not_blank _ Hspaced Hmin) as Hblank.
    destruct (sanitizeName (JS.trim voiceName)) as [|c stored] eqn:Es;
      [cbn [length] in Hmin; lia|].
    cbn [JS.truthy negb orb].
    destruct (Nat.eqb_spec (length (JS.trim (c :: stored))) 0) as [E|_].
    { apply length_zero_iff_nil in E. contradiction. }
    unfold sampleFileNames. rewrite length_imap.
    destruct (Nat.eqb_spec (length blobs) 0) as [E|_]; [lia|].
    destruct (Nat.ltb_spec (length blobs) 3) as [E|_]; [lia|].
    cbn [app]. apply sampleIssues_accepted. exact Hsamples. }
  split.
  - unfold VoiceManager.validateModel. rewrite Hfind, Hissues. reflexivity.
  - exists row. split; [exact Hfind|]. unfold keptWithoutKey. rewrite Hissues.
    reflexivity.
Qed.

Lemma local_clone_passes_validateModel_witness :
  VoiceManager.validateModel (JS.lit "sk_test")
    (VoicesRejected (JS.lit "Failed to fetch")) (localModelId Sample.offline)
    (table (cloneVoice Sample.offline VoiceTable.empty (JS.lit "Mom")
              Sample.threeSamples))
  = {| VoiceManager.isValid := true; VoiceManager.issues := [] |}
  /\ exists stored,
       VoiceTable.firstByModelId (localModelId Sample.offline)
         (table (cloneVoice Sample.offline VoiceTable.empty (JS.lit "Mom")
                   Sample.threeSamples)) = Some stored
       /\ keptWithoutKey stored = true.
Proof.
  apply (local_clone_passes_validateModel Sample.offline VoiceTable.empty
           (JS.lit "Mom") Sample.threeSamples (JS.lit "Failed to fetch")
           (JS.lit "sk_test") (VoicesRejected (JS.lit "Failed to fetch"))).
  - reflexivity.
  - reflexivity.
  - vm_compute. reflexivity.
  - simpl. lia.
  - repeat constructor.
  - reflexivity.
  - simpl. lia.
  - repeat constructor.
  - simpl. lia.
  - reflexivity.
Defined.

(** ** Reading capsules back *)

Section ReadingProperties.

Import Capsule.

Variable P : Platform.

Lemma retrieveKey_world (w : World) : snd (retrieveKey P w) = w.
Proof.
  unfold retrieveKey, bind, getItem.
  destruct (localStorage w !! CAPSULE_KEY) as [keyData|]; [|reflexivity].
  destruct (negb (JS.truthy keyData)); [reflexivity|].
  unfold bind, base64ToArrayBuffer.
  destruct (atob P keyData) as [bytes|]; [|reflexivity].
  unfold ret, importKey. destruct (bool_decide _); reflexivity.
Qed.

Lemma decrypt_world (e s i : jsstring) (password : option jsstring) (w : World) :
  snd (decrypt P e s i password w) = w.
Proof.
  unfold decrypt, bind, base64ToArrayBuffer.
  destruct (atob P e) as [eb|]; [|reflexivity].
  destruct (atob P s) as [sb|]; [|reflexivity].
  destruct (atob P i) as [ib|]; [|reflexivity].
  unfold ret.
  destruct (given password) as [p|].
  - unfold deriveKey, ret.
    destruct (aesGcmDecrypt P _ ib eb); reflexivity.
  - pose proof (retrieveKey_world w) as Hk.
    destruct (retrieveKey P w) as [[key|m] w']; cbn [snd] in Hk; subst w'.
    + destruct (aesGcmDecrypt P key ib eb); reflexivity.
    + reflexivity.
Qed.

Lemma decrypt_without_slot (e s i : jsstring) (w : World) :
  localStorage w !! CAPSULE_KEY = None ->
  exists message, decrypt P e s i None w = (Throw message, w)
    /\ (atob P e <> None -> atob P s <> None -> atob P i <> None ->
        message = JS.lit "No encryption key found").
Proof.
  intros Hslot. unfold decrypt, bind, base64ToArrayBuffer.
  destruct (atob P e) as [eb|]; [|eexists; split; [reflexivity|congruence]].
  destruct (atob P s) as [sb|]; [|eexists; split; [reflexivity|congruence]].
  destruct (atob P i) as [ib|]; [|eexists; split; [reflexivity|congruence]].
  unfold ret. cbn [given]. unfold retrieveKey, bind, getItem. rewrite Hslot.
  eexists. split; reflexivity.
Qed.

(** X23. [getCapsuleContent] rejects a call without a capsule, with
    "No capsule provided", and nothing else: given a capsule it always
    resolves. Either way it leaves the surroundings as they are. For a
    capsule that is not encrypted or has no ciphertext it answers with the
    content; for an encrypted one with one of its three sentinel texts or
    with what [decrypt] made of the parsed ciphertext; and with a sentinel
    whenever no key is stored. *)
Theorem getCapsuleContent_rejects_only_without_capsule
    (given : option TimeCapsule) (w : World) :
  match given with
  | None => getCapsuleContent P None w = (Throw (JS.lit "No capsule provided"), w)
  | Some capsule =>
      exists text,
        getCapsuleContent P (Some capsule) w = (Ok text, w)
        /\ (isEncrypted capsule = false \/ falsy (encryptedContent capsule) = true ->
            text = content capsule)
        /\ (isEncrypted capsule = true -> falsy (encryptedContent capsule) = false ->
            text ∈ sentinels
            \/ exists e s i,
                 decrypt P e s i None w = (Ok text, w)
                 /\ JSON_parse P (default [] (encryptedContent capsule))
                    = Properties (Some e) (Some s) (Some i))
        /\ (isEncrypted capsule = true -> falsy (encryptedContent capsule) = false ->
            localStorage w !! CAPSULE_KEY = None -> text ∈ sentinels)
  end.
Proof.
  destruct given as [capsule|]; [|reflexivity].
  assert (Hs1 : SENTINEL_NO_DATA ∈ sentinels) by (left).
  assert (Hs2 : SENTINEL_CORRUPTED ∈ sentinels) by (right; left).
  assert (Hs3 : SENTINEL_UNABLE ∈ sentinels) by (right; right; left).
  unfold getCapsuleContent.
  destruct (isEncrypted capsule) eqn:Henc; cbn [negb orb].
  2:{ exists (content capsule). split; [reflexivity|].
      split; [reflexivity|]. split; discriminate. }
  destruct (falsy (encryptedContent capsule)) eqn:Hfalsy.
  { exists (content capsule). split; [reflexivity|].
    split; [reflexivity|]. split; discriminate. }
  assert (Hsentinel : forall t, t ∈ sentinels ->
            exists text,
              (Ok t, w) = (Ok text, w)
              /\ (true = false \/ false = true -> text = content capsule)
              /\ (true = true -> false = false ->
                  text ∈ sentinels
                  \/ exists e s i,
                       decrypt P e s i None w = (Ok text, w)
                       /\ JSON_parse P (default [] (encryptedContent capsule))
                          = Properties (Some e) (Some s) (Some i))
              /\ (true = true -> false = false ->
                  localStorage w !! CAPSULE_KEY = None -> text ∈ sentinels)).
  { intros t Ht. exists t. split; [reflexivity|]. split; [intros [H|H]; discriminate|].
    split; [intros _ _; left; exact Ht|intros _ _ _; exact Ht]. }
  destruct (negb (JS.truthy (JS.trim (default [] (encryptedContent capsule)))));
    [apply Hsentinel, Hs1|].
  destruct (JSON_parse P (default [] (encryptedContent capsule)))
    as [| |[e|] [s|] [i|]] eqn:Hparse;
    try (apply Hsentinel, Hs2); try (apply Hsentinel, Hs3).
  destruct (negb (JS.truthy e) || negb (JS.truthy s) || negb (JS.truthy i));
    [apply Hsentinel, Hs3|].
  unfold catching. pose proof (decrypt_world e s i None w) as Hw.
  destruct (decrypt P e s i None w) as [[text|message] w'] eqn:Hdec;
    cbn [snd] in Hw; subst w'.
  - exists text. split; [reflexivity|]. split; [intros [H|H]; discriminate|].
    split.
    + intros _ _. right. exists e, s, i. split; [exact Hdec|reflexivity].
    + intros _ _ Hslot. destruct (decrypt_without_slot e s i w Hslot) as (m & Hm & _).
      congruence.
  - apply Hsentinel, Hs3.
Qed.

Hypothesis laws : PlatformLaws P.

Lemma nextSalt_nonempty (w : World) : nextSalt w <> [].
Proof. unfold nextSalt. cbn [seq map]. discriminate. Qed.

Lemma nextIv_nonempty (w : World) : nextIv w <> [].
Proof. unfold nextIv. cbn [seq map]. discriminate. Qed.

Lemma encrypt_password (content password : jsstring) (w : World) :
  password <> [] ->
  encrypt P content (Some password) w
  = (Ok (passwordBlob P content password w),
     {| localStorage := localStorage w; quotaExceeded := quotaExceeded w;
        entropy := entropy w; drawn := drawn w + 16 + 12 |}).
Proof.
  intros Hp. destruct password as [|c p]; [contradiction|].
  unfold encrypt, bind, getRandomValues, deriveKey, ret, given, arrayBufferToBase64.
  cbn [localStorage quotaExceeded entropy drawn JS.truthy].
  reflexivity.
Qed.

(** X24. With a password, [encrypt] stores nothing: [localStorage] is as it
    was. [decrypt] of the triple with the same password gives the text back,
    in any surroundings, for a well-formed text that does not begin with
    U+FEFF; with a password that derives another key it fails, given that
    AES-GCM rejects a ciphertext under a wrong key. *)
Theorem password_roundtrip (x password : jsstring) (w : World) :
  password <> [] ->
  Encoding.isWellFormed x = true ->
  head x <> Some Encoding.BOM ->
  exists blob w',
    encrypt P x (Some password) w = (Ok blob, w')
    /\ localStorage w' = localStorage w
    /\ (forall v, decrypt P (encryptedData blob) (salt blob) (iv blob)
                    (Some password) v = (Ok x, v))
    /\ (forall other v,
          Authentic P -> other <> [] ->
          pbkdf2 P other (nextSalt w) <> pbkdf2 P password (nextSalt w) ->
          decrypt P (encryptedData blob) (salt blob) (iv blob) (Some other) v
          = (Throw (JS.lit "OperationError"), v)).
Proof.
  intros Hp Hwf Hhead.
  eexists _, _. split; [apply encrypt_password; exact Hp|].
  split; [reflexivity|]. split.
  - intros v. unfold passwordBlob. cbn [encryptedData salt iv].
    unfold decrypt, bind, base64ToArrayBuffer.
    rewrite !(atob_btoa P laws). unfold ret.
    destruct password as [|c p]; [contradiction|]. cbn [given JS.truthy].
    unfold deriveKey, ret. rewrite (gcm_correct P laws).
    rewrite TextDecoder_TextEncoder by assumption. reflexivity.
  - intros other v Hauth Ho Hkdf. unfold passwordBlob. cbn [encryptedData salt iv].
    unfold decrypt, bind, base64ToArrayBuffer.
    rewrite !(atob_btoa P laws). unfold ret.
    destruct other as [|c p]; [contradiction|]. cbn [given JS.truthy].
    unfold deriveKey, ret. rewrite Hauth by (intros E; apply Hkdf; symmetry; exact E).
    reflexivity.
Qed.

Hypothesis tagged : Tagged P.

Lemma trimmed_head_not_BOM (s : jsstring) :
  JS.trim s = s -> head s <> Some Encoding.BOM.
Proof.
  intros Ht. destruct s as [|c r]; [discriminate|]. cbn [head].
  pose proof (trim_head (c :: r) c r Ht) as Hc. intros [= ->]. discriminate.
Qed.

Lemma stored_blob_read (x : jsstring) (capsule : TimeCapsule) (w : World) :
  isEncrypted capsule = true ->
  encryptedContent capsule = Some (JSON_stringify P (blobOf P x w)) ->
  forall v,
    getCapsuleContent P (Some capsule) v
    = catching (decrypt P (encryptedData (blobOf P x w)) (salt (blobOf P x w))
                  (iv (blobOf P x w)) None) SENTINEL_UNABLE v.
Proof.
  intros Henc Hcontent v.
  unfold getCapsuleContent. rewrite Henc, Hcontent.
  pose proof (stringify_not_blank P laws (blobOf P x w)) as Hblank.
  cbn [negb orb falsy default from_option]. unfold Datatypes.id.
  rewrite (trim_truthy _ Hblank), Hblank. cbn [negb].
  rewrite (parse_stringify P laws).
  assert (H1 : JS.truthy (encryptedData (blobOf P x w)) = true).
  { pose proof (btoa_truthy P laws _ (tagged (nextKey w) (nextIv w)
                                        (Encoding.TextEncoder_encode x))) as H.
    unfold blobOf. cbn [encryptedData]. destruct (btoa P _); [contradiction|reflexivity]. }
  assert (H2 : JS.truthy (salt (blobOf P x w)) = true).
  { pose proof (btoa_truthy P laws _ (nextSalt_nonempty w)) as H.
    unfold blobOf. cbn [salt]. destruct (btoa P _); [contradiction|reflexivity]. }
  assert (H3 : JS.truthy (iv (blobOf P x w)) = true).
  { pose proof (btoa_truthy P laws _ (nextIv_nonempty w)) as H.
    unfold blobOf. cbn [iv]. destruct (btoa P _); [contradiction|reflexivity]. }
  rewrite H1, H2, H3. reflexivity.
Qed.

(** X25. [add] stores a capsule only when no encryption is left to do. A
    capsule that [add] stores is kept as it was sanitized, under the next
    key, and other rows are as they were; if it says [isEncrypted] it came
    with its ciphertext, and if it does not, [getCapsuleContent] of the
    stored row answers with the sanitized content. When [add] rejects, the
    table is as it was. And with encryption requested for a valid capsule
    ([isEncrypted], no ciphertext yet) [add] always rejects, since the hook
    returns a promise where Dexie takes a key, while the promise goes on:
    with a storage that takes the key it settles with the marker in the
    caller's object and a fresh key in the key slot. *)
Theorem add_stores_only_without_request (accepts : bool) (obj : TimeCapsule)
    (tbl : CapsuleTable.t) (w : World) :
  match CapsuleTable.add P accepts obj tbl with
  | (Ok key, tbl', pending) =>
      key = CapsuleTable.nextId tbl
      /\ pending = Undefined
      /\ CapsuleTable.nextId tbl' = S key
      /\ CapsuleTable.get key tbl' = Some (sanitizeTimeCapsule obj)
      /\ (forall other, other <> key ->
            CapsuleTable.get other tbl' = CapsuleTable.get other tbl)
      /\ validateTimeCapsule (sanitizeTimeCapsule obj) = true
      /\ (isEncrypted obj = true -> falsy (encryptedContent obj) = false)
      /\ (isEncrypted obj = false ->
          getCapsuleContent P (CapsuleTable.get key tbl') w
          = (Ok (sanitizeText (content obj)), w))
  | (Throw _, tbl', _) => tbl' = tbl
  end
  /\ (isEncrypted obj = true -> falsy (encryptedContent obj) = true ->
      validateTimeCapsule (sanitizeTimeCapsule obj) = true ->
      CapsuleTable.add P accepts obj tbl
      = (Throw (JS.lit "DataCloneError"), tbl,
         Promise (encryptCapsuleContent P (sanitizeTimeCapsule obj)))
      /\ (quotaExceeded w = false ->
          exists final,
            encryptCapsuleContent P (sanitizeTimeCapsule obj) w
            = (Ok final, afterEncrypt P w)
            /\ content final = ENCRYPTED_MARKER
            /\ localStorage (afterEncrypt P w) !! CAPSULE_KEY
               = Some (btoa P (nextKey w)))).
Proof.
  split.
  - unfold CapsuleTable.add, creatingHook.
    destruct (validateTimeCapsule (sanitizeTimeCapsule obj)) eqn:Hvalid;
      cbn [negb]; [|reflexivity].
    change (isEncrypted (sanitizeTimeCapsule obj)) with (isEncrypted obj).
    change (encryptedContent (sanitizeTimeCapsule obj)) with (encryptedContent obj).
    destruct (sanitized_content obj Hvalid) as [Hne _].
    destruct (content (sanitizeTimeCapsule obj)) as [|c t] eqn:Hcontent;
      [contradiction|].
    cbn [JS.truthy]. rewrite andb_true_r.
    destruct (isEncrypted obj && falsy (encryptedContent obj)) eqn:Hreq;
      [reflexivity|].
    destruct accepts; [|reflexivity].
    unfold CapsuleTable.get. cbn [CapsuleTable.rows CapsuleTable.nextId].
    split; [reflexivity|]. split; [reflexivity|]. split; [reflexivity|].
    split; [apply lookup_insert_eq|].
    split; [intros other Hother; apply lookup_insert_ne; congruence|].
    split; [reflexivity|]. split.
    + intros Henc. rewrite Henc in Hreq. exact Hreq.
    + intros Henc. rewrite lookup_insert_eq. unfold getCapsuleContent.
      change (isEncrypted (sanitizeTimeCapsule obj)) with (isEncrypted obj).
      rewrite Henc. reflexivity.
  - intros Henc Hnone Hvalid.
    split.
    + unfold CapsuleTable.add.
      rewrite (creatingHook_requested P obj Henc Hnone Hvalid). reflexivity.
    + intros Hq. destruct (sanitized_content obj Hvalid) as [Hne Htrim].
      rewrite (encryptCapsuleContent_settles P _ w Hne Htrim).
      rewrite (encrypt_passwordless P _ w Hq).
      eexists. split; [reflexivity|]. split; [reflexivity|apply afterEncrypt_slot].
Qed.

(** X26. Updating the content of a stored encrypted capsule persists the
    new content in plaintext and makes the capsule unreadable. [update]
    stores the content as it was given, not sanitized and not encrypted,
    beside the old ciphertext, and leaves other rows as they are. The
    promise the ['updating'] hook returned encrypts a temporary copy that is
    not kept, and in doing so stores a fresh key over the one the capsule
    was encrypted with; from then on [getCapsuleContent] answers with the
    "unable to decrypt" sentinel for the stored row (given that the fresh
    key differs and AES-GCM rejects a ciphertext under a wrong key). *)
Theorem update_keeps_plaintext_and_replaces_key (x y : jsstring) (key : nat)
    (obj : TimeCapsule) (tbl : CapsuleTable.t) (w : World) :
  Authentic P ->
  quotaExceeded w = false ->
  nextKey w <> nextKey (afterEncrypt P w) ->
  CapsuleTable.get key tbl = Some obj ->
  isEncrypted obj = true ->
  encryptedContent obj = Some (JSON_stringify P (blobOf P x w)) ->
  content obj <> y ->
  sanitizeText y <> [] ->
  let w1 := afterEncrypt P w in
  let w2 := afterEncrypt P w1 in
  exists tbl' settled stored temporary,
    CapsuleTable.update P true key y tbl = (Ok 1%nat, tbl', Promise settled)
    /\ CapsuleTable.get key tbl' = Some stored
    /\ content stored = y
    /\ isEncrypted stored = true
    /\ encryptedContent stored = encryptedContent obj
    /\ (forall other, other <> key ->
          CapsuleTable.get other tbl' = CapsuleTable.get other tbl)
    /\ settled w1 = (Ok temporary, w2)
    /\ content temporary = ENCRYPTED_MARKER
    /\ encryptedContent temporary
       = Some (JSON_stringify P (blobOf P (sanitizeText y) w1))
    /\ localStorage w1 !! CAPSULE_KEY = Some (btoa P (nextKey w))
    /\ localStorage w2 !! CAPSULE_KEY = Some (btoa P (nextKey w1))
    /\ getCapsuleContent P (CapsuleTable.get key tbl') w2
       = (Ok SENTINEL_UNABLE, w2).
Proof.
  intros Hauth Hq Hfresh Hrow Henc Hcontent Hy Hclean. cbv zeta.
  assert (Hdec : decrypt P (encryptedData (blobOf P x w)) (salt (blobOf P x w))
                   (iv (blobOf P x w)) None (afterEncrypt P (afterEncrypt P w))
                 = (Throw (JS.lit "OperationError"),
                    afterEncrypt P (afterEncrypt P w))).
  { unfold blobOf at 1 2 3. cbn [encryptedData salt iv].
    rewrite (decrypt_passwordless P laws (nextKey (afterEncrypt P w)))
      by (apply afterEncrypt_slot || apply nextKey_length).
    rewrite Hauth by exact Hfresh. reflexivity. }
  destruct (updatingHook_keeps_plaintext P y obj) as [_ Hpromise].
  specialize (Hpromise Henc Hclean).
  eexists _, _, _, _.
  split.
  { rewrite (update_changed P key y obj tbl Hrow Hy), Hpromise. reflexivity. }
  unfold CapsuleTable.get. cbn [CapsuleTable.rows].
  split; [apply lookup_insert_eq|].
  split; [reflexivity|]. split; [exact Henc|]. split; [reflexivity|].
  split; [intros other Hother; apply lookup_insert_ne; congruence|].
  split.
  { rewrite encryptCapsuleContent_settles.
    - cbn [content setContent].
      rewrite (encrypt_passwordless P _ (afterEncrypt P w)) by exact Hq.
      reflexivity.
    - exact Hclean.
    - apply sanitizeText_trimmed. }
  split; [reflexivity|]. split; [reflexivity|].
  split; [apply afterEncrypt_slot|]. split; [apply afterEncrypt_slot|].
  rewrite lookup_insert_eq.
  rewrite (stored_blob_read x _ w) by (exact Henc || exact Hcontent).
  unfold catching. rewrite Hdec. reflexivity.
Qed.

End ReadingProperties.

Lemma Reference_tagged : Tagged Reference.platform.
Proof. intros key iv data. discriminate. Qed.

Lemma password_roundtrip_witness :
  exists blob w',
    encrypt Reference.platform [72; 105; 10; 8212; 55357; 56832]%Z
      (Some (JS.lit "correct horse")) Reference.fullWorld = (Ok blob, w')
    /\ localStorage w' = localStorage Reference.fullWorld
    /\ (forall v, decrypt Reference.platform (encryptedData blob) (salt blob)
                    (iv blob) (Some (JS.lit "correct horse")) v
                  = (Ok [72; 105; 10; 8212; 55357; 56832]%Z, v))
    /\ (forall other v,
          Authentic Reference.platform -> other <> [] ->
          pbkdf2 Reference.platform other (nextSalt Reference.fullWorld)
          <> pbkdf2 Reference.platform (JS.lit "correct horse")
               (nextSalt Reference.fullWorld) ->
          decrypt Reference.platform (encryptedData blob) (salt blob) (iv blob)
            (Some other) v
          = (Throw (JS.lit "OperationError"), v)).
Proof.
  apply (password_roundtrip Reference.platform Reference_laws
           [72; 105; 10; 8212; 55357; 56832]%Z (JS.lit "correct horse")
           Reference.fullWorld).
  - discriminate.
  - reflexivity.
  - discriminate.
Defined.

(** A capsule with encryption requested is rejected by [add], which leaves
    the table empty; the same capsule without the request is stored and
    read back. *)
Example add_secretCapsule_rejected :
  fst (CapsuleTable.add Reference.platform true Sample.secretCapsule
         CapsuleTable.empty)
  = (Throw (JS.lit "DataCloneError"), CapsuleTable.empty)
  /\ fst (fst (CapsuleTable.add Reference.platform true Sample.openCapsule
                 CapsuleTable.empty)) = Ok 1%nat
  /\ Capsule.getCapsuleContent Reference.platform
       (CapsuleTable.get 1
          (snd (fst (CapsuleTable.add Reference.platform true Sample.openCapsule
                       CapsuleTable.empty))))
       Reference.world
     = (Ok (JS.lit "The key is under the oak"), Reference.world).
Proof.
  assert (Hvalid : Capsule.validateTimeCapsule
                     (Capsule.sanitizeTimeCapsule Sample.secretCapsule) = true)
    by (vm_compute; reflexivity).
  split.
  - unfold CapsuleTable.add.
    rewrite (creatingHook_requested Reference.platform Sample.secretCapsule
               eq_refl eq_refl Hvalid).
    reflexivity.
  - rewrite (add_without_request Reference.platform Sample.openCapsule
               CapsuleTable.empty Hvalid eq_refl).
    split; [reflexivity|]. cbn [fst snd]. unfold CapsuleTable.get.
    cbn [CapsuleTable.rows CapsuleTable.nextId CapsuleTable.empty].
    rewrite lookup_insert_eq. vm_compute. reflexivity.
Qed.

Lemma update_keeps_plaintext_and_replaces_key_witness :
  exists tbl' settled stored temporary,
    CapsuleTable.update Reference.platform true 1
      (JS.lit "<b>Second letter</b>") Sample.lockedTable
    = (Ok 1%nat, tbl', Capsule.Promise settled)
    /\ CapsuleTable.get 1 tbl' = Some stored
    /\ Capsule.content stored = JS.lit "<b>Second letter</b>"
    /\ Capsule.isEncrypted stored = true
    /\ Capsule.encryptedContent stored
       = Capsule.encryptedContent (Capsule.sanitizeTimeCapsule Sample.lockedCapsule)
    /\ (forall other, other <> 1%nat ->
          CapsuleTable.get other tbl' = CapsuleTable.get other Sample.lockedTable)
    /\ settled (afterEncrypt Reference.platform Reference.world)
       = (Ok temporary,
          afterEncrypt Reference.platform
            (afterEncrypt Reference.platform Reference.world))
    /\ Capsule.content temporary = Capsule.ENCRYPTED_MARKER
    /\ Capsule.encryptedContent temporary
       = Some (JSON_stringify Reference.platform
                 (blobOf Reference.platform
                    (Capsule.sanitizeText (JS.lit "<b>Second letter</b>"))
                    (afterEncrypt Reference.platform Reference.world)))
    /\ localStorage (afterEncrypt Reference.platform Reference.world) !! CAPSULE_KEY
       = Some (btoa Reference.platform (nextKey Reference.world))
    /\ localStorage
         (afterEncrypt Reference.platform
            (afterEncrypt Reference.platform Reference.world)) !! CAPSULE_KEY
       = Some (btoa Reference.platform
                 (nextKey (afterEncrypt Reference.platform Reference.world)))
    /\ Capsule.getCapsuleContent Reference.platform (CapsuleTable.get 1 tbl')
         (afterEncrypt Reference.platform
            (afterEncrypt Reference.platform Reference.world))
       = (Ok Capsule.SENTINEL_UNABLE,
          afterEncrypt Reference.platform
            (afterEncrypt Reference.platform Reference.world)).
Proof.
  apply (update_keeps_plaintext_and_replaces_key Reference.platform Reference_laws
           Reference_tagged (JS.lit "The key is under the oak")
           (JS.lit "<b>Second letter</b>") 1
           (Capsule.sanitizeTimeCapsule Sample.lockedCapsule)
           Sample.lockedTable Reference.world).
  - exact Reference_authentic.
  - reflexivity.
  - intros H. vm_compute in H. discriminate H.
  - apply lookup_insert_eq.
  - reflexivity.
  - reflexivity.
  - intros H. vm_compute in H. discriminate H.
  - vm_compute. discriminate.
Defined.

(** ** Retry accounting *)

Section ErrorRecoveryProperties.

Import ErrorRecovery.

Lemma calls_count (key : jsstring) (cs : list Call) (errorCounts : gmap jsstring nat) :
  forallb (fun c => negb (isResetOf key c)) cs = true ->
  default 0%nat (calls cs errorCounts !! key)
  = (default 0%nat (errorCounts !! key) + length (List.filter (isAttemptOf key) cs))%nat.
Proof.
  revert errorCounts. induction cs as [|c cs IH]; intros errorCounts Hcs.
  - cbn. lia.
  - cbn [forallb] in Hcs. apply andb_prop in Hcs as [Hc Hcs].
    cbn [calls fold_left List.filter].
    change (fold_left call cs (call errorCounts c)) with (calls cs (call errorCounts c)).
    rewrite (IH _ Hcs). destruct c as [k|k]; cbn [call isAttemptOf isResetOf] in *.
    + unfold shouldAttemptRecovery. cbn [snd]. unfold JS.eqb.
      case_bool_decide as Hk.
      * subst k. rewrite lookup_insert_eq. cbn [default from_option length]. 
        unfold Datatypes.id. lia.
      * rewrite lookup_insert_ne by exact Hk. reflexivity.
    + unfold resetErrorCount. unfold JS.eqb in Hc.
      apply negb_true_iff, bool_decide_eq_false in Hc.
      rewrite lookup_delete_ne by exact Hc. reflexivity.
Qed.

(** X27. Recovery attempts are counted per key. After a reset of a key, or
    from a map without entries, [shouldAttemptRecovery] allows the next
    attempt exactly when fewer than three attempts with that key have been
    counted since, however many calls with other keys came between; and
    the call changes the count of no other key. *)
Theorem recovery_attempts_are_counted_per_key (key : jsstring)
    (before later : list Call) (errorCounts : gmap jsstring nat) :
  forallb (fun c => negb (isResetOf key c)) later = true ->
  let state := calls (before ++ Reset key :: later) errorCounts in
  fst (shouldAttemptRecovery key state)
  = (length (List.filter (isAttemptOf key) later) <? maxRetries)%nat
  /\ fst (shouldAttemptRecovery key (calls later ∅))
     = (length (List.filter (isAttemptOf key) later) <? maxRetries)%nat
  /\ forall other, other <> key ->
       snd (shouldAttemptRecovery key state) !! other = state !! other.
Proof.
  intros Hlater. cbv zeta. split; [|split].
  - unfold calls. rewrite fold_left_app. cbn [fold_left call].
    match goal with
    | |- context [fold_left call later ?m] =>
        change (fold_left call later m) with (calls later m);
        pose proof (calls_count key later m Hlater) as Hcount
    end.
    unfold resetErrorCount in Hcount at 2. rewrite lookup_delete_eq in Hcount.
    cbn [default from_option] in Hcount.
    unfold shouldAttemptRecovery. cbn [fst]. rewrite Hcount. reflexivity.
  - pose proof (calls_count key later ∅ Hlater) as Hcount.
    rewrite lookup_empty in Hcount. cbn [default from_option] in Hcount.
    unfold shouldAttemptRecovery. cbn [fst]. rewrite Hcount. reflexivity.
  - intros other Hne. unfold shouldAttemptRecovery. cbn [snd].
    apply lookup_insert_ne. congruence.
Qed.

Lemma recovery_attempts_are_counted_per_key_witness :
  fst (shouldAttemptRecovery (JS.lit "ai")
         (calls ([Attempt (JS.lit "ai"); Attempt (JS.lit "ai")]
                 ++ Reset (JS.lit "ai")
                    :: [Attempt (JS.lit "ai"); Attempt (JS.lit "voice");
                        Attempt (JS.lit "ai")]) ∅))
  = (length (List.filter (isAttemptOf (JS.lit "ai"))
               [Attempt (JS.lit "ai"); Attempt (JS.lit "voice");
                Attempt (JS.lit "ai")]) <? maxRetries)%nat
  /\ fst (shouldAttemptRecovery (JS.lit "ai")
            (calls [Attempt (JS.lit "ai"); Attempt (JS.lit "voice");
                    Attempt (JS.lit "ai")] ∅))
     = (length (List.filter (isAttemptOf (JS.lit "ai"))
                  [Attempt (JS.lit "ai"); Attempt (JS.lit "voice");
                   Attempt (JS.lit "ai")]) <? maxRetries)%nat
  /\ forall other, other <> JS.lit "ai" ->
       snd (shouldAttemptRecovery (JS.lit "ai")
              (calls ([Attempt (JS.lit "ai"); Attempt (JS.lit "ai")]
                      ++ Reset (JS.lit "ai")
                         :: [Attempt (JS.lit "ai"); Attempt (JS.lit "voice");
                             Attempt (JS.lit "ai")]) ∅)) !! other
       = calls ([Attempt (JS.lit "ai"); Attempt (JS.lit "ai")]
                ++ Reset (JS.lit "ai")
                   :: [Attempt (JS.lit "ai"); Attempt (JS.lit "voice");
                       Attempt (JS.lit "ai")]) ∅ !! other.
Proof.
  apply (recovery_attempts_are_counted_per_key (JS.lit "ai")
           [Attempt (JS.lit "ai"); Attempt (JS.lit "ai")]
           [Attempt (JS.lit "ai"); Attempt (JS.lit "voice"); Attempt (JS.lit "ai")]
           ∅).
  reflexivity.
Defined.

End ErrorRecoveryProperties.
